(** * CrossModelTransfer: task-vector algebra, delta layers and the
      orthogonality regulariser

    A shallow embedding of [src/task_vectors.py], [src/delta.py] and
    [OrthLoss] of [src/orthogonal_finetune.py].

    - Python exceptions are values of [exn]; a computation that may raise
      returns [result A].
    - A [dict] is an insertion-ordered association list, as Python's is.
    - A tensor carries its dtype, its shape and its elements in row-major
      order.  Elements are kept abstract (class [Scalar]): the development
      never relies on floating-point rounding.  Arithmetic between tensors
      broadcasts as torch does.
    - [print] appends a line to an output log that is threaded through.
    - Where a property is about object identity ([copy.deepcopy], in-place
      [copy_], a dict that is shared), module [Store] embeds the same
      methods over a heap of objects passed by reference; section
      [StoreRefinement] relates the two embeddings.
    - [save_vector] and [load_vector] run on a file system that maps
      POSIX paths to directories and pickled vectors.
    - Around them: the [sum] of task vectors of arithmetic.py, the
      wrapper [Linear] of delta.py, [calculate_det] of
      orthogonal_finetune.py, and [maybe_dictionarize] and [get_features]
      of datasets/common.py. *)

From Stdlib Require Import ZArith Ascii String Lia.
From stdpp Require Import base list strings option.
From stdpp Require pretty.

Open Scope string_scope.
Open Scope nat_scope.
Open Scope list_scope.

(** ** Python: exceptions and dictionaries *)

Inductive exn : Type :=
| KeyError (key : string)
| RuntimeError (msg : string)
| ValueError (msg : string)
| AttributeError (name : string)
| IndexError
| AssertionError
| ZeroDivisionError
| FileNotFoundError (path : string)
| FileExistsError (path : string)
| IsADirectoryError (path : string)
| NotADirectoryError (path : string).

Definition result (A : Type) : Type := (exn + A)%type.

#[global] Instance result_ret : MRet result := fun A x => inr x.
#[global] Instance result_bind : MBind result :=
  fun A B f m => match m with inl e => inl e | inr x => f x end.

Definition raise {A : Type} (e : exn) : result A := inl e.

Definition dict (V : Type) : Type := list (string * V).

(** [d.get(key)] *)
Fixpoint dict_get {V : Type} (d : dict V) (key : string) : option V :=
  match d with
  | [] => None
  | (k, v) :: rest => if String.eqb key k then Some v else dict_get rest key
  end.

(** [key in d] *)
Definition dict_contains {V : Type} (d : dict V) (key : string) : bool :=
  match dict_get d key with Some _ => true | None => false end.

(** [d[key]], raising [KeyError] *)
Definition dict_getitem {V : Type} (d : dict V) (key : string) : result V :=
  match dict_get d key with
  | Some v => inr v
  | None => raise (KeyError key)
  end.

(** [d[key] = v]: an existing key keeps its position, a new one goes last. *)
Fixpoint dict_setitem {V : Type} (d : dict V) (key : string) (v : V) : dict V :=
  match d with
  | [] => [(key, v)]
  | (k, w) :: rest =>
      if String.eqb key k then (k, v) :: rest
      else (k, w) :: dict_setitem rest key v
  end.

(** [list(d)]: the keys in iteration order *)
Definition dict_keys {V : Type} (d : dict V) : list string := d.*1.

(** ** torch: dtypes, tensors, broadcasting *)

(** The numeric dtypes (bool, complex and quantised dtypes are left out). *)
Inductive DType : Type :=
| float16 | bfloat16 | float32 | float64
| int8 | int16 | int32 | int64 | uint8.

#[global] Instance DType_eq_dec : EqDecision DType.
Proof. solve_decision. Defined.

Definition is_floating_point (d : DType) : bool :=
  match d with
  | float16 | bfloat16 | float32 | float64 => true
  | _ => false
  end.

(** [torch.promote_types] *)
Definition promote_types (a b : DType) : DType :=
  if decide (a = b) then a else
  match a, b with
  | float64, _ | _, float64 => float64
  | float32, _ | _, float32 => float32
  | float16, bfloat16 | bfloat16, float16 => float32
  | float16, _ | _, float16 => float16
  | bfloat16, _ | _, bfloat16 => bfloat16
  | int64, _ | _, int64 => int64
  | int32, _ | _, int32 => int32
  | int16, _ | _, int16 => int16
  | _, _ => int16   (* uint8 with int8 *)
  end.

(** The scalar type underneath every tensor.  [cast d x] is the conversion
    of [x] to dtype [d]; [of_int] embeds a Python int; [one] is [1.0]. *)
Class Scalar (E : Type) : Type := {
  zero : E;
  one : E;
  add : E -> E -> E;
  sub : E -> E -> E;
  mul : E -> E -> E;
  div : E -> E -> E;
  neg : E -> E;
  of_int : Z -> E;
  cast : DType -> E -> E
}.

(** The laws of exact arithmetic that the zero-at-init argument uses. *)
Class ZeroLaws (E : Type) `{Scalar E} : Prop := {
  add_zero_zero : add zero zero = zero;
  mul_zero_l : forall x : E, mul zero x = zero;
  mul_zero_r : forall x : E, mul x zero = zero;
  div_zero_l : forall x : E, div zero x = zero
}.

Record Tensor (E : Type) : Type := mkTensor {
  dtype : DType;
  shape : list nat;
  data : list E
}.
Arguments mkTensor {E} _ _ _.
Arguments dtype {E} _.
Arguments shape {E} _.
Arguments data {E} _.

(** Number of elements of a shape *)
Definition numel (s : list nat) : nat := foldr Nat.mul 1 s.

(** Broadcasting of two shapes, on the reversed shapes (trailing dimension
    first): dimensions are compatible when equal or when one of them is 1;
    a missing leading dimension counts as 1. *)
Fixpoint broadcast_rev (s1 s2 : list nat) : option (list nat) :=
  match s1, s2 with
  | [], s => Some s
  | s, [] => Some s
  | d1 :: r1, d2 :: r2 =>
      match broadcast_rev r1 r2 with
      | None => None
      | Some r =>
          if d1 =? d2 then Some (d1 :: r)
          else if d1 =? 1 then Some (d2 :: r)
          else if d2 =? 1 then Some (d1 :: r)
          else None
      end
  end.

(** [torch.broadcast_shapes] *)
Definition broadcast_shapes (s1 s2 : list nat) : option (list nat) :=
  reverse <$> broadcast_rev (reverse s1) (reverse s2).

(** Multi-index of flat position [i] in a (reversed) shape, trailing
    dimension first *)
Fixpoint unravel_rev (srev : list nat) (i : nat) : list nat :=
  match srev with
  | [] => []
  | d :: r => (i mod d) :: unravel_rev r (i / d)
  end.

(** Flat position in an operand of (reversed) shape [srev] of the
    (reversed) multi-index [idx] of the broadcast result: a dimension of
    size 1 is read at index 0. *)
Fixpoint ravel_rev (srev idx : list nat) : nat :=
  match srev, idx with
  | d :: r, j :: js => (if d =? 1 then 0 else j) + d * ravel_rev r js
  | _, _ => 0
  end.

Section Tensors.
Context {E : Type} `{Scalar E}.

(** Integer dtypes form the lower category, floating-point ones the higher. *)
Definition category (d : DType) : nat := if is_floating_point d then 2 else 1.

(** [torch.result_type] of two tensors: a zero-dimensional operand next to
    a dimensioned one decides the dtype only when its category is higher. *)
Definition result_type (a b : Tensor E) : DType :=
  match shape a, shape b with
  | [], _ :: _ => if category (dtype b) <? category (dtype a) then dtype a else dtype b
  | _ :: _, [] => if category (dtype a) <? category (dtype b) then dtype b else dtype a
  | _, _ => promote_types (dtype a) (dtype b)
  end.

(** Element of [t] seen from flat position [i] of a result of shape [s] *)
Definition broadcast_at (t : Tensor E) (s : list nat) (i : nat) : E :=
  nth (ravel_rev (reverse (shape t)) (unravel_rev (reverse s) i)) (data t) zero.

(** An elementwise binary operator ([+], [-]): shapes that do not
    broadcast raise [RuntimeError]. *)
Definition binary_op (f : E -> E -> E) (a b : Tensor E) : result (Tensor E) :=
  match broadcast_shapes (shape a) (shape b) with
  | None =>
      raise (RuntimeError "The size of tensor a must match the size of tensor b")
  | Some s =>
      inr {| dtype := result_type a b;
             shape := s;
             data := (fun i => f (broadcast_at a s i) (broadcast_at b s i))
                       <$> seq 0 (numel s) |}
  end.

Definition tensor_add : Tensor E -> Tensor E -> result (Tensor E) := binary_op add.
Definition tensor_sub : Tensor E -> Tensor E -> result (Tensor E) := binary_op sub.

(** [-t] *)
Definition tensor_neg (t : Tensor E) : Tensor E :=
  {| dtype := dtype t; shape := shape t; data := neg <$> data t |}.

(** [c * t] for a Python float [c]: an integer tensor is promoted to the
    default dtype. *)
Definition scalar_mul (c : E) (t : Tensor E) : Tensor E :=
  {| dtype := if is_floating_point (dtype t) then dtype t else float32;
     shape := shape t;
     data := mul c <$> data t |}.

(** [t[0]] of a one-dimensional tensor *)
Definition first_element (t : Tensor E) : result (Tensor E) :=
  match data t with
  | x :: _ => inr {| dtype := dtype t; shape := []; data := [x] |}
  | [] => raise IndexError
  end.

(** What [load_state_dict] does to an incoming tensor before it compares
    shapes: for a zero-dimensional parameter a one-dimensional input is
    replaced by its first element. *)
Definition input_for (param input_param : Tensor E) : result (Tensor E) :=
  if (length (shape param) =? 0) && (length (shape input_param) =? 1)
  then first_element input_param
  else inr input_param.

(** [param.copy_(t)] for tensors of one shape: the parameter keeps its
    dtype and takes the converted elements of [t]. *)
Definition copy_ (param t : Tensor E) : Tensor E :=
  {| dtype := dtype param;
     shape := shape param;
     data := if decide (dtype t = dtype param) then data t
             else cast (dtype param) <$> data t |}.

End Tensors.

(** ** task_vectors.py, on values

    An [nn.Module] is seen through its [state_dict()]: the ordered map
    from parameter names to tensors. *)

Module TaskVector.
Section Algebra.
Context {E : Type} `{Scalar E}.

Definition Module : Type := dict (Tensor E).

Record t : Type := mk { vector : dict (Tensor E) }.

Definition state_dict (m : Module) : dict (Tensor E) := m.

(** The loop of [__init__]:
    [for key in pretrained_state_dict:
       if pretrained_state_dict[key].dtype in [torch.int64, torch.uint8]: continue
       self.vector[key] = finetuned_state_dict[key] - pretrained_state_dict[key]] *)
Fixpoint init_loop (keys : list string)
    (pretrained_state_dict finetuned_state_dict : dict (Tensor E))
    (vec : dict (Tensor E)) : result (dict (Tensor E)) :=
  match keys with
  | [] => inr vec
  | key :: rest =>
      p ← dict_getitem pretrained_state_dict key;
      if bool_decide (dtype p ∈ [int64; uint8]) then
        init_loop rest pretrained_state_dict finetuned_state_dict vec
      else
        f ← dict_getitem finetuned_state_dict key;
        d ← tensor_sub f p;
        init_loop rest pretrained_state_dict finetuned_state_dict
          (dict_setitem vec key d)
  end.

Definition __init__ (pretrained_checkpoint finetuned_checkpoint : option Module)
    (vector : option (dict (Tensor E))) : result t :=
  match vector with
  | Some v => inr (mk v)
  | None =>
      match pretrained_checkpoint, finetuned_checkpoint with
      | Some pre, Some fin =>
          let pretrained_state_dict := state_dict pre in
          let finetuned_state_dict := state_dict fin in
          v ← init_loop (dict_keys pretrained_state_dict)
                pretrained_state_dict finetuned_state_dict [];
          inr (mk v)
      | _, _ => raise AssertionError
      end
  end.

(** [TaskVector(pretrained, finetuned)] *)
Definition construct (pretrained finetuned : Module) : result t :=
  __init__ (Some pretrained) (Some finetuned) None.

Definition add_warning (key : string) : string :=
  "Warning, key " +:+ key +:+ " is not present in both task vectors.".

(** The loop of [__add__]; [out] is what has been printed so far. *)
Fixpoint add_loop (keys : list string) (self other : dict (Tensor E))
    (new_vector : dict (Tensor E)) (out : list string)
    : result (dict (Tensor E) * list string) :=
  match keys with
  | [] => inr (new_vector, out)
  | key :: rest =>
      if negb (dict_contains other key) then
        add_loop rest self other new_vector (out ++ [add_warning key])
      else
        x ← dict_getitem self key;
        y ← dict_getitem other key;
        s ← tensor_add x y;
        add_loop rest self other (dict_setitem new_vector key s) out
  end.

Definition __add__ (self other : t) : result (t * list string) :=
  '(new_vector, out) ← add_loop (dict_keys (vector self)) (vector self) (vector other) [] [];
  v ← __init__ None None (Some new_vector);
  inr (v, out).

(** What [__radd__] may receive on its left *)
Inductive radd_operand : Type :=
| PyNone
| PyInt (n : Z)
| PyTaskVector (v : t).

Definition __radd__ (self : t) (other : radd_operand) : result (t * list string) :=
  match other with
  | PyNone | PyInt _ => inr (self, [])
  | PyTaskVector o => __add__ self o
  end.

Fixpoint neg_loop (keys : list string) (self new_vector : dict (Tensor E))
    : result (dict (Tensor E)) :=
  match keys with
  | [] => inr new_vector
  | key :: rest =>
      x ← dict_getitem self key;
      neg_loop rest self (dict_setitem new_vector key (tensor_neg x))
  end.

Definition __neg__ (self : t) : result t :=
  new_vector ← neg_loop (dict_keys (vector self)) (vector self) [];
  __init__ None None (Some new_vector).

Definition apply_warning (key : string) : string :=
  "Warning: key " +:+ key +:+
  " is present in the pretrained state dict but not in the task vector".

Fixpoint apply_loop (keys : list string) (self pretrained_state_dict : dict (Tensor E))
    (scaling_coef : E) (new_state_dict : dict (Tensor E)) (out : list string)
    : result (dict (Tensor E) * list string) :=
  match keys with
  | [] => inr (new_state_dict, out)
  | key :: rest =>
      if negb (dict_contains self key) then
        apply_loop rest self pretrained_state_dict scaling_coef new_state_dict
          (out ++ [apply_warning key])
      else
        p ← dict_getitem pretrained_state_dict key;
        v ← dict_getitem self key;
        s ← tensor_add p (scalar_mul scaling_coef v);
        apply_loop rest self pretrained_state_dict scaling_coef
          (dict_setitem new_state_dict key s) out
  end.

(** The loop of [module.load_state_dict(sd, strict=False)] over the
    module's parameters: a parameter named in [sd] takes the value found
    there when it has the parameter's shape; otherwise a size mismatch is
    recorded and the loop goes on.  The other parameters are kept; names
    of [sd] that the module does not have are ignored. *)
Fixpoint load_loop (m : Module) (sd : dict (Tensor E)) (error_msgs : list string)
    : result (Module * list string) :=
  match m with
  | [] => inr ([], error_msgs)
  | (name, param) :: rest =>
      match dict_get sd name with
      | None =>
          '(rest', msgs) ← load_loop rest sd error_msgs;
          inr ((name, param) :: rest', msgs)
      | Some x =>
          x ← input_for param x;
          if decide (shape x = shape param) then
            '(rest', msgs) ← load_loop rest sd error_msgs;
            inr ((name, copy_ param x) :: rest', msgs)
          else
            '(rest', msgs) ← load_loop rest sd
                               (error_msgs ++ ["size mismatch for " +:+ name]);
            inr ((name, param) :: rest', msgs)
      end
  end.

(** The recorded mismatches are raised together at the end. *)
Definition load_state_dict (m : Module) (sd : dict (Tensor E)) : result Module :=
  '(m', error_msgs) ← load_loop m sd [];
  match error_msgs with
  | [] => inr m'
  | msg :: _ => raise (RuntimeError msg)
  end.

Definition deepcopy (m : Module) : Module := m.

(** [scaling_coef] is [None] when the argument is omitted. *)
Definition apply_to (self : t) (pretrained_checkpoint : Module)
    (scaling_coef : option E) : result (Module * list string) :=
  let scaling_coef := default one scaling_coef in
  let pretrained_model := deepcopy pretrained_checkpoint in
  let pretrained_state_dict := state_dict pretrained_model in
  '(new_state_dict, out) ←
      apply_loop (dict_keys pretrained_state_dict) (vector self)
        pretrained_state_dict scaling_coef [] [];
  m ← load_state_dict pretrained_model new_state_dict;
  inr (m, out).

End Algebra.
End TaskVector.

(** ** torch: matrices *)

Section Matrices.
Context {E : Type} `{Scalar E}.

(** [torch.zeros(s)] *)
Definition zeros (s : list nat) : Tensor E :=
  mkTensor float32 s (replicate (numel s) zero).

(** [torch.empty(s)]: the contents are unspecified; every use in
    delta.py overwrites them before they are read. *)
Definition empty (s : list nat) : Tensor E :=
  mkTensor float32 s (replicate (numel s) zero).

(** [torch.eye(n)] *)
Definition eye (n : nat) : Tensor E :=
  mkTensor float32 [n; n]
    (i ← seq 0 n; j ← seq 0 n; [if i =? j then one else zero]).

(** [nn.init.zeros_(t)] *)
Definition zeros_ (t : Tensor E) : Tensor E :=
  mkTensor (dtype t) (shape t) (replicate (numel (shape t)) zero).

(** [nn.init.kaiming_uniform_(t, a=math.sqrt(5))]: the values drawn are
    an input of the model. *)
Definition kaiming_uniform_ (t : Tensor E) (drawn : list E) : Tensor E :=
  mkTensor (dtype t) (shape t) drawn.

(** [t.T]: swaps the two dimensions of a matrix (and is the identity
    below two dimensions; higher ranks do not occur here). *)
Definition transpose (t : Tensor E) : Tensor E :=
  match shape t with
  | [n; m] =>
      mkTensor (dtype t) [m; n]
        (j ← seq 0 m; i ← seq 0 n; [nth (i * m + j) (data t) zero])
  | _ => t
  end.

Definition dot (k : nat) (row col : nat -> E) : E :=
  foldl add zero ((fun l => mul (row l) (col l)) <$> seq 0 k).

(** Row-major product of an [n x k] by a [k x m] matrix *)
Definition mm_data (n k m : nat) (a b : list E) : list E :=
  i ← seq 0 n; j ← seq 0 m;
  [dot k (fun l => nth (i * k + l) a zero) (fun l => nth (l * m + j) b zero)].

Definition shape_error {A : Type} : result A :=
  raise (RuntimeError "mat1 and mat2 shapes cannot be multiplied").

Definition dtype_error {A : Type} : result A :=
  raise (RuntimeError "expected m1 and m2 to have the same dtype").

(** [a @ b] on matrices, the only operands it is given here; the two must
    have one dtype. *)
Definition matmul (a b : Tensor E) : result (Tensor E) :=
  match shape a, shape b with
  | [n; k], [k'; m] =>
      if k =? k' then
        if decide (dtype a = dtype b) then
          inr (mkTensor (dtype a) [n; m] (mm_data n k m (data a) (data b)))
        else dtype_error
      else shape_error
  | _, _ => shape_error
  end.

(** [F.linear(input, weight)] is [input @ weight.T]: [weight] is a
    matrix of shape [(out, in)], [input] has shape [(.., in)] and the
    result [(.., out)]; the two must have one dtype. *)
Definition linear (input weight : Tensor E) : result (Tensor E) :=
  match shape weight, reverse (shape input) with
  | [o; i], last :: lead =>
      if last =? i then
        if decide (dtype input = dtype weight) then
          inr (mkTensor (dtype input) (reverse lead ++ [o])
                 (mm_data (numel lead) i o (data input) (data (transpose weight))))
        else dtype_error
      else shape_error
  | _, _ => shape_error
  end.

(** [t * n] for a Python int [n] *)
Definition mul_int (t : Tensor E) (n : Z) : Tensor E :=
  mkTensor (dtype t) (shape t) ((fun x => mul x (of_int n)) <$> data t).

(** [t / n] for a Python int [n] (true division) *)
Definition div_int (t : Tensor E) (n : Z) : Tensor E :=
  mkTensor (if is_floating_point (dtype t) then dtype t else float32) (shape t)
    ((fun x => div x (of_int n)) <$> data t).

End Matrices.

(** ** delta.py *)

Module Delta.
Section Layer.
Context {E : Type} `{Scalar E}.

(** An attribute that [__init__] sets in one branch only is [None] in
    the other. *)
Record LoRALayer : Type := mkLoRALayer {
  in_features : nat;
  out_features : nat;
  r : Z;
  alpha : Z;
  bias : bool;
  A : option (Tensor E);
  B : option (Tensor E);
  D : option (Tensor E);
  b : option (Tensor E);
  U : option (Tensor E)
}.

Definition getattr {V : Type} (name : string) (field : option V) : result V :=
  match field with
  | Some v => inr v
  | None => raise (AttributeError name)
  end.

Definition set_A (self : LoRALayer) (x : Tensor E) : LoRALayer :=
  mkLoRALayer (in_features self) (out_features self) (r self) (alpha self)
    (bias self) (Some x) (B self) (D self) (b self) (U self).
Definition set_B (self : LoRALayer) (x : Tensor E) : LoRALayer :=
  mkLoRALayer (in_features self) (out_features self) (r self) (alpha self)
    (bias self) (A self) (Some x) (D self) (b self) (U self).
Definition set_D (self : LoRALayer) (x : Tensor E) : LoRALayer :=
  mkLoRALayer (in_features self) (out_features self) (r self) (alpha self)
    (bias self) (A self) (B self) (Some x) (b self) (U self).
Definition set_b (self : LoRALayer) (x : Tensor E) : LoRALayer :=
  mkLoRALayer (in_features self) (out_features self) (r self) (alpha self)
    (bias self) (A self) (B self) (D self) (Some x) (U self).
Definition set_U (self : LoRALayer) (x : Tensor E) : LoRALayer :=
  mkLoRALayer (in_features self) (out_features self) (r self) (alpha self)
    (bias self) (A self) (B self) (D self) (b self) (Some x).

(** [drawn] is what [kaiming_uniform_] draws for [A]. *)
Definition reset_parameters (self : LoRALayer) (drawn : list E) : result LoRALayer :=
  if (0 <? r self)%Z then
    a ← getattr "A" (A self);
    let self := set_A self (kaiming_uniform_ a drawn) in
    b ← getattr "B" (B self);
    inr (set_B self (zeros_ b))
  else
    d ← getattr "D" (D self);
    let self := set_D self (zeros_ d) in
    if bias self then
      v ← getattr "b" (b self);
      inr (set_b self (zeros_ v))
    else inr self.

Definition zero_parameters (self : LoRALayer) : result LoRALayer :=
  if (0 <? r self)%Z then
    a ← getattr "A" (A self);
    let self := set_A self (zeros_ a) in
    b ← getattr "B" (B self);
    inr (set_B self (zeros_ b))
  else
    d ← getattr "D" (D self);
    let self := set_D self (zeros_ d) in
    if bias self then
      v ← getattr "b" (b self);
      inr (set_b self (zeros_ v))
    else inr self.

(** [LoRALayer(in_features, out_features, r, alpha, bias)] *)
Definition __init__ (in_features out_features : nat) (r alpha : Z) (bias : bool)
    (drawn : list E) : result LoRALayer :=
  let self := mkLoRALayer in_features out_features r alpha bias
                None None None None None in
  self ←
    (if (0 <? r)%Z then
       let self := set_A self (empty [Z.to_nat r; in_features]) in
       let self := set_B self (empty [out_features; Z.to_nat r]) in
       reset_parameters self drawn
     else
       let self := set_D self (zeros_ (zeros [in_features; out_features])) in
       if bias then inr (set_b self (zeros_ (zeros [out_features])))
       else inr self);
  inr (set_U self (eye in_features)).

Definition forward (self : LoRALayer) (inputs : Tensor E) : result (Tensor E) :=
  if (0 <? r self)%Z then
    u ← getattr "U" (U self);
    xU ← linear inputs u;
    b ← getattr "B" (B self);
    a ← getattr "A" (A self);
    ba ← matmul b a;
    xUW ← linear xU ba;
    xUWUh ← linear xUW (transpose u);
    inr (div_int (mul_int xUWUh (alpha self)) (r self))
  else if bias self then
    u ← getattr "U" (U self);
    xU ← linear inputs u;
    d ← getattr "D" (D self);
    xUW ← linear xU d;
    xUWUh ← linear xUW (transpose u);
    v ← getattr "b" (b self);
    tensor_add xUWUh v
  else
    u ← getattr "U" (U self);
    xU ← linear inputs u;
    d ← getattr "D" (D self);
    xUW ← linear xU d;
    linear xUW (transpose u).

(** The wrapper [Linear]: a frozen [nn.Linear] called [Pre] plus a delta *)
Record Linear : Type := mkLinear {
  Pre_weight : Tensor E;
  Pre_bias : Tensor E;
  Delta : LoRALayer
}.

End Layer.
End Delta.

(** ** OrthLoss of orthogonal_finetune.py *)

(** [torch.linalg.matrix_norm(x, ord="fro")] and [ord=2]: square roots and
    singular values are outside [Scalar], so the two norms are parameters. *)
Class MatrixNorm (E : Type) : Type := {
  norm_fro : Tensor E -> E;
  norm_spec : Tensor E -> E
}.

Module OrthLoss.
Section Loss.
Context {E : Type} `{Scalar E} `{MatrixNorm E}.

(** What [forward] reads of the encoder,
    [image_encoder.model.visual.transformer]: the layer count [layers]
    and, per block, the four projections of [attn]. *)
Record Attention : Type := mkAttention {
  q_proj : Delta.Linear (E := E);
  k_proj : Delta.Linear (E := E);
  v_proj : Delta.Linear (E := E);
  out_proj : Delta.Linear (E := E)
}.

Record Transformer : Type := mkTransformer {
  layers : nat;
  resblocks : list Attention
}.

Record t : Type := mk { adjust_type : string }.

(** [getattr(attn, f"{embed}_proj")] *)
Definition getattr_proj (attn : Attention) (embed : string)
    : result (Delta.Linear (E := E)) :=
  if String.eqb embed "q" then inr (q_proj attn)
  else if String.eqb embed "k" then inr (k_proj attn)
  else if String.eqb embed "v" then inr (v_proj attn)
  else if String.eqb embed "out" then inr (out_proj attn)
  else raise (AttributeError (embed +:+ "_proj")).

(** [resblocks[i]] *)
Definition getitem {V : Type} (l : list V) (i : nat) : result V :=
  match l !! i with
  | Some v => inr v
  | None => raise IndexError
  end.

(** The body of the two loops, for one projection *)
Definition term (self : t) (transformer : Transformer) (i : nat) (embed : string)
    : result E :=
  block ← getitem (resblocks transformer) i;
  proj ← getattr_proj block embed;
  u ← Delta.getattr "U" (Delta.U (Delta.Delta proj));
  UhU ← matmul (transpose u) u;
  n ← getitem (shape UhU) 0;
  let eye := eye n in
  if String.eqb (adjust_type self) "fro" then
    x ← tensor_sub UhU eye; inr (norm_fro x)
  else if String.eqb (adjust_type self) "spec" then
    x ← tensor_sub UhU eye; inr (norm_spec x)
  else raise (ValueError ("Invalid adjust type: " +:+ adjust_type self)).

Fixpoint inner_loop (self : t) (transformer : Transformer) (i : nat)
    (embeds : list string) (orth_loss : list E) : result (list E) :=
  match embeds with
  | [] => inr orth_loss
  | embed :: rest =>
      x ← term self transformer i embed;
      inner_loop self transformer i rest (orth_loss ++ [x])
  end.

Fixpoint outer_loop (self : t) (transformer : Transformer) (range : list nat)
    (orth_loss : list E) : result (list E) :=
  match range with
  | [] => inr orth_loss
  | i :: rest =>
      orth_loss ← inner_loop self transformer i ["q"; "k"; "v"; "out"] orth_loss;
      outer_loop self transformer rest orth_loss
  end.

(** [sum(xs)]: Python starts from the int 0. *)
Definition sum (xs : list E) : E := foldl add (of_int 0) xs.

Definition forward (self : t) (transformer : Transformer) : result E :=
  let num_layers := layers transformer in
  orth_loss ← outer_loop self transformer (seq 0 num_layers) [];
  if length orth_loss =? 0 then raise ZeroDivisionError
  else inr (div (sum orth_loss) (of_int (Z.of_nat (length orth_loss)))).

End Loss.
End OrthLoss.

(** ** task_vectors.py, on a store

    The same operations with object identity: tensors, dicts, task vectors
    and modules live in a heap and are passed by reference, so that
    in-place updates ([d[key] = v], [param.copy_]) and aliasing are visible.
    A computation keeps its state when it raises. *)

Module Store.

(** An address is a position in the heap. *)
Abbreviation loc := nat (only parsing).

Section Heap.
Context {E : Type} `{Scalar E}.

Inductive object : Type :=
| OTensor (t : Tensor E)
| ODict (d : dict loc)            (* a dict of tensors *)
| OTaskVector (vector : loc)      (* [self.vector] *)
| OModule (params : dict loc).    (* an [nn.Module]: its named parameters *)

Record state : Type := mkState {
  heap : list object;
  stdout : list string
}.

Definition M (A : Type) : Type := state -> result A * state.

#[global] Instance M_ret : MRet M := fun A a s => (inr a, s).
#[global] Instance M_bind : MBind M :=
  fun A B f m s =>
    match m s with
    | (inl e, s') => (inl e, s')
    | (inr a, s') => f a s'
    end.

Definition lift {A : Type} (r : result A) : M A := fun s => (r, s).

Definition print (line : string) : M unit :=
  fun s => (inr (), mkState (heap s) (stdout s ++ [line])).

(** A new object gets the next free address. *)
Definition alloc (o : object) : M loc :=
  fun s => (inr (length (heap s)), mkState (heap s ++ [o]) (stdout s)).

Definition load (l : loc) : M object :=
  fun s =>
    match heap s !! l with
    | Some o => (inr o, s)
    | None => (raise (RuntimeError "dangling reference"), s)
    end.

Definition store (l : loc) (o : object) : M unit :=
  fun s => (inr (), mkState (<[l := o]> (heap s)) (stdout s)).

Definition type_error {A : Type} : M A :=
  lift (raise (AttributeError "object of another type")).

Definition get_tensor (l : loc) : M (Tensor E) :=
  o ← load l; match o with OTensor t => mret t | _ => type_error end.

Definition get_dict (l : loc) : M (dict loc) :=
  o ← load l; match o with ODict d => mret d | _ => type_error end.

(** [self.vector] *)
Definition get_vector (l : loc) : M loc :=
  o ← load l; match o with OTaskVector v => mret v | _ => type_error end.

Definition get_params (l : loc) : M (dict loc) :=
  o ← load l; match o with OModule ps => mret ps | _ => type_error end.

(** [d[key] = v] on the dict at [d] *)
Definition dict_store (d : loc) (key : string) (v : loc) : M unit :=
  old ← get_dict d; store d (ODict (dict_setitem old key v)).

(** [TaskVector(vector=vector)]: the new object refers to the dict it is
    given. *)
Definition __init__ (vector : loc) : M loc := alloc (OTaskVector vector).

Fixpoint add_loop (keys : list string) (self_vector other_vector new_vector : loc)
    : M unit :=
  match keys with
  | [] => mret ()
  | key :: rest =>
      other ← get_dict other_vector;
      if negb (dict_contains other key) then
        print (TaskVector.add_warning key);;
        add_loop rest self_vector other_vector new_vector
      else
        self ← get_dict self_vector;
        xl ← lift (dict_getitem self key);
        x ← get_tensor xl;
        yl ← lift (dict_getitem other key);
        y ← get_tensor yl;
        s ← lift (tensor_add x y);
        sl ← alloc (OTensor s);
        dict_store new_vector key sl;;
        add_loop rest self_vector other_vector new_vector
  end.

Definition __add__ (self other : loc) : M loc :=
  new_vector ← alloc (ODict []);
  self_vector ← get_vector self;
  other_vector ← get_vector other;
  keys ← get_dict self_vector;
  add_loop (dict_keys keys) self_vector other_vector new_vector;;
  __init__ new_vector.

Fixpoint neg_loop (keys : list string) (self_vector new_vector : loc) : M unit :=
  match keys with
  | [] => mret ()
  | key :: rest =>
      self ← get_dict self_vector;
      xl ← lift (dict_getitem self key);
      x ← get_tensor xl;
      nl ← alloc (OTensor (tensor_neg x));
      dict_store new_vector key nl;;
      neg_loop rest self_vector new_vector
  end.

Definition __neg__ (self : loc) : M loc :=
  new_vector ← alloc (ODict []);
  self_vector ← get_vector self;
  keys ← get_dict self_vector;
  neg_loop (dict_keys keys) self_vector new_vector;;
  __init__ new_vector.

(** [copy.deepcopy] of the parameters: every tensor is duplicated. *)
Fixpoint deepcopy_params (params : dict loc) : M (dict loc) :=
  match params with
  | [] => mret []
  | (name, l) :: rest =>
      x ← get_tensor l;
      l' ← alloc (OTensor x);
      rest' ← deepcopy_params rest;
      mret ((name, l') :: rest')
  end.

Definition deepcopy (module : loc) : M loc :=
  params ← get_params module;
  params' ← deepcopy_params params;
  alloc (OModule params').

(** [module.state_dict()]: a new dict whose values are the module's own
    parameter tensors. *)
Definition state_dict (module : loc) : M loc :=
  params ← get_params module;
  alloc (ODict params).

Fixpoint apply_loop (keys : list string) (self_vector pretrained_state_dict : loc)
    (scaling_coef : E) (new_state_dict : loc) : M unit :=
  match keys with
  | [] => mret ()
  | key :: rest =>
      self ← get_dict self_vector;
      if negb (dict_contains self key) then
        print (TaskVector.apply_warning key);;
        apply_loop rest self_vector pretrained_state_dict scaling_coef new_state_dict
      else
        psd ← get_dict pretrained_state_dict;
        pl ← lift (dict_getitem psd key);
        p ← get_tensor pl;
        vl ← lift (dict_getitem self key);
        v ← get_tensor vl;
        s ← lift (tensor_add p (scalar_mul scaling_coef v));
        sl ← alloc (OTensor s);
        dict_store new_state_dict key sl;;
        apply_loop rest self_vector pretrained_state_dict scaling_coef new_state_dict
  end.

(** The copies of [load_state_dict(sd, strict=False)]: a parameter found
    in [sd] with its own shape is overwritten in place; a size mismatch
    is recorded and the loop goes on. *)
Fixpoint load_loop (params : dict loc) (sd : loc) (error_msgs : list string)
    : M (list string) :=
  match params with
  | [] => mret error_msgs
  | (name, pl) :: rest =>
      d ← get_dict sd;
      match dict_get d name with
      | None => load_loop rest sd error_msgs
      | Some xl =>
          x ← get_tensor xl;
          param ← get_tensor pl;
          x ← lift (input_for param x);
          if decide (shape x = shape param) then
            store pl (OTensor (copy_ param x));;
            load_loop rest sd error_msgs
          else
            load_loop rest sd (error_msgs ++ ["size mismatch for " +:+ name])
      end
  end.

Definition load_state_dict (module sd : loc) : M unit :=
  params ← get_params module;
  error_msgs ← load_loop params sd [];
  match error_msgs with
  | [] => mret ()
  | msg :: _ => lift (raise (RuntimeError msg))
  end.

Definition apply_to (self pretrained_checkpoint : loc) (scaling_coef : option E)
    : M loc :=
  let scaling_coef := default one scaling_coef in
  pretrained_model ← deepcopy pretrained_checkpoint;
  new_state_dict ← alloc (ODict []);
  pretrained_state_dict ← state_dict pretrained_model;
  self_vector ← get_vector self;
  keys ← get_dict pretrained_state_dict;
  apply_loop (dict_keys keys) self_vector pretrained_state_dict scaling_coef
    new_state_dict;;
  load_state_dict pretrained_model new_state_dict;;
  mret pretrained_model.

(** The addresses an object refers to *)
Definition refs (o : object) : list loc :=
  match o with
  | OTensor _ => []
  | ODict d => d.*2
  | OTaskVector v => [v]
  | OModule ps => ps.*2
  end.

End Heap.
End Store.

(** ** task_vectors.py: persistence

    The file system is a map from paths, compared as written, to what is
    there: a directory, or a file holding a serialised key-to-tensor
    mapping.  The empty path names nothing; a relative path of one
    component lives in the working directory, which exists. *)

Module Persistence.
Section Files.
Context {E : Type} `{Scalar E}.

Inductive node : Type :=
| Directory
| File (content : dict (Tensor E)).

Definition FileSystem : Type := dict node.

Definition slash : Ascii.ascii := "/"%char.

Definition is_slash (c : Ascii.ascii) : bool := Ascii.eqb c slash.

(** The characters after the last slash, reversed, and the ones up to and
    including it, reversed *)
Fixpoint span_tail (rev_path : list Ascii.ascii) (tail : list Ascii.ascii)
    : list Ascii.ascii * list Ascii.ascii :=
  match rev_path with
  | [] => ([], tail)
  | c :: rest => if is_slash c then (rev_path, tail) else span_tail rest (c :: tail)
  end.

Fixpoint drop_slashes (rev_head : list Ascii.ascii) : list Ascii.ascii :=
  match rev_head with
  | [] => []
  | c :: rest => if is_slash c then drop_slashes rest else rev_head
  end.

(** [posixpath.split(p)]: the head loses its trailing slashes unless it
    consists of slashes only. *)
Definition split (p : string) : string * string :=
  let '(rev_head, tail) := span_tail (reverse (list_ascii_of_string p)) [] in
  let rev_head := match drop_slashes rev_head with
                  | [] => rev_head
                  | stripped => stripped
                  end in
  (string_of_list_ascii (reverse rev_head), string_of_list_ascii tail).

(** [os.path.dirname(p)] *)
Definition dirname (p : string) : string := (split p).1.

(** The root and the working directory are always there. *)
Definition is_root_or_cwd (p : string) : bool :=
  String.eqb p "." ||
  (negb (String.eqb p "") && forallb is_slash (list_ascii_of_string p)).

(** [os.path.isdir(p)] *)
Definition isdir (fs : FileSystem) (p : string) : bool :=
  is_root_or_cwd p ||
  match dict_get fs p with
  | Some Directory => true
  | _ => false
  end.

(** [os.path.exists(p)] *)
Definition exists_ (fs : FileSystem) (p : string) : bool :=
  is_root_or_cwd p || dict_contains fs p.

(** [os.mkdir(name)] *)
Definition mkdir (name : string) (fs : FileSystem) : result FileSystem :=
  if String.eqb name "" then raise (FileNotFoundError name)
  else if exists_ fs name then raise (FileExistsError name)
  else
    let parent := dirname name in
    if String.eqb parent "" || isdir fs parent then
      inr (dict_setitem fs name Directory)
    else if exists_ fs parent then raise (NotADirectoryError name)
    else raise (FileNotFoundError name).

(** [os.makedirs(name, exist_ok=True)], as CPython writes it: the missing
    ancestors first, then the leaf; an error of [mkdir] is swallowed when
    the directory is there already.  [fuel] bounds the recursion on the
    ever shorter head. *)
Fixpoint makedirs_fuel (fuel : nat) (name : string) (fs : FileSystem)
    : result FileSystem :=
  let '(head, tail) := split name in
  let '(head, tail) := if String.eqb tail "" then split head else (head, tail) in
  let leaf (fs : FileSystem) : result FileSystem :=
    match mkdir name fs with
    | inr fs' => inr fs'
    | inl e => if isdir fs name then inr fs else inl e
    end in
  if negb (String.eqb head "") && negb (String.eqb tail "")
     && negb (exists_ fs head) then
    match fuel with
    | O => raise (RuntimeError "maximum recursion depth exceeded")
    | S fuel' =>
        match makedirs_fuel fuel' head fs with
        | inl (FileExistsError _) => if String.eqb tail "." then inr fs else leaf fs
        | inl e => inl e
        | inr fs' => if String.eqb tail "." then inr fs' else leaf fs'
        end
    end
  else leaf fs.

Definition makedirs (name : string) (fs : FileSystem) : result FileSystem :=
  makedirs_fuel (String.length name) name fs.

(** [torch.save(obj, path)]: the file is opened for writing in its
    directory, which must exist. *)
Definition torch_save (obj : dict (Tensor E)) (path : string) (fs : FileSystem)
    : result FileSystem :=
  if String.eqb path "" then raise (FileNotFoundError path)
  else if isdir fs path then raise (IsADirectoryError path)
  else
    let parent := dirname path in
    if String.eqb parent "" || isdir fs parent then
      inr (dict_setitem fs path (File obj))
    else raise (FileNotFoundError path).

(** Modelled from the spec: [utils.torch_load], which task_vectors.py
    imports and this source tree does not contain; it "deserializes the
    mapping back" from the file at [path]. *)
Definition torch_load (path : string) (fs : FileSystem) : result (dict (Tensor E)) :=
  match dict_get fs path with
  | Some (File content) => inr content
  | Some Directory => raise (IsADirectoryError path)
  | None => raise (FileNotFoundError path)
  end.

(** [save_vector]: what it prints, and the file system it leaves or the
    exception it raises *)
Definition save_vector (self : TaskVector.t (E := E)) (path : string)
    (fs : FileSystem) : list string * result FileSystem :=
  (["Saving task vector to " +:+ path],
   fs ← makedirs (dirname path) fs;
   torch_save (TaskVector.vector self) path fs).

Definition load_vector (path : string) (fs : FileSystem)
    : list string * result (TaskVector.t (E := E)) :=
  (["Loading task vector from " +:+ path],
   vector ← torch_load path fs;
   TaskVector.__init__ None None (Some vector)).

End Files.
End Persistence.

(** ** arithmetic.py: the sum of task vectors

    [sum([TaskVector(...) for ...])] adds the vectors from the left,
    starting from the int 0; [__radd__] is there for the first step. *)

Module Arithmetic.
Section Sum.
Context {E : Type} `{Scalar E}.

(** [left + right] with a task vector on the right, as Python dispatches
    it: a task vector on the left answers with its [__add__]; [None] and
    an int cannot add a task vector, so [right.__radd__(left)] is called. *)
Definition py_add (left : TaskVector.radd_operand (E := E))
    (right : TaskVector.t (E := E))
    : result (TaskVector.t (E := E) * list string) :=
  match left with
  | TaskVector.PyTaskVector l => TaskVector.__add__ l right
  | _ => TaskVector.__radd__ right left
  end.

(** The loop of the builtin [sum]; [out] is what has been printed so far. *)
Fixpoint sum_loop (items : list (TaskVector.t (E := E)))
    (total : TaskVector.radd_operand (E := E)) (out : list string)
    : result (TaskVector.radd_operand (E := E) * list string) :=
  match items with
  | [] => inr (total, out)
  | item :: rest =>
      '(s, o) ← py_add total item;
      sum_loop rest (TaskVector.PyTaskVector s) (out ++ o)
  end.

(** [sum(items)] *)
Definition sum (items : list (TaskVector.t (E := E)))
    : result (TaskVector.radd_operand (E := E) * list string) :=
  sum_loop items (TaskVector.PyInt 0) [].

End Sum.
End Arithmetic.

(** ** delta.py: the wrapper [Linear] *)

Module Linear.
Section Wrapper.
Context {E : Type} `{Scalar E}.

(** [param.copy_(src)] in general: [src] is broadcast to the shape of
    [param] and converted to its dtype; a source that does not broadcast
    to that shape raises. *)
Definition copy_expand (param src : Tensor E) : result (Tensor E) :=
  if decide (broadcast_shapes (shape param) (shape src) = Some (shape param)) then
    inr {| dtype := dtype param;
           shape := shape param;
           data := (fun i =>
                      let x := broadcast_at src (shape param) i in
                      if decide (dtype src = dtype param) then x
                      else cast (dtype param) x)
                   <$> seq 0 (numel (shape param)) |}
  else raise (RuntimeError "The size of tensor a must match the size of tensor b").

(** [nn.Linear(in_features, out_features, bias)]: a weight of shape
    [(out_features, in_features)] and, with [bias], a bias of shape
    [(out_features)]; the values that its initialisation draws are
    inputs. *)
Definition nn_Linear (in_features out_features : nat) (bias : bool)
    (drawn_weight drawn_bias : list E) : Tensor E * option (Tensor E) :=
  (kaiming_uniform_ (empty [out_features; in_features]) drawn_weight,
   if bias then Some (mkTensor float32 [out_features] drawn_bias) else None).

(** [Linear(in_features, out_features, r, alpha, weight, bias)] for a
    tensor [weight]; [bias] is [None] when the argument is omitted.
    [self.Pre.bias] is [None] when no bias was given, and [None] has no
    [copy_].  [drawn] and [drawn'] are what the two calls of
    [reset_parameters] draw for [A]. *)
Definition __init__ (in_features out_features : nat) (r alpha : Z)
    (weight : Tensor E) (bias : option (Tensor E))
    (drawn_weight drawn_bias drawn drawn' : list E)
    : result (Delta.Linear (E := E)) :=
  let Pre := nn_Linear in_features out_features
               (match bias with Some _ => true | None => false end)
               drawn_weight drawn_bias in
  Pre_weight ← copy_expand Pre.1 weight;
  Pre_bias ← match Pre.2, bias with
             | Some p, Some b => copy_expand p b
             | _, _ => raise (AttributeError "copy_")
             end;
  Delta ← Delta.__init__ in_features out_features r alpha true drawn;
  Delta ← Delta.reset_parameters Delta drawn';
  inr (Delta.mkLinear Pre_weight Pre_bias Delta).

(** [self.Pre(inputs)], that is [F.linear(inputs, weight, bias)] *)
Definition Pre (self : Delta.Linear (E := E)) (inputs : Tensor E)
    : result (Tensor E) :=
  y ← linear inputs (Delta.Pre_weight self);
  tensor_add y (Delta.Pre_bias self).

Definition forward (self : Delta.Linear (E := E)) (inputs : Tensor E)
    : result (Tensor E) :=
  pre ← Pre self inputs;
  delta ← Delta.forward (Delta.Delta self) inputs;
  tensor_add pre delta.

End Wrapper.
End Linear.

(** ** orthogonal_finetune.py: [calculate_det] *)

(** [torch.linalg.det] of a matrix is computed by an elimination in
    floating point, which is outside [Scalar]: it is a parameter, and may
    raise (on a tensor that is not a square matrix). *)
Class Determinant (E : Type) : Type := {
  linalg_det : Tensor E -> result E
}.

(** [sub in s] for two strings *)
Definition str_contains (sub s : string) : bool :=
  match String.index 0 sub s with
  | Some _ => true
  | None => false
  end.

Module OrthogonalFinetune.
Section Det.
Context {E : Type} `{Scalar E} `{Determinant E}.

(** The loop over [state_dict.items()] *)
Fixpoint det_loop (items : list (string * Tensor E)) (total_det : E) (count : nat)
    : result (E * nat) :=
  match items with
  | [] => inr (total_det, count)
  | (name, param) :: rest =>
      if str_contains "Delta.U" name then
        d ← linalg_det param;
        det_loop rest (add total_det d) (count + 1)
      else det_loop rest total_det count
  end.

(** [total_det] starts as the float [0.0] and [count] as the int [0]. *)
Definition calculate_det (state_dict : dict (Tensor E)) : result E :=
  '(total_det, count) ← det_loop state_dict zero 0;
  if count =? 0 then raise ZeroDivisionError
  else inr (div total_det (of_int (Z.of_nat count))).

End Det.
End OrthogonalFinetune.

(** ** datasets/common.py *)

Module Common.

Section Batches.
Context {V : Type}.

(** A batch of a loader: a dict already, or a tuple or list of items *)
Inductive batch : Type :=
| BatchDict (d : dict V)
| BatchSeq (items : list V).

Definition maybe_dictionarize (b : batch) : result (dict V) :=
  match b with
  | BatchDict d => inr d
  | BatchSeq items =>
      match items with
      | [images; labels] => inr [("images", images); ("labels", labels)]
      | [images; labels; metadata] =>
          inr [("images", images); ("labels", labels); ("metadata", metadata)]
      | _ =>
          raise (ValueError ("Unexpected number of elements: "
                             +:+ pretty.pretty (length items)))
      end
  end.

End Batches.

(** What [get_features] may raise: the exception of an operation that it
    calls, or [UnboundLocalError] for a local variable that is read
    before any assignment to it has run. *)
Inductive error : Type :=
| Raised (e : exn)
| UnboundLocalError (name : string).

(** What [get_features] calls: the attributes of the encoder and of the
    dataset, the extraction of the features, and the file system [World]
    with its cache files. *)
Class FeatureOps (Encoder Dataset Features World : Type) : Type := {
  (** [image_encoder.cache_dir] *)
  cache_dir : Encoder -> option string;
  (** [type(dataset).__name__] *)
  type_name : Dataset -> string;
  (** [glob.glob(pattern)] *)
  glob : string -> World -> list string;
  (** [os.path.splitext(os.path.basename(path))[0]] *)
  cache_name : string -> string;
  (** [torch.load(path)] *)
  torch_load : string -> World -> error + Features;
  (** [get_features_helper(image_encoder, loader, device)] on the train or
      the test loader of the dataset *)
  get_features_helper : Encoder -> Dataset -> bool -> World -> error + dict Features;
  (** [os.makedirs(path, exist_ok=True)] *)
  makedirs : string -> World -> error + World;
  (** [torch.save(val, path)] *)
  torch_save : Features -> string -> World -> error + World
}.

Section Features.
Context {Encoder Dataset Features World : Type}
  `{FeatureOps Encoder Dataset Features World}.

(** [for cached_file in cached_files: ... data[name] = torch.load(cached_file)] *)
Fixpoint load_loop (cached_files : list string) (data : dict Features) (w : World)
    : error + dict Features :=
  match cached_files with
  | [] => inr data
  | cached_file :: rest =>
      let name := cache_name cached_file in
      match torch_load cached_file w with
      | inl e => inl e
      | inr val => load_loop rest (dict_setitem data name val) w
      end
  end.

(** [for name, val in data.items(): torch.save(val, f"{cache_dir}/{name}.pt")] *)
Fixpoint save_loop (items : list (string * Features)) (cache_dir : string) (w : World)
    : World * option error :=
  match items with
  | [] => (w, None)
  | (name, val) :: rest =>
      match torch_save val (cache_dir +:+ "/" +:+ name +:+ ".pt") w with
      | inl e => (w, Some e)
      | inr w' => save_loop rest cache_dir w'
      end
  end.

(** [get_features(is_train, image_encoder, dataset, device)]: what it
    prints, the file system it leaves, and the features or the exception.
    The locals [cache_dir] and [cached_files] are assigned under the first
    [if] only; [None] stands for a local that is not bound. *)
Definition get_features (is_train : bool) (image_encoder : Encoder)
    (dataset : Dataset) (w : World)
    : list string * World * (error + dict Features) :=
  let split := if is_train then "train" else "val" in
  let dname := type_name dataset in
  let local_cache_dir :=
    (fun d => d +:+ "/" +:+ dname +:+ "/" +:+ split) <$> cache_dir image_encoder in
  let local_cached_files :=
    (fun c => glob (c +:+ "/*") w) <$> local_cache_dir in
  let cached :=
    match cache_dir image_encoder, local_cached_files with
    | Some _, Some files => 0 <? length files
    | _, _ => false
    end in
  if cached then
    match local_cache_dir, local_cached_files with
    | Some c, Some files =>
        (["Getting features from " +:+ c], w, load_loop files [] w)
    | None, _ => ([], w, inl (UnboundLocalError "cache_dir"))
    | _, None => ([], w, inl (UnboundLocalError "cached_files"))
    end
  else
    match local_cache_dir with
    | None => ([], w, inl (UnboundLocalError "cache_dir"))
    | Some c =>
        let out := ["Did not find cached features at " +:+ c
                    +:+ ". Building from scratch."] in
        match get_features_helper image_encoder dataset is_train w with
        | inl e => (out, w, inl e)
        | inr data =>
            match cache_dir image_encoder with
            | None =>
                (out ++ ["Not caching because no cache directory was passed."],
                 w, inr data)
            | Some _ =>
                match makedirs c w with
                | inl e => (out, w, inl e)
                | inr w1 =>
                    let out := out ++ ["Caching data at " +:+ c] in
                    match save_loop data c w1 with
                    | (w2, Some e) => (out, w2, inl e)
                    | (w2, None) => (out, w2, inr data)
                    end
                end
            end
        end
    end.

End Features.
End Common.

(** ** Vocabulary of the statements *)

Section Vocabulary.
Context {E : Type} `{Scalar E}.

(** What [TaskVector.__init__] stores under [k], if anything *)
Definition delta_at (pre fin : dict (Tensor E)) (k : string) : option (Tensor E) :=
  match dict_get pre k with
  | None => None
  | Some p =>
      if bool_decide (dtype p ∈ [int64; uint8]) then None
      else match dict_get fin k with
           | None => None
           | Some f => match tensor_sub f p with inr d => Some d | inl _ => None end
           end
  end.

(** What [__add__] stores under [k], if anything *)
Definition sum_at (self other : dict (Tensor E)) (k : string) : option (Tensor E) :=
  match dict_get self k, dict_get other k with
  | Some x, Some y => match tensor_add x y with inr s => Some s | inl _ => None end
  | _, _ => None
  end.

(** What [apply_to] puts in [new_state_dict] under [k], if anything *)
Definition update_at (self psd : dict (Tensor E)) (c : E) (k : string)
    : option (Tensor E) :=
  match dict_get self k, dict_get psd k with
  | Some v, Some p =>
      match tensor_add p (scalar_mul c v) with inr s => Some s | inl _ => None end
  | _, _ => None
  end.

(** The value a parameter has after a non-strict load of tensors that fit *)
Definition loaded (sd : dict (Tensor E)) (entry : string * Tensor E)
    : string * Tensor E :=
  (entry.1, match dict_get sd entry.1 with
            | Some x => copy_ entry.2 x
            | None => entry.2
            end).

(** Every position of the list, also one past its end, reads zero. *)
Definition reads_zero (l : list E) : Prop := forall i, nth i l zero = zero.

(** The exception of the matrix products *)
Definition raises_RuntimeError {A : Type} (r : result A) : Prop :=
  exists msg, r = inl (RuntimeError msg).

(** [U.T @ U - I] *)
Definition gram_deviation (u : Tensor E) : result (Tensor E) :=
  UhU ← matmul (transpose u) u;
  n ← OrthLoss.getitem (shape UhU) 0;
  tensor_sub UhU (eye n).

Definition is_matrix (u : Tensor E) : Prop := exists m n, shape u = [m; n].

(** The rotation matrices of a block, in the order of the inner loop *)
Definition block_rotations (blk : OrthLoss.Attention (E := E))
    : list (option (Tensor E)) :=
  (fun p => Delta.U (Delta.Delta p)) <$>
    [OrthLoss.q_proj blk; OrthLoss.k_proj blk; OrthLoss.v_proj blk;
     OrthLoss.out_proj blk].

(** The rotation matrices that [OrthLoss.forward] visits, in order *)
Definition rotations (tr : OrthLoss.Transformer (E := E)) : list (option (Tensor E)) :=
  take (OrthLoss.layers tr) (OrthLoss.resblocks tr) ≫= block_rotations.

Definition valid_adjust_type (self : OrthLoss.t) : Prop :=
  OrthLoss.adjust_type self = "fro" \/ OrthLoss.adjust_type self = "spec".

End Vocabulary.

Section RegulariserVocabulary.
Context {E : Type} `{Scalar E} `{MatrixNorm E}.

(** The norm that a valid selector selects *)
Definition selected_norm (self : OrthLoss.t) : Tensor E -> E :=
  if String.eqb (OrthLoss.adjust_type self) "fro" then norm_fro else norm_spec.

(** One term of the loss, from the rotation attribute of a projection *)
Definition penalty (self : OrthLoss.t) (rot : option (Tensor E)) : result E :=
  u ← Delta.getattr "U" rot;
  UhU ← matmul (transpose u) u;
  n ← OrthLoss.getitem (shape UhU) 0;
  if String.eqb (OrthLoss.adjust_type self) "fro" then
    x ← tensor_sub UhU (eye n); inr (norm_fro x)
  else if String.eqb (OrthLoss.adjust_type self) "spec" then
    x ← tensor_sub UhU (eye n); inr (norm_spec x)
  else raise (ValueError ("Invalid adjust type: " +:+ OrthLoss.adjust_type self)).

(** The two loops of [OrthLoss.forward], over the rotation attributes *)
Fixpoint collect (self : OrthLoss.t) (rots : list (option (Tensor E)))
    (acc : list E) : result (list E) :=
  match rots with
  | [] => inr acc
  | rot :: rest => x ← penalty self rot; collect self rest (acc ++ [x])
  end.

End RegulariserVocabulary.

(** What an operation on the store may touch.  [framed n old m Q]: started
    in a heap whose first [n] cells are [old], the computation [m] ends
    (normally or by raising) in a heap whose first [n] cells are still
    [old]; the objects beyond refer only to objects beyond; and a returned
    value satisfies [Q]. *)

Section StoreVocabulary.
Context {E : Type} `{Scalar E}.

Definition closed_from (n : nat) (h : list (Store.object (E := E))) : Prop :=
  forall l o, n <= l -> h !! l = Some o -> Forall (fun r => n <= r) (Store.refs o).

Definition keeps (n : nat) (old : list (Store.object (E := E)))
    (s : Store.state (E := E)) : Prop :=
  n <= length (Store.heap s) /\ take n (Store.heap s) = old /\
  closed_from n (Store.heap s).

Definition framed {A : Type} (n : nat) (old : list (Store.object (E := E)))
    (m : Store.M A) (Q : A -> Prop) : Prop :=
  forall s, keeps n old s ->
    keeps n old (m s).2 /\ forall a, (m s).1 = inr a -> Q a.

(** What "a new object, operands unchanged" means for a run from [s]:
    every object of [s] is still there with the same contents, the address
    returned was not allocated in [s], and whatever was allocated refers
    to nothing of [s]. *)
Definition returns_new (s : Store.state (E := E))
    (run : result nat * Store.state (E := E)) : Prop :=
  (forall l o, Store.heap s !! l = Some o -> Store.heap run.2 !! l = Some o) /\
  (forall l, run.1 = inr l -> length (Store.heap s) <= l) /\
  closed_from (length (Store.heap s)) (Store.heap run.2).

(** How the store represents the values of the value-level embedding *)
Definition tensor_at (h : list (Store.object (E := E))) (l : nat) (t : Tensor E)
    : Prop :=
  h !! l = Some (Store.OTensor t).

Definition dict_at (h : list (Store.object (E := E))) (refs : dict nat)
    (d : dict (Tensor E)) : Prop :=
  Forall2 (fun r e => r.1 = e.1 /\ tensor_at h r.2 e.2) refs d.

Definition vector_at (h : list (Store.object (E := E))) (l : nat)
    (v : TaskVector.t (E := E)) : Prop :=
  exists dl refs, h !! l = Some (Store.OTaskVector dl) /\
                  h !! dl = Some (Store.ODict refs) /\
                  dict_at h refs (TaskVector.vector v).

Definition module_at (h : list (Store.object (E := E))) (l : nat)
    (m : dict (Tensor E)) : Prop :=
  exists params, h !! l = Some (Store.OModule params) /\ dict_at h params m.

End StoreVocabulary.

Section AlgebraVocabulary.
Context {E : Type} `{Scalar E}.

(** The sum so far under a key and the next tensor under it: a key stays
    only while every vector has it. *)
Definition add_at (acc y : option (Tensor E)) : option (Tensor E) :=
  match acc, y with
  | Some x, Some y => match tensor_add x y with inr s => Some s | inl _ => None end
  | _, _ => None
  end.

(** What a sum that starts with [first] under [k] holds under [k] after
    the vectors [rest], added from the left *)
Definition total_at (first : option (Tensor E)) (rest : list (TaskVector.t (E := E)))
    (k : string) : option (Tensor E) :=
  foldl (fun acc u => add_at acc (dict_get (TaskVector.vector u) k)) first rest.

(** A layer of [n] features in and out whose parameters have the shapes
    and the dtype that [__init__] gives them; their values are arbitrary,
    as after training. *)
Definition square_layer (n : nat) (l : Delta.LoRALayer (E := E)) : Prop :=
  Delta.in_features l = n /\ Delta.out_features l = n /\
  (exists u, Delta.U l = Some u /\ shape u = [n; n] /\ dtype u = float32) /\
  if (0 <? Delta.r l)%Z then
    exists a b k, Delta.A l = Some a /\ Delta.B l = Some b /\
                  shape a = [k; n] /\ shape b = [n; k] /\
                  dtype a = float32 /\ dtype b = float32
  else
    (exists d, Delta.D l = Some d /\ shape d = [n; n] /\ dtype d = float32) /\
    (Delta.bias l = true ->
     exists v, Delta.b l = Some v /\ shape v = [n] /\ dtype v = float32).

End AlgebraVocabulary.

Section PersistenceVocabulary.
Context {E : Type} `{Scalar E}.


End PersistenceVocabulary.

Section PersistenceTree.
Context {E : Type} `{Scalar E}.


End PersistenceTree.

(** ** Integer scalars, for closed examples *)

#[global] Instance Z_Scalar : Scalar Z := {|
  zero := 0%Z; one := 1%Z;
  add := Z.add; sub := Z.sub; mul := Z.mul; div := Z.div; neg := Z.opp;
  of_int := fun z => z;
  cast := fun _ z => z
|}.

(** Tensors of the default dtype over the integers *)
Definition ztensor (s : list nat) (d : list Z) : Tensor Z := mkTensor float32 s d.

(** Integer stand-ins for the two matrix norms, to run closed examples:
    the sum and the largest of the absolute values of the entries. *)
#[global] Instance Z_MatrixNorm : MatrixNorm Z := {|
  norm_fro := fun t => foldr Z.add 0%Z (Z.abs <$> data t);
  norm_spec := fun t => foldr Z.max 0%Z (Z.abs <$> data t)
|}.

(** An integer stand-in for the determinant, to run closed examples: the
    determinant of a matrix of one or two rows *)
#[global] Instance Z_Determinant : Determinant Z := {|
  linalg_det := fun t =>
    match shape t, data t with
    | [1; 1], [a] => inr a
    | [2; 2], [a; b; c; d] => inr (a * d - b * c)%Z
    | _, _ => raise (RuntimeError "linalg.det: A must be batches of square matrices")
    end
|}.

(** A projection whose rotation matrix is [u] *)
Definition zproj (u : Tensor Z) : Delta.Linear (E := Z) :=
  Delta.mkLinear (ztensor [2; 2] [1; 2; 3; 4]%Z) (ztensor [2] [0; 0]%Z)
    (Delta.mkLoRALayer 2 2 0 0 true None None
       (Some (ztensor [2; 2] [0; 0; 0; 0]%Z)) (Some (ztensor [2] [0; 0]%Z))
       (Some u)).

(** A one-layer encoder: three identity rotations and one that is not
    orthogonal *)
Definition zencoder : OrthLoss.Transformer (E := Z) :=
  OrthLoss.mkTransformer 1
    [OrthLoss.mkAttention
       (zproj (ztensor [2; 2] [1; 0; 0; 1]%Z))
       (zproj (ztensor [2; 2] [1; 0; 0; 1]%Z))
       (zproj (ztensor [2; 2] [1; 0; 0; 1]%Z))
       (zproj (ztensor [2; 2] [1; 2; 0; 1]%Z))].

(** Two task vectors that share the key [w], and a checkpoint with an
    integer buffer *)
Definition zvector_a : TaskVector.t (E := Z) :=
  TaskVector.mk [("w", ztensor [2] [1; 2]%Z); ("only_a", ztensor [1] [5]%Z)].

Definition zvector_b : TaskVector.t (E := Z) :=
  TaskVector.mk [("w", ztensor [2] [10; 20]%Z); ("only_b", ztensor [1] [7]%Z)].

Definition zbase : dict (Tensor Z) :=
  [("w", ztensor [2] [100; 200]%Z); ("steps", mkTensor int64 [] [9]%Z)].

(** A pretrained and a fine-tuned checkpoint with a weight and an integer
    counter *)
Definition zpretrained : dict (Tensor Z) :=
  [("weight", ztensor [2] [1; 2]%Z); ("num_batches_tracked", mkTensor int64 [] [5]%Z)].

Definition zfinetuned : dict (Tensor Z) :=
  [("weight", ztensor [2] [11; 22]%Z); ("num_batches_tracked", mkTensor int64 [] [8]%Z)].

(** A square low-rank layer after training: no parameter is zero *)
Definition ztrained : Delta.LoRALayer (E := Z) :=
  Delta.mkLoRALayer 2 2 1 4 true
    (Some (ztensor [1; 2] [5; 6]%Z)) (Some (ztensor [2; 1] [7; 8]%Z)) None None
    (Some (ztensor [2; 2] [1; 2; 3; 4]%Z)).

(** An encoder without a cache directory, for a closed example: nothing
    is cached and nothing is extracted. *)
#[global] Instance no_cache_FeatureOps : Common.FeatureOps unit unit Z unit := {|
  Common.cache_dir := fun _ => None;
  Common.type_name := fun _ => "DTD";
  Common.glob := fun _ _ => [];
  Common.cache_name := fun path => path;
  Common.torch_load := fun path _ => inl (Common.Raised (FileNotFoundError path));
  Common.get_features_helper := fun _ _ _ _ => inr [];
  Common.makedirs := fun _ w => inr w;
  Common.torch_save := fun _ _ w => inr w
|}.

(** * Properties *)

#[global] Instance Z_ZeroLaws : ZeroLaws Z.
Proof.
  split; simpl; intros.
  - reflexivity.
  - reflexivity.
  - apply Z.mul_0_r.
  - destruct x; reflexivity.
Qed.

(** ** Dictionaries *)

Section DictFacts.
Context {V : Type}.
Implicit Types (d : dict V) (k : string) (v : V).

Lemma dict_get_setitem_eq d k v : dict_get (dict_setitem d k v) k = Some v.
Proof.
  induction d as [|[k' w] d IH]; simpl.
  - by rewrite String.eqb_refl.
  - destruct (String.eqb k k') eqn:Hk; simpl; rewrite Hk; [done | exact IH].
Qed.

Lemma dict_get_setitem_ne d k k' v :
  k ≠ k' -> dict_get (dict_setitem d k v) k' = dict_get d k'.
Proof.
  intros Hne. induction d as [|[k0 w] d IH]; simpl.
  - destruct (String.eqb_spec k' k); [congruence | done].
  - destruct (String.eqb_spec k k0) as [->|Hk]; simpl.
    + destruct (String.eqb_spec k' k0); [congruence | done].
    + destruct (String.eqb_spec k' k0); [done | exact IH].
Qed.


Lemma dict_get_None d k : dict_get d k = None <-> k ∉ dict_keys d.
Proof.
  unfold dict_keys. induction d as [|[k0 w] d IH].
  - split; [intros _; apply not_elem_of_nil | done].
  - rewrite fmap_cons. cbn [dict_get fst].
    destruct (String.eqb_spec k k0) as [->|Hk].
    + split; [done | intros Hn; exfalso; apply Hn, list_elem_of_here].
    + split.
      * intros Hd Hin. apply elem_of_cons in Hin as [?|Hin]; [done|].
        by apply IH in Hd.
      * intros Hn. apply IH. intros Hin. apply Hn, list_elem_of_further, Hin.
Qed.

Lemma dict_get_is_Some d k : is_Some (dict_get d k) <-> k ∈ dict_keys d.
Proof.
  rewrite <- not_eq_None_Some, dict_get_None.
  destruct (decide (k ∈ dict_keys d)); tauto.
Qed.

Lemma dict_get_elem_NoDup d k v :
  NoDup (dict_keys d) -> (k, v) ∈ d -> dict_get d k = Some v.
Proof.
  unfold dict_keys. induction d as [|[k0 w] d IH]; simpl.
  - intros _ Hin. by apply elem_of_nil in Hin.
  - rewrite list.NoDup_cons. intros [Hk0 Hnd] Hin.
    apply elem_of_cons in Hin as [[= -> ->]|Hin].
    + by rewrite String.eqb_refl.
    + destruct (String.eqb_spec k k0) as [->|Hk]; [|by apply IH].
      exfalso. apply Hk0. apply list_elem_of_fmap. by exists (k0, v).
Qed.

Lemma dict_getitem_Some d k v : dict_get d k = Some v -> dict_getitem d k = inr v.
Proof. unfold dict_getitem. by intros ->. Qed.

Lemma dict_getitem_None d k : dict_get d k = None -> dict_getitem d k = inl (KeyError k).
Proof. unfold dict_getitem. by intros ->. Qed.

Lemma dict_contains_true d k : dict_contains d k = true <-> is_Some (dict_get d k).
Proof.
  unfold dict_contains. destruct (dict_get d k); split; done.
Qed.

Lemma dict_contains_false d k : dict_contains d k = false <-> dict_get d k = None.
Proof. unfold dict_contains. by destruct (dict_get d k). Qed.

End DictFacts.

(** ** Broadcasting *)

Lemma broadcast_rev_refl (s : list nat) : broadcast_rev s s = Some s.
Proof.
  induction s as [|d s IH]; simpl; [done|].
  by rewrite IH, Nat.eqb_refl.
Qed.

Lemma broadcast_shapes_refl (s : list nat) : broadcast_shapes s s = Some s.
Proof.
  unfold broadcast_shapes. rewrite broadcast_rev_refl. simpl.
  by rewrite reverse_involutive.
Qed.

Section TensorFacts.
Context {E : Type} `{Scalar E}.
Implicit Types (a b t : Tensor E).

Lemma binary_op_defined f a b :
  is_Some (broadcast_shapes (shape a) (shape b)) ->
  exists c, binary_op f a b = inr c /\
            broadcast_shapes (shape a) (shape b) = Some (shape c) /\
            dtype c = result_type a b.
Proof.
  intros [s Hs]. unfold binary_op. rewrite Hs. eexists. split; [done|]. by simpl.
Qed.


Lemma binary_op_shape f a b c :
  binary_op f a b = inr c ->
  broadcast_shapes (shape a) (shape b) = Some (shape c).
Proof.
  unfold binary_op. destruct (broadcast_shapes _ _); [|done].
  by intros [= <-].
Qed.

End TensorFacts.

(** ** Task vectors: construction *)

Section ConstructFacts.
Context {E : Type} `{Scalar E}.
Implicit Types (pre fin vec : dict (Tensor E)) (k : string).

Lemma init_loop_lookup pre fin keys vec :
  (forall k, k ∈ keys -> is_Some (dict_get pre k)) ->
  (forall k p, k ∈ keys -> dict_get pre k = Some p -> dtype p ∉ [int64; uint8] ->
     exists f, dict_get fin k = Some f /\
               is_Some (broadcast_shapes (shape f) (shape p))) ->
  exists v, TaskVector.init_loop keys pre fin vec = inr v /\
    forall k, dict_get v k =
              if decide (k ∈ keys) then
                match delta_at pre fin k with
                | Some d => Some d
                | None => dict_get vec k
                end
              else dict_get vec k.
Proof.
  revert vec. induction keys as [|key rest IH]; intros vec Hpre Hfin.
  - exists vec. split; [done|]. intros k. rewrite decide_False; [done|].
    apply not_elem_of_nil.
  - cbn [TaskVector.init_loop].
    destruct (Hpre key) as [p Hp]; [apply list_elem_of_here|].
    rewrite (dict_getitem_Some _ _ _ Hp). cbn [mbind result_bind].
    assert (Hpre' : forall k, k ∈ rest -> is_Some (dict_get pre k)).
    { intros k Hk. apply Hpre. by apply list_elem_of_further. }
    assert (Hfin' : forall k q, k ∈ rest -> dict_get pre k = Some q ->
               dtype q ∉ [int64; uint8] ->
               exists f, dict_get fin k = Some f /\
                         is_Some (broadcast_shapes (shape f) (shape q))).
    { intros k q Hk. apply Hfin. by apply list_elem_of_further. }
    case_bool_decide as Hex.
    + destruct (IH vec Hpre' Hfin') as (v & Hv & Hget).
      exists v. split; [done|]. intros k. rewrite Hget.
      destruct (decide (k = key)) as [->|Hne].
      * rewrite (decide_True (P := key ∈ key :: rest)) by apply list_elem_of_here.
        unfold delta_at. rewrite Hp, bool_decide_eq_true_2 by done.
        by destruct (decide (key ∈ rest)).
      * destruct (decide (k ∈ rest)) as [Hin|Hnin].
        -- rewrite decide_True; [done|]. by apply list_elem_of_further.
        -- rewrite decide_False; [done|].
           intros Hin. apply elem_of_cons in Hin as [?|?]; done.
    + destruct (Hfin key p) as (f & Hf & Hbc); [apply list_elem_of_here|done..|].
      destruct (binary_op_defined sub f p Hbc) as (d & Hd & _).
      rewrite (dict_getitem_Some _ _ _ Hf). cbn [mbind result_bind].
      unfold tensor_sub. rewrite Hd. cbn [mbind result_bind].
      destruct (IH (dict_setitem vec key d) Hpre' Hfin') as (v & Hv & Hget).
      exists v. split; [done|]. intros k. rewrite Hget.
      destruct (decide (k = key)) as [->|Hne].
      * rewrite (decide_True (P := key ∈ key :: rest)) by apply list_elem_of_here.
        unfold delta_at. rewrite Hp, bool_decide_eq_false_2, Hf by done.
        unfold tensor_sub. rewrite Hd, dict_get_setitem_eq.
        by destruct (decide (key ∈ rest)).
      * rewrite dict_get_setitem_ne by done.
        destruct (decide (k ∈ rest)) as [Hin|Hnin].
        -- rewrite decide_True; [done|]. by apply list_elem_of_further.
        -- rewrite decide_False; [done|].
           intros Hin. apply elem_of_cons in Hin as [?|?]; done.
Qed.

(** X1.  What [TaskVector(pretrained, finetuned)] holds: the difference for
    every key of the pretrained map whose dtype is neither [torch.int64]
    nor [torch.uint8], and nothing else. *)
Lemma construct_spec (pre fin : TaskVector.Module) :
  (forall k p, dict_get pre k = Some p -> dtype p ∉ [int64; uint8] ->
     exists f, dict_get fin k = Some f /\
               is_Some (broadcast_shapes (shape f) (shape p))) ->
  exists v, TaskVector.construct pre fin = inr v /\
    (forall k p, dict_get pre k = Some p -> dtype p ∉ [int64; uint8] ->
       exists f d, dict_get fin k = Some f /\ tensor_sub f p = inr d /\
                   dict_get (TaskVector.vector v) k = Some d) /\
    (forall k p, dict_get pre k = Some p -> dtype p ∈ [int64; uint8] ->
       dict_get (TaskVector.vector v) k = None) /\
    (forall k, dict_get pre k = None -> dict_get (TaskVector.vector v) k = None).
Proof.
  intros Hfin.
  destruct (init_loop_lookup pre fin (dict_keys pre) []) as (v & Hv & Hget).
  { intros k Hk. by apply dict_get_is_Some. }
  { intros k p _. apply Hfin. }
  exists (TaskVector.mk v). split.
  { unfold TaskVector.construct, TaskVector.__init__, TaskVector.state_dict.
    by rewrite Hv. }
  assert (Hlook : forall k, dict_get v k = delta_at pre fin k).
  { intros k. rewrite Hget. destruct (decide (k ∈ dict_keys pre)) as [Hin|Hnin].
    - by destruct (delta_at pre fin k).
    - apply dict_get_None in Hnin. unfold delta_at. by rewrite Hnin. }
  cbn [TaskVector.vector]. split; [|split].
  - intros k p Hp Hd. destruct (Hfin k p Hp Hd) as (f & Hf & Hbc).
    destruct (binary_op_defined sub f p Hbc) as (d & Hsub & _).
    exists f, d. split; [done|]. split; [done|].
    rewrite Hlook. unfold delta_at.
    rewrite Hp, bool_decide_eq_false_2, Hf by done.
    unfold tensor_sub. by rewrite Hsub.
  - intros k p Hp Hd. rewrite Hlook. unfold delta_at.
    by rewrite Hp, bool_decide_eq_true_2.
  - intros k Hp. rewrite Hlook. unfold delta_at. by rewrite Hp.
Qed.

End ConstructFacts.

(** ** Task vectors: addition *)

Section AddFacts.
Context {E : Type} `{Scalar E}.
Implicit Types (self other new : dict (Tensor E)) (k : string).

Lemma add_loop_lookup self other keys new out :
  (forall k, k ∈ keys -> is_Some (dict_get self k)) ->
  (forall k x y, k ∈ keys -> dict_get self k = Some x -> dict_get other k = Some y ->
     is_Some (broadcast_shapes (shape x) (shape y))) ->
  exists v,
    TaskVector.add_loop keys self other new out =
      inr (v, (out ++ (TaskVector.add_warning <$>
                         filter (fun k => dict_contains other k = false) keys))%list) /\
    forall k, dict_get v k =
              if decide (k ∈ keys) then
                match sum_at self other k with
                | Some s => Some s
                | None => dict_get new k
                end
              else dict_get new k.
Proof.
  revert new out. induction keys as [|key rest IH]; intros new out Hself Hbc.
  - exists new. split.
    + cbn. by rewrite app_nil_r.
    + intros k. rewrite decide_False; [done|]. apply not_elem_of_nil.
  - cbn [TaskVector.add_loop].
    assert (Hself' : forall k, k ∈ rest -> is_Some (dict_get self k)).
    { intros k Hk. apply Hself. by apply list_elem_of_further. }
    assert (Hbc' : forall k x y, k ∈ rest -> dict_get self k = Some x ->
               dict_get other k = Some y ->
               is_Some (broadcast_shapes (shape x) (shape y))).
    { intros k x y Hk. apply Hbc. by apply list_elem_of_further. }
    destruct (dict_contains other key) eqn:Hc; cbn [negb].
    + apply dict_contains_true in Hc as [y Hy].
      destruct (Hself key) as [x Hx]; [apply list_elem_of_here|].
      destruct (binary_op_defined add x y) as (s & Hs & _).
      { apply (Hbc key); [apply list_elem_of_here|done..]. }
      rewrite (dict_getitem_Some _ _ _ Hx), (dict_getitem_Some _ _ _ Hy).
      cbn [mbind result_bind]. unfold tensor_add. rewrite Hs.
      cbn [mbind result_bind].
      destruct (IH (dict_setitem new key s) out Hself' Hbc') as (v & Hv & Hget).
      exists v. split.
      { rewrite Hv. rewrite filter_cons_False; [done|].
        unfold dict_contains. by rewrite Hy. }
      intros k. rewrite Hget. destruct (decide (k = key)) as [->|Hne].
      * rewrite (decide_True (P := key ∈ key :: rest)) by apply list_elem_of_here.
        unfold sum_at. rewrite Hx, Hy. unfold tensor_add. rewrite Hs.
        rewrite dict_get_setitem_eq. by destruct (decide (key ∈ rest)).
      * rewrite dict_get_setitem_ne by done.
        destruct (decide (k ∈ rest)) as [Hin|Hnin].
        -- rewrite decide_True; [done|]. by apply list_elem_of_further.
        -- rewrite decide_False; [done|].
           intros Hin. apply elem_of_cons in Hin as [?|?]; done.
    + destruct (IH new (out ++ [TaskVector.add_warning key]) Hself' Hbc')
        as (v & Hv & Hget).
      exists v. split.
      { rewrite Hv. rewrite filter_cons_True by done.
        by rewrite fmap_cons, <- app_assoc. }
      intros k. rewrite Hget. destruct (decide (k = key)) as [->|Hne].
      * rewrite (decide_True (P := key ∈ key :: rest)) by apply list_elem_of_here.
        apply dict_contains_false in Hc.
        unfold sum_at. rewrite Hc.
        destruct (dict_get self key); by destruct (decide (key ∈ rest)).
      * destruct (decide (k ∈ rest)) as [Hin|Hnin].
        -- rewrite decide_True; [done|]. by apply list_elem_of_further.
        -- rewrite decide_False; [done|].
           intros Hin. apply elem_of_cons in Hin as [?|?]; done.
Qed.

End AddFacts.

(** ** Task vectors: application to a checkpoint *)

Section ApplyFacts.
Context {E : Type} `{Scalar E}.
Implicit Types (self psd new sd : dict (Tensor E)) (k : string) (c : E).

Lemma apply_loop_lookup self psd c keys new out :
  (forall k, k ∈ keys -> is_Some (dict_get psd k)) ->
  (forall k p v, k ∈ keys -> dict_get psd k = Some p -> dict_get self k = Some v ->
     is_Some (broadcast_shapes (shape p) (shape v))) ->
  exists d,
    TaskVector.apply_loop keys self psd c new out =
      inr (d, out ++ (TaskVector.apply_warning <$>
                        filter (fun k => dict_contains self k = false) keys)) /\
    forall k, dict_get d k =
              if decide (k ∈ keys) then
                match update_at self psd c k with
                | Some s => Some s
                | None => dict_get new k
                end
              else dict_get new k.
Proof.
  revert new out. induction keys as [|key rest IH]; intros new out Hpsd Hbc.
  - exists new. split.
    + cbn. by rewrite app_nil_r.
    + intros k. rewrite decide_False; [done|]. apply not_elem_of_nil.
  - cbn [TaskVector.apply_loop].
    assert (Hpsd' : forall k, k ∈ rest -> is_Some (dict_get psd k)).
    { intros k Hk. apply Hpsd. by apply list_elem_of_further. }
    assert (Hbc' : forall k p v, k ∈ rest -> dict_get psd k = Some p ->
               dict_get self k = Some v ->
               is_Some (broadcast_shapes (shape p) (shape v))).
    { intros k p v Hk. apply Hbc. by apply list_elem_of_further. }
    destruct (dict_contains self key) eqn:Hc; cbn [negb].
    + apply dict_contains_true in Hc as [v Hv].
      destruct (Hpsd key) as [p Hp]; [apply list_elem_of_here|].
      destruct (binary_op_defined add p (scalar_mul c v)) as (s & Hs & _).
      { change (shape (scalar_mul c v)) with (shape v).
        apply (Hbc key); [apply list_elem_of_here|done..]. }
      rewrite (dict_getitem_Some _ _ _ Hp), (dict_getitem_Some _ _ _ Hv).
      cbn [mbind result_bind]. unfold tensor_add. rewrite Hs.
      cbn [mbind result_bind].
      destruct (IH (dict_setitem new key s) out Hpsd' Hbc') as (d & Hd & Hget).
      exists d. split.
      { rewrite Hd. rewrite filter_cons_False; [done|].
        unfold dict_contains. by rewrite Hv. }
      intros k. rewrite Hget. destruct (decide (k = key)) as [->|Hne].
      * rewrite (decide_True (P := key ∈ key :: rest)) by apply list_elem_of_here.
        unfold update_at. rewrite Hv, Hp. unfold tensor_add. rewrite Hs.
        rewrite dict_get_setitem_eq. by destruct (decide (key ∈ rest)).
      * rewrite dict_get_setitem_ne by done.
        destruct (decide (k ∈ rest)) as [Hin|Hnin].
        -- rewrite decide_True; [done|]. by apply list_elem_of_further.
        -- rewrite decide_False; [done|].
           intros Hin. apply elem_of_cons in Hin as [?|?]; done.
    + destruct (IH new (out ++ [TaskVector.apply_warning key]) Hpsd' Hbc')
        as (d & Hd & Hget).
      exists d. split.
      { rewrite Hd. rewrite filter_cons_True by done.
        by rewrite fmap_cons, <- app_assoc. }
      intros k. rewrite Hget. destruct (decide (k = key)) as [->|Hne].
      * rewrite (decide_True (P := key ∈ key :: rest)) by apply list_elem_of_here.
        apply dict_contains_false in Hc.
        unfold update_at. rewrite Hc. by destruct (decide (key ∈ rest)).
      * destruct (decide (k ∈ rest)) as [Hin|Hnin].
        -- rewrite decide_True; [done|]. by apply list_elem_of_further.
        -- rewrite decide_False; [done|].
           intros Hin. apply elem_of_cons in Hin as [?|?]; done.
Qed.

Lemma input_for_same_shape (param x : Tensor E) :
  shape x = shape param -> input_for param x = inr x.
Proof.
  intros Hs. unfold input_for. rewrite Hs.
  by destruct (shape param) as [|? [|? ?]].
Qed.


Lemma load_loop_fits (m : dict (Tensor E)) sd (msgs : list string) :
  (forall name param x, (name, param) ∈ m -> dict_get sd name = Some x ->
     shape x = shape param) ->
  TaskVector.load_loop m sd msgs = inr (loaded sd <$> m, msgs).
Proof.
  induction m as [|[name param] m IH]; intros Hfit; [done|].
  assert (Hrest : TaskVector.load_loop m sd msgs = inr (loaded sd <$> m, msgs)).
  { apply IH. intros n p x Hin. apply Hfit. by apply list_elem_of_further. }
  cbn [TaskVector.load_loop]. rewrite fmap_cons.
  change (loaded sd (name, param))
    with (name, match dict_get sd name with
                | Some x => copy_ param x
                | None => param
                end).
  destruct (dict_get sd name) as [x|] eqn:Hx; [|by rewrite Hrest].
  assert (Hshape : shape x = shape param).
  { apply (Hfit name); [apply list_elem_of_here|done]. }
  rewrite (input_for_same_shape param x Hshape). cbn [mbind result_bind].
  by rewrite decide_True, Hrest.
Qed.

Lemma load_state_dict_fits (m : dict (Tensor E)) sd :
  (forall name param x, (name, param) ∈ m -> dict_get sd name = Some x ->
     shape x = shape param) ->
  TaskVector.load_state_dict m sd = inr (loaded sd <$> m).
Proof.
  intros Hfit. unfold TaskVector.load_state_dict.
  by rewrite (load_loop_fits m sd [] Hfit).
Qed.



Lemma dict_keys_loaded (m : dict (Tensor E)) sd :
  dict_keys (loaded sd <$> m) = dict_keys m.
Proof.
  unfold dict_keys. rewrite <- list_fmap_compose. by apply list_fmap_ext.
Qed.

Lemma dict_get_loaded (m : dict (Tensor E)) sd k :
  dict_get (loaded sd <$> m) k =
  (fun p => match dict_get sd k with Some x => copy_ p x | None => p end)
    <$> dict_get m k.
Proof.
  induction m as [|[n p] m IH]; [done|].
  rewrite fmap_cons. cbn [dict_get loaded fst snd].
  destruct (String.eqb_spec k n) as [->|Hne]; [done | exact IH].
Qed.

Lemma copy__same (p s : Tensor E) :
  shape s = shape p -> dtype s = dtype p -> copy_ p s = s.
Proof.
  destruct p, s. cbn. intros -> ->. unfold copy_. cbn.
  by rewrite decide_True.
Qed.

(** Tensors of one shape and one floating-point dtype: the update is
    defined and fits the parameter. *)
Lemma compatible_update (p v : Tensor E) c :
  shape v = shape p -> dtype v = dtype p -> is_floating_point (dtype p) = true ->
  exists s, tensor_add p (scalar_mul c v) = inr s /\
            shape s = shape p /\ dtype s = dtype p.
Proof.
  intros Hs Hd Hf. unfold tensor_add, binary_op. cbn [shape scalar_mul dtype].
  rewrite Hs, broadcast_shapes_refl. eexists. split; [done|].
  cbn [shape dtype]. split; [done|]. unfold result_type. cbn [shape scalar_mul dtype].
  rewrite Hs, Hd, Hf.
  assert (Hp : promote_types (dtype p) (dtype p) = dtype p).
  { unfold promote_types. by rewrite decide_True. }
  by destruct (shape p).
Qed.

End ApplyFacts.

(** ** Shapes and zero matrices *)

Lemma numel_app (s1 s2 : list nat) : numel (s1 ++ s2) = numel s1 * numel s2.
Proof.
  unfold numel. induction s1 as [|d s1 IH]; simpl; [lia|]. rewrite IH. lia.
Qed.

Lemma numel_reverse (s : list nat) : numel (reverse s) = numel s.
Proof.
  induction s as [|d s IH]; [done|].
  rewrite reverse_cons, numel_app, IH. unfold numel. simpl. lia.
Qed.

Lemma broadcast_shapes_trailing (lead : list nat) (n : nat) :
  broadcast_shapes (lead ++ [n]) [n] = Some (lead ++ [n]).
Proof.
  unfold broadcast_shapes. rewrite reverse_snoc, reverse_singleton.
  cbn [broadcast_rev].
  assert (Hnil : broadcast_rev (reverse lead) [] = Some (reverse lead))
    by (by destruct (reverse lead)).
  rewrite Hnil, Nat.eqb_refl. cbn [fmap option_fmap option_map].
  by rewrite reverse_cons, reverse_involutive.
Qed.

Lemma bind_replicate {A B : Type} (f : A -> list B) (l : list A) (m : nat) (z : B) :
  (forall i, f i = replicate m z) -> l ≫= f = replicate (length l * m) z.
Proof.
  intros Hf. induction l as [|x l IH]; [done|].
  rewrite bind_cons, Hf, IH. cbn [length]. by rewrite <- replicate_add.
Qed.

Section ZeroFacts.
Context {E : Type} `{ZeroLaws E}.

Lemma reads_zero_replicate (n : nat) : reads_zero (replicate n zero).
Proof.
  intros i. revert i. induction n as [|n IH]; intros [|i]; simpl; auto.
Qed.

Lemma foldl_add_zero (l : list E) :
  (forall x, x ∈ l -> x = zero) -> foldl add zero l = zero.
Proof.
  induction l as [|x l IH]; intros Hl; [done|].
  cbn [foldl]. rewrite (Hl x) by apply list_elem_of_here.
  rewrite add_zero_zero. apply IH. intros y Hy. apply Hl.
  by apply list_elem_of_further.
Qed.

Lemma dot_zero_l (k : nat) (row col : nat -> E) :
  (forall l, row l = zero) -> dot k row col = zero.
Proof.
  intros Hrow. unfold dot. apply foldl_add_zero. intros x Hx.
  apply list_elem_of_fmap in Hx as (l & -> & _).
  rewrite Hrow. apply mul_zero_l.
Qed.

Lemma dot_zero_r (k : nat) (row col : nat -> E) :
  (forall l, col l = zero) -> dot k row col = zero.
Proof.
  intros Hcol. unfold dot. apply foldl_add_zero. intros x Hx.
  apply list_elem_of_fmap in Hx as (l & -> & _).
  rewrite Hcol. apply mul_zero_r.
Qed.

Lemma mm_data_zero_l (n k m : nat) (a b : list E) :
  reads_zero a -> mm_data n k m a b = replicate (n * m) zero.
Proof.
  intros Ha. unfold mm_data.
  rewrite (bind_replicate _ _ m zero).
  - by rewrite length_seq.
  - intros i. rewrite (bind_replicate _ _ 1 zero).
    + by rewrite length_seq, Nat.mul_1_r.
    + intros j. cbn. f_equal. apply dot_zero_l. intros l. apply Ha.
Qed.

Lemma mm_data_zero_r (n k m : nat) (a b : list E) :
  reads_zero b -> mm_data n k m a b = replicate (n * m) zero.
Proof.
  intros Hb. unfold mm_data.
  rewrite (bind_replicate _ _ m zero).
  - by rewrite length_seq.
  - intros i. rewrite (bind_replicate _ _ 1 zero).
    + by rewrite length_seq, Nat.mul_1_r.
    + intros j. cbn. f_equal. apply dot_zero_r. intros l. apply Hb.
Qed.

Lemma transpose_reads_zero (t : Tensor E) :
  reads_zero (data t) -> reads_zero (data (transpose t)).
Proof.
  intros Ht. unfold transpose.
  destruct (shape t) as [|n [|m [|? ?]]]; try done.
  cbn [data].
  rewrite (bind_replicate _ _ n zero).
  - apply reads_zero_replicate.
  - intros j. rewrite (bind_replicate _ _ 1 zero).
    + by rewrite length_seq, Nat.mul_1_r.
    + intros i. cbn. f_equal. apply Ht.
Qed.


End ZeroFacts.

(** ** The delta layer *)

Section DeltaFacts.
Context {E : Type} `{Scalar E}.

Lemma linear_defined (x w : Tensor E) (lead : list nat) (o i : nat) :
  shape w = [o; i] -> shape x = lead ++ [i] -> dtype x = dtype w ->
  linear x w =
    inr (mkTensor (dtype x) (lead ++ [o])
           (mm_data (numel lead) i o (data x) (data (transpose w)))).
Proof.
  intros Hw Hx Hd. unfold linear. rewrite Hw, Hx, reverse_snoc, Nat.eqb_refl.
  rewrite decide_True by done.
  by rewrite reverse_involutive, numel_reverse.
Qed.

Lemma linear_mismatch (x w : Tensor E) (lead : list nat) (o i j : nat) :
  shape w = [o; i] -> shape x = lead ++ [j] -> j <> i ->
  linear x w = shape_error.
Proof.
  intros Hw Hx Hne. unfold linear. rewrite Hw, Hx, reverse_snoc.
  apply Nat.eqb_neq in Hne. by rewrite Hne.
Qed.

(** A product, when defined, keeps the leading dimensions and the dtype of
    its input. *)
Lemma linear_inv (x w y : Tensor E) (o i : nat) :
  shape w = [o; i] -> linear x w = inr y ->
  exists lead, shape x = lead ++ [i] /\ shape y = lead ++ [o] /\
               dtype x = dtype w /\ dtype y = dtype w.
Proof.
  intros Hw. unfold linear. rewrite Hw.
  destruct (reverse (shape x)) as [|last lead] eqn:Hx; [done|].
  destruct (Nat.eqb_spec last i) as [->|]; [|done].
  destruct (decide (dtype x = dtype w)) as [Hd|]; [|done].
  intros [= <-]. exists (reverse lead). split; [|done].
  by rewrite <- (reverse_involutive (shape x)), Hx, reverse_cons.
Qed.

Lemma transpose_shape (t : Tensor E) (n m : nat) :
  shape t = [n; m] -> shape (transpose t) = [m; n].
Proof. intros Ht. unfold transpose. by rewrite Ht. Qed.

Lemma transpose_dtype (t : Tensor E) : dtype (transpose t) = dtype t.
Proof. unfold transpose. by destruct (shape t) as [|n [|m [|? ?]]]. Qed.

Lemma init_low_rank (i o : nat) (r alpha : Z) (bias : bool) (drawn : list E) :
  (0 < r)%Z ->
  Delta.__init__ i o r alpha bias drawn =
    inr (Delta.mkLoRALayer i o r alpha bias
           (Some (mkTensor float32 [Z.to_nat r; i] drawn))
           (Some (zeros [o; Z.to_nat r])) None None (Some (eye i))).
Proof.
  intros Hr. apply Z.ltb_lt in Hr. unfold Delta.__init__, Delta.reset_parameters.
  cbn. by rewrite Hr.
Qed.

Lemma init_dense (i o : nat) (r alpha : Z) (bias : bool) (drawn : list E) :
  (r <= 0)%Z ->
  Delta.__init__ i o r alpha bias drawn =
    inr (Delta.mkLoRALayer i o r alpha bias None None
           (Some (zeros [i; o]))
           (if bias then Some (zeros [o]) else None) (Some (eye i))).
Proof.
  intros Hr. apply Z.ltb_ge in Hr. unfold Delta.__init__. rewrite Hr.
  by destruct bias.
Qed.

End DeltaFacts.

Section DeltaZero.
Context {E : Type} `{ZeroLaws E}.

Lemma linear_zero_weight (x w : Tensor E) (lead : list nat) (o i : nat) :
  shape w = [o; i] -> shape x = lead ++ [i] -> dtype x = dtype w ->
  reads_zero (data w) ->
  exists y, linear x w = inr y /\ shape y = lead ++ [o] /\ dtype y = dtype x /\
            data y = replicate (numel (lead ++ [o])) zero.
Proof.
  intros Hw Hx Hd Hz. rewrite (linear_defined x w lead o i Hw Hx Hd).
  eexists. split; [done|]. split; [done|]. split; [done|]. cbn [data].
  rewrite mm_data_zero_r by (by apply transpose_reads_zero).
  rewrite numel_app. unfold numel at 3. cbn. by rewrite Nat.mul_1_r.
Qed.

Lemma linear_zero_input (x w : Tensor E) (lead : list nat) (o i : nat) :
  shape w = [o; i] -> shape x = lead ++ [i] -> dtype x = dtype w ->
  reads_zero (data x) ->
  exists y, linear x w = inr y /\ shape y = lead ++ [o] /\ dtype y = dtype x /\
            data y = replicate (numel (lead ++ [o])) zero.
Proof.
  intros Hw Hx Hd Hz. rewrite (linear_defined x w lead o i Hw Hx Hd).
  eexists. split; [done|]. split; [done|]. split; [done|]. cbn [data].
  rewrite mm_data_zero_l by done.
  rewrite numel_app. unfold numel at 3. cbn. by rewrite Nat.mul_1_r.
Qed.

Lemma matmul_zero_l (a b : Tensor E) (n k m : nat) :
  shape a = [n; k] -> shape b = [k; m] -> dtype a = dtype b ->
  reads_zero (data a) ->
  exists c, matmul a b = inr c /\ shape c = [n; m] /\ dtype c = dtype a /\
            reads_zero (data c).
Proof.
  intros Ha Hb Hd Hz. unfold matmul. rewrite Ha, Hb, Nat.eqb_refl.
  rewrite decide_True by done.
  eexists. split; [done|]. split; [done|]. split; [done|]. cbn [data].
  rewrite mm_data_zero_l by done. apply reads_zero_replicate.
Qed.

End DeltaZero.

Section DeltaClaims.
Context {E : Type} `{Scalar E}.

(** The first product of [forward], by the identity-shaped [U]: it raises
    the shape error, or raises because the input has another dtype, or is
    defined. *)
Lemma first_product (x : Tensor E) (i : nat) :
  linear x (eye i) = shape_error \/
  (dtype x <> float32 /\ raises_RuntimeError (linear x (eye i))) \/
  exists xU lead, linear x (eye i) = inr xU /\ shape xU = lead ++ [i] /\
                  dtype xU = float32.
Proof.
  destruct (linear x (eye i)) as [e|xU] eqn:HxU.
  - revert HxU. unfold linear. cbn [shape dtype eye].
    destruct (reverse (shape x)) as [|last lead]; [by left|].
    destruct (last =? i); [|by left].
    destruct (decide (dtype x = float32)) as [|Hd]; [done|].
    intros [= <-]. right. left. split; [done|]. by eexists.
  - right. right.
    destruct (linear_inv x (eye i) xU i i eq_refl HxU) as (lead & _ & Hs & _ & Hd).
    by exists xU, lead.
Qed.

(** C10.  A layer constructed with [in_features <> out_features] cannot
    run: [__init__] succeeds, and [forward] raises the [RuntimeError] of
    the matrix product on every input, whatever its shape, in the low-rank
    mode ([r > 0]) as in the dense one, with or without bias.  On an input
    of the layer's dtype the error is the shape mismatch. *)
Theorem forward_requires_square
    (i o : nat) (r alpha : Z) (bias : bool) (drawn : list E) :
  i <> o ->
  exists l, Delta.__init__ i o r alpha bias drawn = inr l /\
            forall x, raises_RuntimeError (Delta.forward l x) /\
                      (dtype x = float32 -> Delta.forward l x = shape_error).
Proof.
  intros Hne.
  assert (Hcases : forall (x : Tensor E) (rest : Tensor E -> result (Tensor E)),
            (forall xU lead, shape xU = lead ++ [i] -> dtype xU = float32 ->
                             rest xU = shape_error) ->
            raises_RuntimeError (linear x (eye i) ≫= rest) /\
            (dtype x = float32 -> linear x (eye i) ≫= rest = shape_error)).
  { intros x rest Hrest.
    destruct (first_product x i)
      as [->|[[Hd [msg ->]]|(xU & lead & -> & Hs & Hd)]]; cbn [mbind result_bind].
    - split; [by eexists | done].
    - split; [by eexists | done].
    - rewrite (Hrest xU lead Hs Hd). split; [by eexists | done]. }
  destruct (Z.ltb_spec 0 r) as [Hr|Hr].
  - rewrite init_low_rank by done. eexists. split; [done|]. intros x.
    unfold Delta.forward. cbn [Delta.r Delta.U Delta.A Delta.B Delta.alpha].
    apply Z.ltb_lt in Hr. rewrite Hr. cbn [Delta.getattr mbind result_bind].
    apply Hcases. intros xU lead HxUs HxUd.
    unfold matmul at 1. cbn [shape dtype zeros]. rewrite Nat.eqb_refl.
    rewrite decide_True by done. cbn [mbind result_bind].
    erewrite (linear_defined xU _ lead o i); [|done|done|done].
    cbn [mbind result_bind].
    erewrite (linear_mismatch _ (transpose (eye i)) lead i i o);
      [done|done|done|]. by intros ->.
  - rewrite init_dense by done. eexists. split; [done|]. intros x.
    unfold Delta.forward. cbn [Delta.r Delta.U Delta.D Delta.b Delta.bias].
    apply Z.ltb_ge in Hr. rewrite Hr.
    destruct bias; cbn [Delta.getattr mbind result_bind]; apply Hcases;
      intros xU lead HxUs HxUd;
      by erewrite (linear_mismatch xU (zeros [i; o]) lead i o i).
Qed.

End DeltaClaims.

Section ZeroAtInit.
Context {E : Type} `{ZeroLaws E}.


End ZeroAtInit.

(** ** The orthogonality regulariser *)

Section OrthLossFacts.
Context {E : Type} `{Scalar E} `{MatrixNorm E}.
Implicit Types (self : OrthLoss.t) (tr : OrthLoss.Transformer (E := E)).

Lemma collect_app self rots1 rots2 acc :
  collect self (rots1 ++ rots2) acc =
  acc' ← collect self rots1 acc; collect self rots2 acc'.
Proof.
  revert acc. induction rots1 as [|rot rots1 IH]; intros acc; [done|].
  cbn [app collect]. destruct (penalty self rot); [done|].
  cbn [mbind result_bind]. apply IH.
Qed.

Lemma getitem_Some {V : Type} (l : list V) (i : nat) (v : V) :
  l !! i = Some v -> OrthLoss.getitem l i = inr v.
Proof. unfold OrthLoss.getitem. by intros ->. Qed.

Lemma term_penalty self tr i blk embed p :
  OrthLoss.resblocks tr !! i = Some blk ->
  OrthLoss.getattr_proj blk embed = inr p ->
  OrthLoss.term self tr i embed = penalty self (Delta.U (Delta.Delta p)).
Proof.
  intros Hblk Hp. unfold OrthLoss.term.
  rewrite (getitem_Some _ _ _ Hblk). cbn [mbind result_bind]. rewrite Hp. done.
Qed.

Lemma inner_loop_collect self tr i blk acc :
  OrthLoss.resblocks tr !! i = Some blk ->
  OrthLoss.inner_loop self tr i ["q"; "k"; "v"; "out"] acc =
  collect self (block_rotations blk) acc.
Proof.
  intros Hblk. unfold block_rotations. cbn [fmap list_fmap OrthLoss.inner_loop collect].
  rewrite (term_penalty self tr i blk "q" (OrthLoss.q_proj blk)) by done.
  destruct (penalty self _) as [|xq]; [done|]. cbn [mbind result_bind].
  rewrite (term_penalty self tr i blk "k" (OrthLoss.k_proj blk)) by done.
  destruct (penalty self _) as [|xk]; [done|]. cbn [mbind result_bind].
  rewrite (term_penalty self tr i blk "v" (OrthLoss.v_proj blk)) by done.
  destruct (penalty self _) as [|xv]; [done|]. cbn [mbind result_bind].
  rewrite (term_penalty self tr i blk "out" (OrthLoss.out_proj blk)) by done.
  done.
Qed.

Lemma outer_loop_collect self tr k a acc :
  a + k <= length (OrthLoss.resblocks tr) ->
  OrthLoss.outer_loop self tr (seq a k) acc =
  collect self (take k (drop a (OrthLoss.resblocks tr)) ≫= block_rotations) acc.
Proof.
  revert a acc. induction k as [|k IH]; intros a acc Hlen; [done|].
  destruct (lookup_lt_is_Some_2 (OrthLoss.resblocks tr) a) as [blk Hblk]; [lia|].
  cbn [seq OrthLoss.outer_loop].
  rewrite (drop_S _ _ _ Hblk). cbn [take]. rewrite bind_cons, collect_app.
  rewrite (inner_loop_collect self tr a blk acc Hblk).
  destruct (collect self (block_rotations blk) acc) as [|acc']; [done|].
  cbn [mbind result_bind]. apply IH. lia.
Qed.

Lemma forward_collect self tr :
  OrthLoss.layers tr <= length (OrthLoss.resblocks tr) ->
  OrthLoss.forward self tr =
  (orth_loss ← collect self (rotations tr) [];
   if length orth_loss =? 0 then raise ZeroDivisionError
   else inr (div (OrthLoss.sum orth_loss)
                 (of_int (Z.of_nat (length orth_loss))))).
Proof.
  intros Hlen. unfold OrthLoss.forward, rotations.
  rewrite outer_loop_collect by (simpl; lia). by rewrite drop_0.
Qed.

Lemma gram_deviation_defined (u : Tensor E) :
  is_matrix u -> exists d, gram_deviation u = inr d.
Proof.
  intros (m & n & Hu). unfold gram_deviation, matmul.
  rewrite (transpose_shape u m n Hu), Hu, Nat.eqb_refl.
  rewrite decide_True by apply transpose_dtype.
  cbn [mbind result_bind shape OrthLoss.getitem lookup list_lookup].
  unfold tensor_sub, binary_op. cbn [shape eye].
  rewrite broadcast_shapes_refl. by eexists.
Qed.

Lemma penalty_valid self u d :
  valid_adjust_type self -> gram_deviation u = inr d ->
  penalty self (Some u) = inr (selected_norm self d).
Proof.
  intros Hsel. unfold gram_deviation, penalty, selected_norm.
  cbn [Delta.getattr mbind result_bind].
  destruct (matmul (transpose u) u) as [|UhU]; [done|]. cbn [mbind result_bind].
  destruct (OrthLoss.getitem (shape UhU) 0) as [|n]; [done|].
  cbn [mbind result_bind]. intros ->. cbn [mbind result_bind].
  destruct Hsel as [-> | ->]; done.
Qed.

Lemma penalty_invalid self u :
  ~ valid_adjust_type self -> is_matrix u ->
  penalty self (Some u) =
  raise (ValueError ("Invalid adjust type: " +:+ OrthLoss.adjust_type self)).
Proof.
  intros Hsel (m & n & Hu). unfold penalty, matmul.
  cbn [Delta.getattr mbind result_bind].
  rewrite (transpose_shape u m n Hu), Hu, Nat.eqb_refl.
  rewrite decide_True by apply transpose_dtype.
  cbn [mbind result_bind shape OrthLoss.getitem lookup list_lookup].
  destruct (String.eqb_spec (OrthLoss.adjust_type self) "fro") as [Hf|_].
  { exfalso. apply Hsel. by left. }
  destruct (String.eqb_spec (OrthLoss.adjust_type self) "spec") as [Hs|_].
  { exfalso. apply Hsel. by right. }
  done.
Qed.

Lemma collect_valid self us devs acc :
  valid_adjust_type self ->
  Forall2 (fun u d => gram_deviation u = inr d) us devs ->
  collect self (Some <$> us) acc = inr (acc ++ (selected_norm self <$> devs)).
Proof.
  intros Hsel Hdev. revert acc.
  induction Hdev as [|u d us devs Hd _ IH]; intros acc.
  - cbn. by rewrite app_nil_r.
  - rewrite !fmap_cons. cbn [collect].
    rewrite (penalty_valid self u d Hsel Hd). cbn [mbind result_bind].
    rewrite IH. by rewrite <- app_assoc.
Qed.

Lemma deviations_exist (us : list (Tensor E)) :
  Forall is_matrix us ->
  exists devs, Forall2 (fun u d => gram_deviation u = inr d) us devs.
Proof.
  induction 1 as [|u us Hu _ (devs & IH)].
  - exists []. constructor.
  - destruct (gram_deviation_defined u Hu) as [d Hd].
    exists (d :: devs). by constructor.
Qed.

End OrthLossFacts.

Section OrthLossClaims.
Context {E : Type} `{Scalar E} `{MatrixNorm E}.
Implicit Types (self : OrthLoss.t) (tr : OrthLoss.Transformer (E := E)).

Lemma length_block_rotations (blks : list (OrthLoss.Attention (E := E))) :
  length (blks ≫= block_rotations) = 4 * length blks.
Proof.
  induction blks as [|blk blks IH]; [done|].
  rewrite bind_cons, length_app, IH. cbn [length block_rotations fmap list_fmap]. lia.
Qed.

(** C8, as amended.  On an encoder with at least one transformer layer,
    each of whose projections carries a rotation matrix, [forward]
    raises [ValueError] exactly when the selector is neither "fro" nor
    "spec"; with a valid selector it returns the sum of the selected norm
    of [U.T @ U - I] over the four projections of every layer, divided by
    their number. *)
Theorem orth_loss_forward self tr (us : list (Tensor E)) :
  0 < OrthLoss.layers tr ->
  OrthLoss.layers tr <= length (OrthLoss.resblocks tr) ->
  rotations tr = Some <$> us ->
  Forall is_matrix us ->
  length us = 4 * OrthLoss.layers tr /\
  ((exists msg, OrthLoss.forward self tr = inl (ValueError msg)) <->
     ~ valid_adjust_type self) /\
  (valid_adjust_type self ->
     exists devs,
       Forall2 (fun u d => gram_deviation u = inr d) us devs /\
       OrthLoss.forward self tr =
         inr (div (OrthLoss.sum (selected_norm self <$> devs))
                  (of_int (Z.of_nat (length us))))).
Proof.
  intros Hpos Hlen Hrot Hmat.
  assert (Hn : length us = 4 * OrthLoss.layers tr).
  { rewrite <- (length_fmap Some us), <- Hrot. unfold rotations.
    rewrite length_block_rotations, length_take. lia. }
  assert (Hvalid : valid_adjust_type self ->
            exists devs,
              Forall2 (fun u d => gram_deviation u = inr d) us devs /\
              OrthLoss.forward self tr =
                inr (div (OrthLoss.sum (selected_norm self <$> devs))
                         (of_int (Z.of_nat (length us))))).
  { intros Hsel. destruct (deviations_exist us Hmat) as [devs Hdevs].
    exists devs. split; [done|].
    rewrite forward_collect, Hrot by done.
    rewrite (collect_valid self us devs [] Hsel Hdevs).
    cbn [mbind result_bind app]. rewrite length_fmap.
    rewrite <- (Forall2_length Hdevs).
    destruct (Nat.eqb_spec (length us) 0); [lia | done]. }
  split; [done|]. split; [|done]. split.
  - intros [msg Hmsg] Hsel. destruct (Hvalid Hsel) as (devs & _ & Hfw).
    by rewrite Hfw in Hmsg.
  - intros Hsel. destruct us as [|u us]; [simpl in Hn; lia|].
    apply list.Forall_cons in Hmat as [Hu _].
    eexists. rewrite forward_collect, Hrot by done.
    rewrite fmap_cons. cbn [collect].
    by rewrite (penalty_invalid self u Hsel Hu).
Qed.

End OrthLossClaims.

(** ** The store: what an operation may touch *)

Section StoreFacts.
Context {E : Type} `{Scalar E}.
Implicit Types (s : Store.state (E := E)) (h old : list (Store.object (E := E)))
  (o : Store.object (E := E)) (l n : nat).

Lemma framed_ret {A : Type} n old (a : A) (Q : A -> Prop) :
  Q a -> framed n old (mret a) Q.
Proof. intros HQ s Hs. split; [done|]. by intros ? [= <-]. Qed.

Lemma framed_bind {A B : Type} n old (m : Store.M A) (f : A -> Store.M B)
    (P : A -> Prop) (Q : B -> Prop) :
  framed n old m P -> (forall a, P a -> framed n old (f a) Q) ->
  framed n old (m ≫= f) Q.
Proof.
  intros Hm Hf s Hs. destruct (Hm s Hs) as [Hk HP].
  unfold mbind, Store.M_bind. destruct (m s) as [[e|a] s']; cbn in *.
  - split; [done|]. by intros.
  - apply (Hf a); [by apply HP | done].
Qed.

Lemma framed_weaken {A : Type} n old (m : Store.M A) (P Q : A -> Prop) :
  framed n old m P -> (forall a, P a -> Q a) -> framed n old m Q.
Proof.
  intros Hm HPQ s Hs. destruct (Hm s Hs) as [Hk HP]. split; [done|].
  intros a Ha. by apply HPQ, HP.
Qed.

Lemma framed_lift {A : Type} n old (r : result A) :
  framed n old (Store.lift r) (fun _ => True).
Proof. intros s Hs. by split. Qed.

Lemma framed_type_error {A : Type} n old (Q : A -> Prop) :
  framed n old Store.type_error Q.
Proof. intros s Hs. by split. Qed.

Lemma framed_print n old (line : string) :
  framed n old (Store.print line) (fun _ => True).
Proof. intros s Hs. by split. Qed.

Lemma framed_alloc n old o :
  Forall (fun r => n <= r) (Store.refs o) ->
  framed n old (Store.alloc o) (fun l => n <= l).
Proof.
  intros Ho s (Hlen & Htake & Hcl). split.
  - unfold keeps, Store.alloc. cbn [snd Store.heap]. split; [|split].
    + rewrite length_app. lia.
    + by rewrite take_app_le.
    + intros l o' Hl Hlook. apply lookup_snoc_Some in Hlook as [[_ Hlook]|[_ <-]].
      * by apply (Hcl l).
      * done.
  - cbn. by intros ? [= <-].
Qed.

Lemma framed_load n old l :
  framed n old (Store.load l)
    (fun o => n <= l -> Forall (fun r => n <= r) (Store.refs o)).
Proof.
  intros s Hs. unfold Store.load. case_match eqn:Hl; cbn [fst snd].
  - split; [exact Hs|]. intros ? [= <-] Hn. destruct Hs as (_ & _ & Hcl).
    by apply (Hcl l).
  - split; [exact Hs|]. by intros.
Qed.

Lemma framed_store n old l o :
  n <= l -> Forall (fun r => n <= r) (Store.refs o) ->
  framed n old (Store.store l o) (fun _ => True).
Proof.
  intros Hl Ho s (Hlen & Htake & Hcl). split; [|done].
  unfold keeps, Store.store. cbn [snd Store.heap]. split; [|split].
  - by rewrite length_insert.
  - by rewrite take_insert_ge.
  - intros l' o' Hl' Hlook.
    apply list_lookup_insert_Some in Hlook as [(_ & <- & _)|[_ Hlook]].
    + done.
    + by apply (Hcl l').
Qed.

Lemma framed_get_tensor n old l :
  framed n old (Store.get_tensor l) (fun _ => True).
Proof.
  unfold Store.get_tensor. eapply framed_bind; [apply framed_load|].
  intros [t|d|v|ps] _; (by apply framed_ret) || apply framed_type_error.
Qed.

Lemma framed_get_dict n old l :
  framed n old (Store.get_dict l) (fun d => n <= l -> Forall (fun r => n <= r) d.*2).
Proof.
  unfold Store.get_dict. eapply framed_bind; [apply framed_load|].
  intros [t|d|v|ps] Ho; try apply framed_type_error.
  by apply framed_ret.
Qed.

Lemma framed_get_vector n old l :
  framed n old (Store.get_vector l) (fun v => n <= l -> n <= v).
Proof.
  unfold Store.get_vector. eapply framed_bind; [apply framed_load|].
  intros [t|d|v|ps] Ho; try apply framed_type_error.
  apply framed_ret. intros Hl. specialize (Ho Hl). cbn in Ho.
  by inversion Ho.
Qed.

Lemma framed_get_params n old l :
  framed n old (Store.get_params l)
    (fun ps => n <= l -> Forall (fun r => n <= r) ps.*2).
Proof.
  unfold Store.get_params. eapply framed_bind; [apply framed_load|].
  intros [t|d|v|ps] Ho; try apply framed_type_error.
  by apply framed_ret.
Qed.

Lemma refs_setitem (P : nat -> Prop) (d : dict nat) (key : string) (v : nat) :
  Forall P d.*2 -> P v -> Forall P (dict_setitem d key v).*2.
Proof.
  intros Hd Hv. induction d as [|[k w] d IH]; cbn.
  - by constructor.
  - apply list.Forall_cons in Hd as [Hw Hd].
    destruct (String.eqb key k); cbn; constructor; auto.
Qed.

Lemma framed_dict_store n old (d : nat) (key : string) (v : nat) :
  n <= d -> n <= v -> framed n old (Store.dict_store d key v) (fun _ => True).
Proof.
  intros Hd Hv. unfold Store.dict_store.
  eapply framed_bind; [apply framed_get_dict|].
  intros prev Hprev. apply framed_store; [done|].
  cbn. apply refs_setitem; auto.
Qed.

End StoreFacts.

Section StoreOperations.
Context {E : Type} `{Scalar E}.
Implicit Types (s : Store.state (E := E)) (old : list (Store.object (E := E)))
  (n : nat).

Lemma framed_init n old (vector : nat) :
  n <= vector -> framed n old (Store.__init__ vector) (fun l => n <= l).
Proof.
  intros Hv. apply framed_alloc. cbn. by constructor.
Qed.

Lemma framed_add_loop n old (keys : list string) (sv ov new_vector : nat) :
  n <= new_vector ->
  framed n old (Store.add_loop keys sv ov new_vector) (fun _ => True).
Proof.
  intros Hnew. induction keys as [|key rest IH]; cbn [Store.add_loop].
  { by apply framed_ret. }
  eapply framed_bind; [apply framed_get_dict|]. intros other _.
  destruct (negb (dict_contains other key)).
  { eapply framed_bind; [apply framed_print|]. intros _ _. exact IH. }
  eapply framed_bind; [apply framed_get_dict|]. intros self _.
  eapply framed_bind; [apply framed_lift|]. intros xl _.
  eapply framed_bind; [apply framed_get_tensor|]. intros x _.
  eapply framed_bind; [apply framed_lift|]. intros yl _.
  eapply framed_bind; [apply framed_get_tensor|]. intros y _.
  eapply framed_bind; [apply framed_lift|]. intros t _.
  eapply framed_bind; [apply framed_alloc; by cbn|]. intros sl Hsl.
  eapply framed_bind; [by apply framed_dict_store|]. intros _ _. exact IH.
Qed.

Lemma framed_add n old (self other : nat) :
  framed n old (Store.__add__ self other) (fun l => n <= l).
Proof.
  unfold Store.__add__.
  eapply framed_bind; [apply framed_alloc; by cbn|]. intros new_vector Hnew.
  eapply framed_bind; [apply framed_get_vector|]. intros sv _.
  eapply framed_bind; [apply framed_get_vector|]. intros ov _.
  eapply framed_bind; [apply framed_get_dict|]. intros keys _.
  eapply framed_bind; [by apply framed_add_loop|]. intros _ _.
  by apply framed_init.
Qed.

Lemma framed_neg_loop n old (keys : list string) (sv new_vector : nat) :
  n <= new_vector ->
  framed n old (Store.neg_loop keys sv new_vector) (fun _ => True).
Proof.
  intros Hnew. induction keys as [|key rest IH]; cbn [Store.neg_loop].
  { by apply framed_ret. }
  eapply framed_bind; [apply framed_get_dict|]. intros self _.
  eapply framed_bind; [apply framed_lift|]. intros xl _.
  eapply framed_bind; [apply framed_get_tensor|]. intros x _.
  eapply framed_bind; [apply framed_alloc; by cbn|]. intros nl Hnl.
  eapply framed_bind; [by apply framed_dict_store|]. intros _ _. exact IH.
Qed.

Lemma framed_neg n old (self : nat) :
  framed n old (Store.__neg__ self) (fun l => n <= l).
Proof.
  unfold Store.__neg__.
  eapply framed_bind; [apply framed_alloc; by cbn|]. intros new_vector Hnew.
  eapply framed_bind; [apply framed_get_vector|]. intros sv _.
  eapply framed_bind; [apply framed_get_dict|]. intros keys _.
  eapply framed_bind; [by apply framed_neg_loop|]. intros _ _.
  by apply framed_init.
Qed.

Lemma framed_deepcopy_params n old (params : dict nat) :
  framed n old (Store.deepcopy_params params)
    (fun ps => Forall (fun r => n <= r) ps.*2).
Proof.
  induction params as [|[name l] rest IH]; cbn [Store.deepcopy_params].
  { apply framed_ret. constructor. }
  eapply framed_bind; [apply framed_get_tensor|]. intros x _.
  eapply framed_bind; [apply framed_alloc; by cbn|]. intros l' Hl'.
  eapply framed_bind; [exact IH|]. intros rest' Hrest.
  apply framed_ret. cbn. by constructor.
Qed.

Lemma framed_deepcopy n old (module : nat) :
  framed n old (Store.deepcopy module) (fun l => n <= l).
Proof.
  unfold Store.deepcopy.
  eapply framed_bind; [apply framed_get_params|]. intros params _.
  eapply framed_bind; [apply framed_deepcopy_params|]. intros params' Hps.
  by apply framed_alloc.
Qed.

Lemma framed_state_dict n old (module : nat) :
  n <= module -> framed n old (Store.state_dict module) (fun l => n <= l).
Proof.
  intros Hm. unfold Store.state_dict.
  eapply framed_bind; [apply framed_get_params|]. intros params Hps.
  apply framed_alloc. cbn. by apply Hps.
Qed.

Lemma framed_apply_loop n old (keys : list string) (sv psd : nat) (c : E)
    (new_state_dict : nat) :
  n <= new_state_dict ->
  framed n old (Store.apply_loop keys sv psd c new_state_dict) (fun _ => True).
Proof.
  intros Hnew. induction keys as [|key rest IH]; cbn [Store.apply_loop].
  { by apply framed_ret. }
  eapply framed_bind; [apply framed_get_dict|]. intros self _.
  destruct (negb (dict_contains self key)).
  { eapply framed_bind; [apply framed_print|]. intros _ _. exact IH. }
  eapply framed_bind; [apply framed_get_dict|]. intros d _.
  eapply framed_bind; [apply framed_lift|]. intros pl _.
  eapply framed_bind; [apply framed_get_tensor|]. intros p _.
  eapply framed_bind; [apply framed_lift|]. intros vl _.
  eapply framed_bind; [apply framed_get_tensor|]. intros v _.
  eapply framed_bind; [apply framed_lift|]. intros t _.
  eapply framed_bind; [apply framed_alloc; by cbn|]. intros sl Hsl.
  eapply framed_bind; [by apply framed_dict_store|]. intros _ _. exact IH.
Qed.

Lemma framed_load_loop n old (params : dict nat) (sd : nat) (msgs : list string) :
  Forall (fun r => n <= r) params.*2 ->
  framed n old (Store.load_loop params sd msgs) (fun _ => True).
Proof.
  revert msgs. induction params as [|[name pl] rest IH]; intros msgs Hps;
    cbn [Store.load_loop].
  { by apply framed_ret. }
  apply list.Forall_cons in Hps as [Hpl Hrest].
  eapply framed_bind; [apply framed_get_dict|]. intros d _.
  destruct (dict_get d name) as [xl|]; [|by apply IH].
  eapply framed_bind; [apply framed_get_tensor|]. intros x0 _.
  eapply framed_bind; [apply framed_get_tensor|]. intros param _.
  eapply framed_bind; [apply framed_lift|]. intros x _.
  destruct (decide (shape x = shape param)); [|by apply IH].
  eapply framed_bind; [apply framed_store; [exact Hpl | by cbn]|].
  intros _ _. by apply IH.
Qed.

Lemma framed_load_state_dict n old (module sd : nat) :
  n <= module -> framed n old (Store.load_state_dict module sd) (fun _ => True).
Proof.
  intros Hm. unfold Store.load_state_dict.
  eapply framed_bind; [apply framed_get_params|]. intros params Hps.
  eapply framed_bind; [apply framed_load_loop; by apply Hps|].
  intros [|msg msgs] _; [by apply framed_ret | apply framed_lift].
Qed.

Lemma framed_apply_to n old (self base : nat) (c : option E) :
  framed n old (Store.apply_to self base c) (fun l => n <= l).
Proof.
  unfold Store.apply_to.
  eapply framed_bind; [apply framed_deepcopy|]. intros model Hmodel.
  eapply framed_bind; [apply framed_alloc; by cbn|]. intros new_sd Hnew.
  eapply framed_bind; [by apply framed_state_dict|]. intros psd Hpsd.
  eapply framed_bind; [apply framed_get_vector|]. intros sv _.
  eapply framed_bind; [apply framed_get_dict|]. intros keys _.
  eapply framed_bind; [by apply framed_apply_loop|]. intros _ _.
  eapply framed_bind; [by apply framed_load_state_dict|]. intros _ _.
  by apply framed_ret.
Qed.

Lemma framed_returns_new s (m : Store.M nat) :
  framed (length (Store.heap s)) (Store.heap s) m
    (fun l => length (Store.heap s) <= l) ->
  returns_new s (m s).
Proof.
  intros Hm. destruct (Hm s) as [(Hlen & Htake & Hcl) Hres].
  { split; [done|]. split; [by rewrite take_ge|].
    intros l o Hl Hlook. apply lookup_lt_Some in Hlook. lia. }
  split; [|split]; [|done..].
  intros l o Hlook. rewrite <- Hlook.
  rewrite <- (lookup_take_lt (Store.heap (m s).2) (length (Store.heap s)) l)
    by (by apply lookup_lt_Some in Hlook).
  by rewrite Htake.
Qed.

(** C7.  [__add__], [__neg__] and [apply_to] never write to an object that
    existed before the call, whether they return or raise: the operand
    vectors, their dicts and tensors, and the base checkpoint with its
    parameters are left as they were.  What they return is a newly
    allocated object that shares nothing with the operands. *)
Theorem value_semantics s (self other base : nat) (c : option E) :
  returns_new s (Store.__add__ self other s) /\
  returns_new s (Store.__neg__ self s) /\
  returns_new s (Store.apply_to self base c s).
Proof.
  split; [|split]; apply framed_returns_new.
  - apply framed_add.
  - apply framed_neg.
  - apply framed_apply_to.
Qed.

End StoreOperations.

(** ** Task vectors: the claims *)

Section TaskVectorClaims.
Context {E : Type} `{Scalar E}.
Implicit Types (a b v : TaskVector.t (E := E)) (k : string).

(** C3.  [__add__] returns a vector over the keys that both operands
    have, holding the elementwise sum under each; a key of the left operand
    that the right one lacks is reported on the output and left out, and
    never makes the addition raise.  (Sums must be defined: the tensors of
    a shared key have shapes that broadcast.) *)
Theorem add_spec a b :
  (forall k x y, dict_get (TaskVector.vector a) k = Some x ->
     dict_get (TaskVector.vector b) k = Some y ->
     is_Some (broadcast_shapes (shape x) (shape y))) ->
  exists v out, TaskVector.__add__ a b = inr (v, out) /\
    (forall k, k ∈ dict_keys (TaskVector.vector v) <->
       k ∈ dict_keys (TaskVector.vector a) /\ k ∈ dict_keys (TaskVector.vector b)) /\
    (forall k x y, dict_get (TaskVector.vector a) k = Some x ->
       dict_get (TaskVector.vector b) k = Some y ->
       exists s, tensor_add x y = inr s /\ dict_get (TaskVector.vector v) k = Some s) /\
    (forall k, k ∈ dict_keys (TaskVector.vector a) ->
       k ∉ dict_keys (TaskVector.vector b) ->
       dict_get (TaskVector.vector v) k = None /\ TaskVector.add_warning k ∈ out) /\
    out = TaskVector.add_warning <$>
            filter (fun k => dict_contains (TaskVector.vector b) k = false)
              (dict_keys (TaskVector.vector a)).
Proof.
  intros Hbc. destruct a as [da], b as [db]. cbn [TaskVector.vector] in *.
  destruct (add_loop_lookup da db (dict_keys da) [] []) as (d & Hd & Hget).
  { intros k Hk. by apply dict_get_is_Some. }
  { intros k x y _. apply Hbc. }
  exists (TaskVector.mk d). eexists. split.
  { unfold TaskVector.__add__. cbn [TaskVector.vector]. rewrite Hd. done. }
  cbn [TaskVector.vector app].
  assert (Hshared : forall k x y, dict_get da k = Some x -> dict_get db k = Some y ->
            exists s, tensor_add x y = inr s /\ dict_get d k = Some s).
  { intros k x y Hx Hy.
    destruct (binary_op_defined add x y (Hbc k x y Hx Hy)) as (s & Hs & _).
    exists s. split; [done|]. rewrite Hget, decide_True.
    - unfold sum_at. rewrite Hx, Hy. unfold tensor_add. by rewrite Hs.
    - apply dict_get_is_Some. by rewrite Hx. }
  assert (Hmissing : forall k, dict_get da k = None \/ dict_get db k = None ->
            dict_get d k = None).
  { intros k Hk. rewrite Hget. unfold sum_at.
    destruct Hk as [Hk|Hk]; rewrite Hk.
    - by destruct (decide (k ∈ dict_keys da)).
    - destruct (decide (k ∈ dict_keys da)); [|done]. by destruct (dict_get da k). }
  split; [|split; [|split]]; [|done| |done].
  - intros k. rewrite <- !dict_get_is_Some. split.
    + intros Hk. destruct (dict_get da k) as [x|] eqn:Hx.
      * destruct (dict_get db k) as [y|] eqn:Hy; [done|].
        rewrite Hmissing in Hk by (by right). by destruct Hk.
      * rewrite Hmissing in Hk by (by left). by destruct Hk.
    + intros [[x Hx] [y Hy]]. destruct (Hshared k x y Hx Hy) as (s & _ & ->). done.
  - intros k Ha Hb. apply dict_get_None in Hb. split.
    + apply Hmissing. by right.
    + apply list_elem_of_fmap. exists k. split; [done|].
      apply list_elem_of_filter. split; [|done]. by apply dict_contains_false.
Qed.


End TaskVectorClaims.

(** ** Shapes that do not fit *)

Section ShapeFacts.
Context {E : Type} `{Scalar E}.
Implicit Types (k : string).






End ShapeFacts.

(** ** Closed examples *)

(** C1.  A checkpoint pair with a [torch.int32] entry: the entries of dtype
    [torch.int64] and [torch.uint8] are left out of the vector, the
    [torch.int32] one is kept and subtracted like a weight. *)
Theorem construct_keeps_int32 :
  TaskVector.construct
    [("weight", ztensor [2] [1; 2]%Z);
     ("num_batches_tracked", mkTensor int64 [] [5]%Z);
     ("mask", mkTensor uint8 [2] [1; 0]%Z);
     ("position_ids", mkTensor int32 [2] [0; 1]%Z)]
    [("weight", ztensor [2] [11; 22]%Z);
     ("num_batches_tracked", mkTensor int64 [] [8]%Z);
     ("mask", mkTensor uint8 [2] [1; 1]%Z);
     ("position_ids", mkTensor int32 [2] [2; 4]%Z)]
  = inr (TaskVector.mk
           [("weight", ztensor [2] [10; 20]%Z);
            ("position_ids", mkTensor int32 [2] [2; 3]%Z)]).
Proof. reflexivity. Qed.

(** Two vectors that share the key [w]; [only_a] is reported and dropped. *)
Lemma add_spec_witness :
  exists v out, TaskVector.__add__ zvector_a zvector_b = inr (v, out) /\
    (forall k, k ∈ dict_keys (TaskVector.vector v) <->
       k ∈ dict_keys (TaskVector.vector zvector_a) /\
       k ∈ dict_keys (TaskVector.vector zvector_b)) /\
    (forall k x y, dict_get (TaskVector.vector zvector_a) k = Some x ->
       dict_get (TaskVector.vector zvector_b) k = Some y ->
       exists s, tensor_add x y = inr s /\ dict_get (TaskVector.vector v) k = Some s) /\
    (forall k, k ∈ dict_keys (TaskVector.vector zvector_a) ->
       k ∉ dict_keys (TaskVector.vector zvector_b) ->
       dict_get (TaskVector.vector v) k = None /\ TaskVector.add_warning k ∈ out) /\
    out = TaskVector.add_warning <$>
            filter (fun k => dict_contains (TaskVector.vector zvector_b) k = false)
              (dict_keys (TaskVector.vector zvector_a)).
Proof.
  apply (add_spec zvector_a zvector_b).
  intros k x y. unfold zvector_a, zvector_b. cbn [TaskVector.vector dict_get].
  destruct (String.eqb k "w"); [intros [= <-] [= <-]; vm_compute; by eexists|].
  destruct (String.eqb k "only_a"); [|done].
  destruct (String.eqb k "only_b"); [|done].
  intros [= <-] [= <-]. vm_compute. by eexists.
Defined.


(** A low-rank layer from 1 to 2 features. *)
Lemma forward_requires_square_witness :
  exists l, Delta.__init__ 1 2 1 4 true [5%Z] = inr l /\
            forall x, raises_RuntimeError (Delta.forward l x) /\
                      (dtype x = float32 -> Delta.forward l x = shape_error).
Proof. apply (forward_requires_square 1 2 1 4 true [5%Z]). lia. Defined.





(** C8 as stated fails on an encoder without layers: the loop that would
    reject the selector does not run, and [forward] raises
    [ZeroDivisionError], not [ValueError]; a valid selector gets the same
    error instead of a mean. *)
Lemma invalid_selector_no_layers :
  ~ valid_adjust_type (OrthLoss.mk "l1") /\
  OrthLoss.forward (OrthLoss.mk "l1") (OrthLoss.mkTransformer (E := Z) 0 [])
    = inl ZeroDivisionError /\
  OrthLoss.forward (OrthLoss.mk "fro") (OrthLoss.mkTransformer (E := Z) 0 [])
    = inl ZeroDivisionError.
Proof.
  split; [|split; reflexivity].
  intros [Hsel|Hsel]; discriminate Hsel.
Qed.

(** A one-layer encoder whose last rotation is not orthogonal. *)
Lemma orth_loss_forward_witness :
  length [ztensor [2; 2] [1; 0; 0; 1]%Z; ztensor [2; 2] [1; 0; 0; 1]%Z;
          ztensor [2; 2] [1; 0; 0; 1]%Z; ztensor [2; 2] [1; 2; 0; 1]%Z]
    = 4 * OrthLoss.layers zencoder /\
  ((exists msg, OrthLoss.forward (OrthLoss.mk "fro") zencoder = inl (ValueError msg)) <->
     ~ valid_adjust_type (OrthLoss.mk "fro")) /\
  (valid_adjust_type (OrthLoss.mk "fro") ->
     exists devs,
       Forall2 (fun u d => gram_deviation u = inr d)
         [ztensor [2; 2] [1; 0; 0; 1]%Z; ztensor [2; 2] [1; 0; 0; 1]%Z;
          ztensor [2; 2] [1; 0; 0; 1]%Z; ztensor [2; 2] [1; 2; 0; 1]%Z] devs /\
       OrthLoss.forward (OrthLoss.mk "fro") zencoder =
         inr (div (OrthLoss.sum (selected_norm (OrthLoss.mk "fro") <$> devs))
                  (of_int (Z.of_nat 4)))).
Proof.
  apply (orth_loss_forward (OrthLoss.mk "fro") zencoder
           [ztensor [2; 2] [1; 0; 0; 1]%Z; ztensor [2; 2] [1; 0; 0; 1]%Z;
            ztensor [2; 2] [1; 0; 0; 1]%Z; ztensor [2; 2] [1; 2; 0; 1]%Z]).
  - simpl. lia.
  - simpl. lia.
  - reflexivity.
  - repeat constructor; exists 2, 2; reflexivity.
Defined.

(** ** Persistence *)

Section PersistenceFacts.
Context {E : Type} `{Scalar E}.
Implicit Types (v : TaskVector.t (E := E)) (fs : Persistence.FileSystem (E := E)).

(** Whenever [save_vector] succeeds, [load_vector] on the same path gives
    back the vector that was saved. *)
Lemma save_then_load v (path : string) fs fs' :
  (Persistence.save_vector v path fs).2 = inr fs' ->
  (Persistence.load_vector path fs').2 = inr v.
Proof.
  unfold Persistence.save_vector, Persistence.load_vector. cbn [snd].
  destruct (Persistence.makedirs (Persistence.dirname path) fs) as [e|fs1]; [done|].
  cbn [mbind result_bind]. unfold Persistence.torch_save.
  destruct (String.eqb path ""); [done|].
  destruct (Persistence.isdir fs1 path); [done|].
  destruct (_ || _); [|done]. intros [= <-].
  unfold Persistence.torch_load. rewrite dict_get_setitem_eq.
  cbn. by destruct v.
Qed.

(** C9.  A path without a directory part cannot be saved to: its
    [dirname] is the empty string, on which [os.makedirs] raises
    [FileNotFoundError] before anything is written. *)
Theorem save_vector_bare_filename v (path : string) fs :
  Persistence.dirname path = "" -> dict_get fs "" = None ->
  Persistence.save_vector v path fs =
    (["Saving task vector to " +:+ path], inl (FileNotFoundError "")).
Proof.
  intros Hdir Hfs. unfold Persistence.save_vector. rewrite Hdir.
  unfold Persistence.makedirs, Persistence.makedirs_fuel, Persistence.mkdir,
    Persistence.isdir.
  cbn. by rewrite Hfs.
Qed.

End PersistenceFacts.

(** [save_vector] on the bare file name [vector.pt], in an empty working
    directory. *)
Lemma save_vector_bare_filename_witness :
  Persistence.save_vector zvector_a "vector.pt" [] =
    (["Saving task vector to " +:+ "vector.pt"], inl (FileNotFoundError "")).
Proof.
  apply (save_vector_bare_filename zvector_a "vector.pt" []); reflexivity.
Defined.

(** ** The store computes what the value-level embedding computes *)

Section StoreRefinement.
Context {E : Type} `{Scalar E}.
Implicit Types (s : Store.state (E := E)) (h : list (Store.object (E := E)))
  (refs : dict nat) (d : dict (Tensor E)).

Lemma run_bind {A B : Type} (m : Store.M A) (f : A -> Store.M B) s a s' :
  m s = (inr a, s') -> (m ≫= f) s = f a s'.
Proof. intros Hm. unfold mbind, Store.M_bind. by rewrite Hm. Qed.

Lemma run_bind_raise {A B : Type} (m : Store.M A) (f : A -> Store.M B) s e s' :
  m s = (inl e, s') -> (m ≫= f) s = (inl e, s').
Proof. intros Hm. unfold mbind, Store.M_bind. by rewrite Hm. Qed.

Lemma run_load s (l : nat) o :
  Store.heap s !! l = Some o -> Store.load l s = (inr o, s).
Proof. intros Hl. unfold Store.load. by rewrite Hl. Qed.

Lemma run_get_tensor s (l : nat) t :
  Store.heap s !! l = Some (Store.OTensor t) -> Store.get_tensor l s = (inr t, s).
Proof. intros Hl. unfold Store.get_tensor. by rewrite (run_bind _ _ _ _ _ (run_load _ _ _ Hl)). Qed.

Lemma run_get_dict s (l : nat) refs :
  Store.heap s !! l = Some (Store.ODict refs) -> Store.get_dict l s = (inr refs, s).
Proof. intros Hl. unfold Store.get_dict. by rewrite (run_bind _ _ _ _ _ (run_load _ _ _ Hl)). Qed.

Lemma run_get_vector s (l dl : nat) :
  Store.heap s !! l = Some (Store.OTaskVector dl) -> Store.get_vector l s = (inr dl, s).
Proof. intros Hl. unfold Store.get_vector. by rewrite (run_bind _ _ _ _ _ (run_load _ _ _ Hl)). Qed.

Lemma run_get_params s (l : nat) refs :
  Store.heap s !! l = Some (Store.OModule refs) -> Store.get_params l s = (inr refs, s).
Proof. intros Hl. unfold Store.get_params. by rewrite (run_bind _ _ _ _ _ (run_load _ _ _ Hl)). Qed.

Lemma dict_at_keys h refs d : dict_at h refs d -> dict_keys refs = dict_keys d.
Proof.
  unfold dict_keys. induction 1 as [|[k l] [k' t] refs d [Hk _] _ IH]; [done|].
  cbn in *. by rewrite Hk, IH.
Qed.

Lemma dict_at_get h refs d (k : string) :
  dict_at h refs d ->
  match dict_get refs k with
  | Some l => exists t, dict_get d k = Some t /\ tensor_at h l t
  | None => dict_get d k = None
  end.
Proof.
  induction 1 as [|[k1 l] [k2 t] refs d [Hk Ht] _ IH]; [done|].
  cbn in *. subst k2. destruct (String.eqb k k1); [by exists t | exact IH].
Qed.

Lemma dict_at_contains h refs d (k : string) :
  dict_at h refs d -> dict_contains refs k = dict_contains d k.
Proof.
  intros Hd. pose proof (dict_at_get h refs d k Hd) as Hk. unfold dict_contains.
  destruct (dict_get refs k); [by destruct Hk as (t & -> & _) | by rewrite Hk].
Qed.

Lemma dict_at_mono h h' refs d :
  (forall l t, tensor_at h l t -> tensor_at h' l t) ->
  dict_at h refs d -> dict_at h' refs d.
Proof.
  intros Hmono Hd. induction Hd as [|r e refs d [Hk Ht] _ IH]; constructor; [|done].
  split; [done|]. by apply Hmono.
Qed.

Lemma dict_at_setitem h refs d (k : string) (l : nat) t :
  dict_at h refs d -> tensor_at h l t ->
  dict_at h (dict_setitem refs k l) (dict_setitem d k t).
Proof.
  intros Hd Ht. induction Hd as [|[k1 l1] [k2 t2] refs d [Hk Ht1] Hd IH].
  - by repeat constructor.
  - cbn in *. subst k2. destruct (String.eqb k k1); constructor; done.
Qed.

Lemma run_lift_bind {A B : Type} (r : result A) (f : A -> Store.M B) s :
  (Store.lift r ≫= f) s = match r with inr a => f a s | inl e => (inl e, s) end.
Proof. unfold mbind, Store.M_bind, Store.lift. by destruct r. Qed.

Lemma run_alloc_bind {B : Type} (o : Store.object (E := E)) (f : nat -> Store.M B) s :
  (Store.alloc o ≫= f) s =
  f (length (Store.heap s)) (Store.mkState (Store.heap s ++ [o]) (Store.stdout s)).
Proof. done. Qed.

Lemma run_print_bind {B : Type} (line : string) (f : unit -> Store.M B) s :
  (Store.print line ≫= f) s =
  f () (Store.mkState (Store.heap s) (Store.stdout s ++ [line])).
Proof. done. Qed.

Lemma run_dict_store s (dl : nat) refs (key : string) (v : nat) :
  Store.heap s !! dl = Some (Store.ODict refs) ->
  Store.dict_store dl key v s =
    (inr (), Store.mkState (<[dl := Store.ODict (dict_setitem refs key v)]> (Store.heap s))
                           (Store.stdout s)).
Proof.
  intros Hd. unfold Store.dict_store.
  by rewrite (run_bind _ _ _ _ _ (run_get_dict _ _ _ Hd)).
Qed.

(** What [add_loop] prints does not depend on what was printed before. *)
Lemma add_loop_out (keys : list string) (self other new : dict (Tensor E))
    (out : list string) :
  TaskVector.add_loop keys self other new out =
  match TaskVector.add_loop keys self other new [] with
  | inr (v, o) => inr (v, out ++ o)
  | inl e => inl e
  end.
Proof.
  revert new out. induction keys as [|key rest IH]; intros new out.
  - cbn. by rewrite app_nil_r.
  - cbn [TaskVector.add_loop]. destruct (negb (dict_contains other key)).
    + rewrite (IH new (out ++ _)), (IH new ([] ++ _)).
      destruct (TaskVector.add_loop rest self other new []) as [e|[v o]]; [done|].
      by rewrite <- app_assoc.
    + destruct (dict_getitem self key) as [e|x]; [done|]. cbn [mbind result_bind].
      destruct (dict_getitem other key) as [e|y]; [done|]. cbn [mbind result_bind].
      destruct (tensor_add x y) as [e|t]; [done|]. cbn [mbind result_bind].
      apply IH.
Qed.

(** Reading a reference dict and reading the dict it represents raise
    together, and otherwise agree. *)
Lemma dict_at_getitem h refs d (k : string) :
  dict_at h refs d ->
  match dict_getitem d k with
  | inr t => exists l, dict_getitem refs k = inr l /\ tensor_at h l t
  | inl e => dict_getitem refs k = inl e
  end.
Proof.
  intros Hd. pose proof (dict_at_get h refs d k Hd) as Hk. unfold dict_getitem.
  destruct (dict_get refs k) as [l|].
  - destruct Hk as (t & -> & Ht). by exists l.
  - by rewrite Hk.
Qed.

Lemma add_loop_refines (keys : list string) (sv ov nv : nat) srefs orefs
    (self other : dict (Tensor E)) :
  nv <> sv -> nv <> ov ->
  forall s nrefs (new : dict (Tensor E)),
  Store.heap s !! sv = Some (Store.ODict srefs) -> dict_at (Store.heap s) srefs self ->
  Store.heap s !! ov = Some (Store.ODict orefs) -> dict_at (Store.heap s) orefs other ->
  Store.heap s !! nv = Some (Store.ODict nrefs) -> dict_at (Store.heap s) nrefs new ->
  match TaskVector.add_loop keys self other new [] with
  | inr (new', out) =>
      exists s' nrefs', Store.add_loop keys sv ov nv s = (inr (), s') /\
        Store.heap s' !! nv = Some (Store.ODict nrefs') /\
        dict_at (Store.heap s') nrefs' new' /\
        Store.stdout s' = Store.stdout s ++ out /\
        (forall l o, l <> nv -> Store.heap s !! l = Some o ->
                     Store.heap s' !! l = Some o)
  | inl e => exists s', Store.add_loop keys sv ov nv s = (inl e, s')
  end.
Proof.
  intros Hnsv Hnov. induction keys as [|key rest IH];
    intros s nrefs new Hsv Hself Hov Hother Hnv Hnew.
  { cbn. exists s, nrefs. rewrite app_nil_r. by repeat split. }
  cbn [TaskVector.add_loop Store.add_loop].
  rewrite (run_bind _ _ _ _ _ (run_get_dict _ _ _ Hov)).
  rewrite (dict_at_contains _ _ _ key Hother).
  destruct (dict_contains other key); cbn [negb].
  - rewrite (run_bind _ _ _ _ _ (run_get_dict _ _ _ Hsv)).
    rewrite run_lift_bind.
    pose proof (dict_at_getitem _ _ _ key Hself) as Hx.
    destruct (dict_getitem self key) as [e|x]; [rewrite Hx; by eexists|].
    destruct Hx as (xl & -> & Hxl). cbn [mbind result_bind].
    rewrite (run_bind _ _ _ _ _ (run_get_tensor _ _ _ Hxl)).
    rewrite run_lift_bind.
    pose proof (dict_at_getitem _ _ _ key Hother) as Hy.
    destruct (dict_getitem other key) as [e|y]; [rewrite Hy; by eexists|].
    destruct Hy as (yl & -> & Hyl). cbn [mbind result_bind].
    rewrite (run_bind _ _ _ _ _ (run_get_tensor _ _ _ Hyl)).
    rewrite run_lift_bind.
    destruct (tensor_add x y) as [e|t]; [by eexists|]. cbn [mbind result_bind].
    rewrite run_alloc_bind.
    set (h1 := Store.heap s ++ [Store.OTensor t]).
    set (sl := length (Store.heap s)).
    assert (Hlt : nv < sl) by (by apply lookup_lt_Some in Hnv).
    assert (Hnv1 : h1 !! nv = Some (Store.ODict nrefs)).
    { unfold h1. by rewrite lookup_app_l. }
    erewrite run_bind; [|by apply run_dict_store].
    set (h2 := <[nv := Store.ODict (dict_setitem nrefs key sl)]> h1).
    assert (Hkeep : forall l o, l <> nv -> Store.heap s !! l = Some o ->
                                h2 !! l = Some o).
    { intros l o Hl Hlo. unfold h2. rewrite list_lookup_insert_ne by done.
      unfold h1. rewrite lookup_app_l; [done|]. by apply lookup_lt_Some in Hlo. }
    assert (Htens : forall l u, tensor_at (Store.heap s) l u -> tensor_at h2 l u).
    { intros l u Hl. apply Hkeep; [|done]. intros ->.
      unfold tensor_at in Hl. by rewrite Hnv in Hl. }
    assert (Hsl : tensor_at h2 sl t).
    { unfold tensor_at, h2. rewrite list_lookup_insert_ne by lia.
      unfold h1, sl. by rewrite lookup_app_r, Nat.sub_diag. }
    specialize (IH (Store.mkState h2 (Store.stdout s))
                  (dict_setitem nrefs key sl) (dict_setitem new key t)).
    cbn [Store.heap Store.stdout] in IH.
    destruct (TaskVector.add_loop rest self other (dict_setitem new key t) [])
      as [e|[new' out]].
    + apply IH; try (by apply Hkeep); try (by eapply dict_at_mono).
      * unfold h2. apply list_lookup_insert_eq. unfold h1. rewrite length_app. lia.
      * apply dict_at_setitem; [by eapply dict_at_mono | done].
    + destruct IH as (s' & nrefs' & Hrun & Hnv' & Hnew' & Hout & Hkeep');
        try (by apply Hkeep); try (by eapply dict_at_mono).
      * unfold h2. apply list_lookup_insert_eq. unfold h1. rewrite length_app. lia.
      * apply dict_at_setitem; [by eapply dict_at_mono | done].
      * exists s', nrefs'. repeat split; try done.
        intros l o Hl Hlo. apply Hkeep'; [done|]. by apply Hkeep.
  - rewrite run_print_bind. rewrite (add_loop_out rest self other new ([] ++ _)).
    specialize (IH (Store.mkState (Store.heap s)
                      (Store.stdout s ++ [TaskVector.add_warning key])) nrefs new).
    cbn [Store.heap Store.stdout] in IH.
    destruct (TaskVector.add_loop rest self other new []) as [e|[new' out]].
    + by apply IH.
    + destruct IH as (s' & nrefs' & Hrun & Hnv' & Hnew' & Hout & Hkeep'); try done.
      exists s', nrefs'. repeat split; try done.
      by rewrite Hout, <- app_assoc.
Qed.

Lemma tensor_at_app h (o : Store.object (E := E)) (l : nat) (t : Tensor E) :
  tensor_at h l t -> tensor_at (h ++ [o]) l t.
Proof.
  unfold tensor_at. intros Hl. rewrite lookup_app_l; [done|].
  by apply lookup_lt_Some in Hl.
Qed.

Lemma vector_at_new h (dl : nat) refs (d : dict (Tensor E)) :
  h !! dl = Some (Store.ODict refs) -> dict_at h refs d ->
  vector_at (h ++ [Store.OTaskVector dl]) (length h) (TaskVector.mk d).
Proof.
  intros Hdl Hd. exists dl, refs. split; [|split].
  - by rewrite lookup_app_r, Nat.sub_diag.
  - rewrite lookup_app_l; [done|]. by apply lookup_lt_Some in Hdl.
  - eapply dict_at_mono; [|exact Hd]. intros l t. apply tensor_at_app.
Qed.

(** [Store.__add__] on the addresses of two vectors does what
    [TaskVector.__add__] does on the vectors: it raises the same exception,
    or returns the address of a vector with the same contents after
    printing the same lines. *)
Theorem add_refines s (self other : nat) (a b : TaskVector.t (E := E)) :
  vector_at (Store.heap s) self a -> vector_at (Store.heap s) other b ->
  match TaskVector.__add__ a b with
  | inr (v, out) =>
      exists l s', Store.__add__ self other s = (inr l, s') /\
                   vector_at (Store.heap s') l v /\
                   Store.stdout s' = Store.stdout s ++ out
  | inl e => exists s', Store.__add__ self other s = (inl e, s')
  end.
Proof.
  intros (sv & srefs & Hself & Hsv & Hsd) (ov & orefs & Hother & Hov & Hod).
  unfold TaskVector.__add__, Store.__add__. rewrite run_alloc_bind.
  set (nv := length (Store.heap s)).
  set (s1 := Store.mkState (Store.heap s ++ [Store.ODict []]) (Store.stdout s)).
  assert (Hkeep : forall l o, Store.heap s !! l = Some o -> Store.heap s1 !! l = Some o).
  { intros l o Hl. cbn. rewrite lookup_app_l; [done|]. by apply lookup_lt_Some in Hl. }
  assert (Htens : forall l t, tensor_at (Store.heap s) l t -> tensor_at (Store.heap s1) l t).
  { intros l t. apply Hkeep. }
  rewrite (run_bind _ _ _ _ _ (run_get_vector s1 _ _ (Hkeep _ _ Hself))).
  rewrite (run_bind _ _ _ _ _ (run_get_vector s1 _ _ (Hkeep _ _ Hother))).
  rewrite (run_bind _ _ _ _ _ (run_get_dict s1 _ _ (Hkeep _ _ Hsv))).
  rewrite (dict_at_keys _ _ _ Hsd).
  pose proof (add_loop_refines (dict_keys (TaskVector.vector a)) sv ov nv srefs orefs
                (TaskVector.vector a) (TaskVector.vector b)) as Hloop.
  specialize (Hloop ltac:(apply lookup_lt_Some in Hsv; unfold nv; lia)
                    ltac:(apply lookup_lt_Some in Hov; unfold nv; lia)
                    s1 [] []).
  destruct (TaskVector.add_loop (dict_keys (TaskVector.vector a))
              (TaskVector.vector a) (TaskVector.vector b) [] []) as [e|[new' out]].
  - destruct Hloop as (s' & Hrun); try (by apply Hkeep);
      try (by eapply dict_at_mono).
    + cbn. by rewrite lookup_app_r, Nat.sub_diag.
    + constructor.
    + exists s'. by rewrite (run_bind_raise _ _ _ _ _ Hrun).
  - destruct Hloop as (s' & nrefs' & Hrun & Hnv' & Hnew' & Hout & _);
      try (by apply Hkeep); try (by eapply dict_at_mono).
    + cbn. by rewrite lookup_app_r, Nat.sub_diag.
    + constructor.
    + cbn [mbind result_bind TaskVector.__init__].
      rewrite (run_bind _ _ _ _ _ Hrun). unfold Store.__init__, Store.alloc.
      eexists _, _. split; [done|]. cbn [Store.heap Store.stdout]. split.
      * by eapply vector_at_new.
      * exact Hout.
Qed.

Lemma neg_loop_refines (keys : list string) (sv nv : nat) srefs
    (self : dict (Tensor E)) :
  nv <> sv ->
  forall s nrefs (new : dict (Tensor E)),
  Store.heap s !! sv = Some (Store.ODict srefs) -> dict_at (Store.heap s) srefs self ->
  Store.heap s !! nv = Some (Store.ODict nrefs) -> dict_at (Store.heap s) nrefs new ->
  match TaskVector.neg_loop keys self new with
  | inr new' =>
      exists s' nrefs', Store.neg_loop keys sv nv s = (inr (), s') /\
        Store.heap s' !! nv = Some (Store.ODict nrefs') /\
        dict_at (Store.heap s') nrefs' new' /\
        Store.stdout s' = Store.stdout s
  | inl e => exists s', Store.neg_loop keys sv nv s = (inl e, s')
  end.
Proof.
  intros Hnsv. induction keys as [|key rest IH];
    intros s nrefs new Hsv Hself Hnv Hnew.
  { cbn. by exists s, nrefs. }
  cbn [TaskVector.neg_loop Store.neg_loop].
  rewrite (run_bind _ _ _ _ _ (run_get_dict _ _ _ Hsv)).
  rewrite run_lift_bind.
  pose proof (dict_at_getitem _ _ _ key Hself) as Hx.
  destruct (dict_getitem self key) as [e|x]; [rewrite Hx; by eexists|].
  destruct Hx as (xl & -> & Hxl). cbn [mbind result_bind].
  rewrite (run_bind _ _ _ _ _ (run_get_tensor _ _ _ Hxl)).
  rewrite run_alloc_bind.
  set (h1 := Store.heap s ++ [Store.OTensor (tensor_neg x)]).
  set (sl := length (Store.heap s)).
  assert (Hlt : nv < sl) by (by apply lookup_lt_Some in Hnv).
  assert (Hnv1 : h1 !! nv = Some (Store.ODict nrefs)).
  { unfold h1. by rewrite lookup_app_l. }
  erewrite run_bind; [|by apply run_dict_store].
  set (h2 := <[nv := Store.ODict (dict_setitem nrefs key sl)]> h1).
  assert (Hkeep : forall l o, l <> nv -> Store.heap s !! l = Some o ->
                              h2 !! l = Some o).
  { intros l o Hl Hlo. unfold h2. rewrite list_lookup_insert_ne by done.
    unfold h1. rewrite lookup_app_l; [done|]. by apply lookup_lt_Some in Hlo. }
  assert (Htens : forall l u, tensor_at (Store.heap s) l u -> tensor_at h2 l u).
  { intros l u Hl. apply Hkeep; [|done]. intros ->.
    unfold tensor_at in Hl. by rewrite Hnv in Hl. }
  assert (Hsl : tensor_at h2 sl (tensor_neg x)).
  { unfold tensor_at, h2. rewrite list_lookup_insert_ne by lia.
    unfold h1, sl. by rewrite lookup_app_r, Nat.sub_diag. }
  apply (IH (Store.mkState h2 (Store.stdout s))
            (dict_setitem nrefs key sl) (dict_setitem new key (tensor_neg x))).
  - by apply Hkeep.
  - by eapply dict_at_mono.
  - unfold h2. apply list_lookup_insert_eq. unfold h1. rewrite length_app. lia.
  - apply dict_at_setitem; [by eapply dict_at_mono | done].
Qed.

(** [Store.__neg__] does what [TaskVector.__neg__] does. *)
Theorem neg_refines s (self : nat) (a : TaskVector.t (E := E)) :
  vector_at (Store.heap s) self a ->
  match TaskVector.__neg__ a with
  | inr v =>
      exists l s', Store.__neg__ self s = (inr l, s') /\
                   vector_at (Store.heap s') l v /\
                   Store.stdout s' = Store.stdout s
  | inl e => exists s', Store.__neg__ self s = (inl e, s')
  end.
Proof.
  intros (sv & srefs & Hself & Hsv & Hsd).
  unfold TaskVector.__neg__, Store.__neg__. rewrite run_alloc_bind.
  set (nv := length (Store.heap s)).
  set (s1 := Store.mkState (Store.heap s ++ [Store.ODict []]) (Store.stdout s)).
  assert (Hkeep : forall l o, Store.heap s !! l = Some o -> Store.heap s1 !! l = Some o).
  { intros l o Hl. cbn. rewrite lookup_app_l; [done|]. by apply lookup_lt_Some in Hl. }
  assert (Htens : forall l t, tensor_at (Store.heap s) l t -> tensor_at (Store.heap s1) l t).
  { intros l t. apply Hkeep. }
  rewrite (run_bind _ _ _ _ _ (run_get_vector s1 _ _ (Hkeep _ _ Hself))).
  rewrite (run_bind _ _ _ _ _ (run_get_dict s1 _ _ (Hkeep _ _ Hsv))).
  rewrite (dict_at_keys _ _ _ Hsd).
  pose proof (neg_loop_refines (dict_keys (TaskVector.vector a)) sv nv srefs
                (TaskVector.vector a)) as Hloop.
  specialize (Hloop ltac:(apply lookup_lt_Some in Hsv; unfold nv; lia) s1 [] []).
  destruct (TaskVector.neg_loop (dict_keys (TaskVector.vector a))
              (TaskVector.vector a) []) as [e|new'].
  - destruct Hloop as (s' & Hrun); try (by apply Hkeep);
      try (by eapply dict_at_mono).
    + cbn. by rewrite lookup_app_r, Nat.sub_diag.
    + constructor.
    + exists s'. by rewrite (run_bind_raise _ _ _ _ _ Hrun).
  - destruct Hloop as (s' & nrefs' & Hrun & Hnv' & Hnew' & Hout);
      try (by apply Hkeep); try (by eapply dict_at_mono).
    + cbn. by rewrite lookup_app_r, Nat.sub_diag.
    + constructor.
    + cbn [mbind result_bind TaskVector.__init__].
      rewrite (run_bind _ _ _ _ _ Hrun). unfold Store.__init__, Store.alloc.
      eexists _, _. split; [done|]. cbn [Store.heap Store.stdout]. split.
      * by eapply vector_at_new.
      * exact Hout.
Qed.

Lemma dict_at_insert h refs d (l : nat) (o : Store.object (E := E)) :
  l ∉ refs.*2 -> dict_at h refs d -> dict_at (<[l := o]> h) refs d.
Proof.
  intros Hl Hd. induction Hd as [|[k1 l1] [k2 t2] refs d [Hk Ht] Hd IH].
  - constructor.
  - cbn in Hl. apply not_elem_of_cons in Hl as [Hne Hl]. constructor; [|by apply IH].
    split; [done|]. unfold tensor_at in *. cbn in *.
    by rewrite list_lookup_insert_ne.
Qed.

Lemma dict_at_refs_lt h refs d : dict_at h refs d -> Forall (fun l => l < length h) refs.*2.
Proof.
  induction 1 as [|[k1 l1] [k2 t2] refs d [Hk Ht] _ IH]; cbn; constructor; [|done].
  by apply lookup_lt_Some in Ht.
Qed.

(** [deepcopy_params] appends a copy of every parameter tensor, in order. *)
Lemma deepcopy_params_run (params : dict nat) (m : dict (Tensor E)) s :
  dict_at (Store.heap s) params m ->
  exists params',
    Store.deepcopy_params params s =
      (inr params', Store.mkState (Store.heap s ++ (Store.OTensor <$> m.*2))
                                  (Store.stdout s)) /\
    dict_at (Store.heap s ++ (Store.OTensor <$> m.*2)) params' m /\
    params'.*2 = seq (length (Store.heap s)) (length m).
Proof.
  revert params s.
  induction m as [|[k t] m IH]; intros params s Hd.
  - apply Forall2_nil_inv_r in Hd as ->. exists []. cbn. rewrite app_nil_r.
    split; [by destruct s|]. split; [constructor | done].
  - apply Forall2_cons_inv_r in Hd as ([k' l] & rest & [Hk Hl] & Hrest & ->).
    cbn in Hk, Hl. subst k'. cbn [Store.deepcopy_params].
    rewrite (run_bind _ _ _ _ _ (run_get_tensor _ _ _ Hl)).
    rewrite run_alloc_bind.
    set (s1 := Store.mkState (Store.heap s ++ [Store.OTensor t]) (Store.stdout s)).
    destruct (IH rest s1) as (rest' & Hrun & Hat & Hlocs).
    { eapply dict_at_mono; [|exact Hrest]. intros l' t'. apply tensor_at_app. }
    exists ((k, length (Store.heap s)) :: rest').
    cbn [Store.heap Store.stdout s1] in *.
    rewrite <- app_assoc in Hrun, Hat. cbn [app] in Hrun, Hat.
    rewrite length_app in Hlocs. cbn [length] in Hlocs.
    split; [|split].
    + by rewrite (run_bind _ _ _ _ _ Hrun).
    + rewrite fmap_cons. cbn [fmap list_fmap snd]. constructor; [|done].
      split; [done|]. unfold tensor_at. cbn.
      by rewrite lookup_app_r, Nat.sub_diag.
    + cbn. f_equal. rewrite Hlocs. f_equal. lia.
Qed.

(** What [apply_loop] prints does not depend on what was printed before. *)
Lemma apply_loop_out (keys : list string) (self psd new : dict (Tensor E)) (c : E)
    (out : list string) :
  TaskVector.apply_loop keys self psd c new out =
  match TaskVector.apply_loop keys self psd c new [] with
  | inr (v, o) => inr (v, out ++ o)
  | inl e => inl e
  end.
Proof.
  revert new out. induction keys as [|key rest IH]; intros new out.
  - cbn. by rewrite app_nil_r.
  - cbn [TaskVector.apply_loop]. destruct (negb (dict_contains self key)).
    + rewrite (IH new (out ++ _)), (IH new ([] ++ _)).
      destruct (TaskVector.apply_loop rest self psd c new []) as [e|[v o]]; [done|].
      by rewrite <- app_assoc.
    + destruct (dict_getitem psd key) as [e|p]; [done|]. cbn [mbind result_bind].
      destruct (dict_getitem self key) as [e|v]; [done|]. cbn [mbind result_bind].
      destruct (tensor_add p (scalar_mul c v)) as [e|t]; [done|].
      cbn [mbind result_bind]. apply IH.
Qed.

Lemma apply_loop_refines (keys : list string) (sv pv nv n0 : nat) srefs prefs
    (self psd : dict (Tensor E)) (c : E) :
  nv <> sv -> nv <> pv ->
  forall s nrefs (new : dict (Tensor E)),
  Store.heap s !! sv = Some (Store.ODict srefs) -> dict_at (Store.heap s) srefs self ->
  Store.heap s !! pv = Some (Store.ODict prefs) -> dict_at (Store.heap s) prefs psd ->
  Store.heap s !! nv = Some (Store.ODict nrefs) -> dict_at (Store.heap s) nrefs new ->
  n0 <= length (Store.heap s) -> Forall (fun l => n0 <= l) nrefs.*2 ->
  match TaskVector.apply_loop keys self psd c new [] with
  | inr (new', out) =>
      exists s' nrefs', Store.apply_loop keys sv pv c nv s = (inr (), s') /\
        Store.heap s' !! nv = Some (Store.ODict nrefs') /\
        dict_at (Store.heap s') nrefs' new' /\
        Forall (fun l => n0 <= l) nrefs'.*2 /\
        Store.stdout s' = Store.stdout s ++ out /\
        (forall l o, l <> nv -> Store.heap s !! l = Some o ->
                     Store.heap s' !! l = Some o)
  | inl e => exists s', Store.apply_loop keys sv pv c nv s = (inl e, s')
  end.
Proof.
  intros Hnsv Hnpv. induction keys as [|key rest IH];
    intros s nrefs new Hsv Hself Hpv Hpsd Hnv Hnew Hn0 Hfresh.
  { cbn. exists s, nrefs. rewrite app_nil_r. by repeat split. }
  cbn [TaskVector.apply_loop Store.apply_loop].
  rewrite (run_bind _ _ _ _ _ (run_get_dict _ _ _ Hsv)).
  rewrite (dict_at_contains _ _ _ key Hself).
  destruct (dict_contains self key); cbn [negb].
  - rewrite (run_bind _ _ _ _ _ (run_get_dict _ _ _ Hpv)).
    rewrite run_lift_bind.
    pose proof (dict_at_getitem _ _ _ key Hpsd) as Hp.
    destruct (dict_getitem psd key) as [e|p]; [rewrite Hp; by eexists|].
    destruct Hp as (pl & -> & Hpl). cbn [mbind result_bind].
    rewrite (run_bind _ _ _ _ _ (run_get_tensor _ _ _ Hpl)).
    rewrite run_lift_bind.
    pose proof (dict_at_getitem _ _ _ key Hself) as Hv.
    destruct (dict_getitem self key) as [e|v]; [rewrite Hv; by eexists|].
    destruct Hv as (vl & -> & Hvl). cbn [mbind result_bind].
    rewrite (run_bind _ _ _ _ _ (run_get_tensor _ _ _ Hvl)).
    rewrite run_lift_bind.
    destruct (tensor_add p (scalar_mul c v)) as [e|t]; [by eexists|].
    cbn [mbind result_bind].
    rewrite run_alloc_bind.
    set (h1 := Store.heap s ++ [Store.OTensor t]).
    set (sl := length (Store.heap s)).
    assert (Hlt : nv < sl) by (by apply lookup_lt_Some in Hnv).
    assert (Hnv1 : h1 !! nv = Some (Store.ODict nrefs)).
    { unfold h1. by rewrite lookup_app_l. }
    erewrite run_bind; [|by apply run_dict_store].
    set (h2 := <[nv := Store.ODict (dict_setitem nrefs key sl)]> h1).
    assert (Hkeep : forall l o, l <> nv -> Store.heap s !! l = Some o ->
                                h2 !! l = Some o).
    { intros l o Hl Hlo. unfold h2. rewrite list_lookup_insert_ne by done.
      unfold h1. rewrite lookup_app_l; [done|]. by apply lookup_lt_Some in Hlo. }
    assert (Htens : forall l u, tensor_at (Store.heap s) l u -> tensor_at h2 l u).
    { intros l u Hl. apply Hkeep; [|done]. intros ->.
      unfold tensor_at in Hl. by rewrite Hnv in Hl. }
    assert (Hsl : tensor_at h2 sl t).
    { unfold tensor_at, h2. rewrite list_lookup_insert_ne by lia.
      unfold h1, sl. by rewrite lookup_app_r, Nat.sub_diag. }
    assert (Hlen2 : n0 <= length h2).
    { unfold h2, h1. rewrite length_insert, length_app. lia. }
    specialize (IH (Store.mkState h2 (Store.stdout s))
                  (dict_setitem nrefs key sl) (dict_setitem new key t)).
    cbn [Store.heap Store.stdout] in IH.
    destruct (TaskVector.apply_loop rest self psd c (dict_setitem new key t) [])
      as [e|[new' out]].
    + apply IH; try (by apply Hkeep); try (by eapply dict_at_mono); try done.
      * unfold h2. apply list_lookup_insert_eq. unfold h1. rewrite length_app. lia.
      * apply dict_at_setitem; [by eapply dict_at_mono | done].
      * apply refs_setitem; [done | unfold sl; lia].
    + destruct IH as (s' & nrefs' & Hrun & Hnv' & Hnew' & Hfresh' & Hout & Hkeep');
        try (by apply Hkeep); try (by eapply dict_at_mono); try done.
      * unfold h2. apply list_lookup_insert_eq. unfold h1. rewrite length_app. lia.
      * apply dict_at_setitem; [by eapply dict_at_mono | done].
      * apply refs_setitem; [done | unfold sl; lia].
      * exists s', nrefs'. repeat split; try done.
        intros l o Hl Hlo. apply Hkeep'; [done|]. by apply Hkeep.
  - rewrite run_print_bind. rewrite (apply_loop_out rest self psd new c ([] ++ _)).
    specialize (IH (Store.mkState (Store.heap s)
                      (Store.stdout s ++ [TaskVector.apply_warning key])) nrefs new).
    cbn [Store.heap Store.stdout] in IH.
    destruct (TaskVector.apply_loop rest self psd c new []) as [e|[new' out]].
    + by apply IH.
    + destruct IH as (s' & nrefs' & Hrun & Hnv' & Hnew' & Hfresh' & Hout & Hkeep');
        try done.
      exists s', nrefs'. repeat split; try done.
      by rewrite Hout, <- app_assoc.
Qed.

Lemma load_loop_refines (dv : nat) nrefs (sd : dict (Tensor E)) :
  forall (m : dict (Tensor E)) (params : dict nat) (msgs : list string) s,
  Store.heap s !! dv = Some (Store.ODict nrefs) -> dict_at (Store.heap s) nrefs sd ->
  dict_at (Store.heap s) params m -> NoDup params.*2 ->
  dv ∉ params.*2 -> (forall l, l ∈ params.*2 -> l ∉ nrefs.*2) ->
  match TaskVector.load_loop m sd msgs with
  | inr (m', msgs') =>
      exists s', Store.load_loop params dv msgs s = (inr msgs', s') /\
        dict_at (Store.heap s') params m' /\
        Store.stdout s' = Store.stdout s /\
        (forall l o, l ∉ params.*2 -> Store.heap s !! l = Some o ->
                     Store.heap s' !! l = Some o)
  | inl e => exists s', Store.load_loop params dv msgs s = (inl e, s')
  end.
Proof.
  induction m as [|[name param] m IH]; intros params msgs s Hdv Hsd Hparams Hnd Hdvp Hsep.
  { apply Forall2_nil_inv_r in Hparams as ->. cbn. exists s. repeat split; try done.
    constructor. }
  apply Forall2_cons_inv_r in Hparams as ([name' pl] & rest & [Hk Hpl] & Hrest & ->).
  cbn in Hk, Hpl. subst name'. cbn [fmap list_fmap snd] in Hnd, Hdvp, Hsep.
  apply list.NoDup_cons in Hnd as [Hpl_rest Hnd].
  apply not_elem_of_cons in Hdvp as [Hdv_pl Hdvp].
  assert (Hsep_rest : forall l, l ∈ rest.*2 -> l ∉ nrefs.*2).
  { intros l Hl. apply Hsep. by apply list_elem_of_further. }
  assert (Hpl_new : pl ∉ nrefs.*2) by (apply Hsep, list_elem_of_here).
  (* the rest of the loop, from a state that agrees with [s] off [pl] *)
  assert (Hcont : forall msgs1 s1 (p1 : Tensor E),
            Store.heap s1 !! dv = Some (Store.ODict nrefs) ->
            dict_at (Store.heap s1) nrefs sd ->
            dict_at (Store.heap s1) rest m ->
            tensor_at (Store.heap s1) pl p1 ->
            Store.stdout s1 = Store.stdout s ->
            (forall l o, l <> pl -> Store.heap s !! l = Some o ->
                         Store.heap s1 !! l = Some o) ->
            match ('(rest', msgs2) ← TaskVector.load_loop m sd msgs1;
                   inr ((name, p1) :: rest', msgs2)) with
            | inr (m', msgs') =>
                exists s', Store.load_loop rest dv msgs1 s1 = (inr msgs', s') /\
                  dict_at (Store.heap s') ((name, pl) :: rest) m' /\
                  Store.stdout s' = Store.stdout s /\
                  (forall l o, l ∉ pl :: rest.*2 -> Store.heap s !! l = Some o ->
                               Store.heap s' !! l = Some o)
            | inl e => exists s', Store.load_loop rest dv msgs1 s1 = (inl e, s')
            end).
  { intros msgs1 s1 p1 Hdv1 Hsd1 Hrest1 Hpl1 Hout1 Hkeep1.
    specialize (IH rest msgs1 s1 Hdv1 Hsd1 Hrest1 Hnd Hdvp Hsep_rest).
    destruct (TaskVector.load_loop m sd msgs1) as [e|[rest' msgs2]]; [done|].
    cbn [mbind result_bind]. destruct IH as (s' & Hrun & Hat & Hout & Hkeep).
    exists s'. split; [done|]. split; [|split].
    - constructor; [|done]. split; [done|]. by apply Hkeep.
    - by rewrite Hout.
    - intros l o Hl Hlo. apply not_elem_of_cons in Hl as [Hl1 Hl2].
      apply Hkeep; [done|]. by apply Hkeep1. }
  cbn [TaskVector.load_loop Store.load_loop].
  rewrite (run_bind _ _ _ _ _ (run_get_dict _ _ _ Hdv)).
  pose proof (dict_at_get _ _ _ name Hsd) as Hget.
  destruct (dict_get nrefs name) as [xl|].
  - destruct Hget as (x & -> & Hxl).
    rewrite (run_bind _ _ _ _ _ (run_get_tensor _ _ _ Hxl)).
    rewrite (run_bind _ _ _ _ _ (run_get_tensor _ _ _ Hpl)).
    rewrite run_lift_bind.
    destruct (input_for param x) as [e|x']; [by eexists|]. cbn [mbind result_bind].
    destruct (decide (shape x' = shape param)).
    + unfold Store.store at 1. unfold mbind at 1, Store.M_bind at 1.
      apply Hcont; cbn [Store.heap Store.stdout]; try done.
      * by rewrite list_lookup_insert_ne.
      * by apply dict_at_insert.
      * by apply dict_at_insert.
      * unfold tensor_at. apply list_lookup_insert_eq. by apply lookup_lt_Some in Hpl.
      * intros l o Hl Hlo. by rewrite list_lookup_insert_ne.
    + by apply Hcont.
  - rewrite Hget. by apply Hcont.
Qed.

(** [Store.apply_to] does what [TaskVector.apply_to] does: it raises the
    same exception, or returns the address of a module with the same
    parameters after printing the same lines, and the base module still has
    its own. *)
Theorem apply_to_refines s (self base : nat) (v : TaskVector.t (E := E))
    (m : dict (Tensor E)) (c : option E) :
  vector_at (Store.heap s) self v -> module_at (Store.heap s) base m ->
  match TaskVector.apply_to v m c with
  | inr (m', out) =>
      exists l s', Store.apply_to self base c s = (inr l, s') /\
                   module_at (Store.heap s') l m' /\
                   module_at (Store.heap s') base m /\
                   Store.stdout s' = Store.stdout s ++ out
  | inl e => exists s', Store.apply_to self base c s = (inl e, s')
  end.
Proof.
  intros (sv & srefs & Hself & Hsv & Hsd) (params & Hbase & Hparams).
  destruct (deepcopy_params_run params m s Hparams) as (params' & Hcopy & Hat1 & Hlocs).
  set (h1 := Store.heap s ++ (Store.OTensor <$> m.*2)) in *.
  set (model := length h1).
  set (h2 := h1 ++ [Store.OModule params']).
  set (nv := length h2).
  set (h3 := h2 ++ [Store.ODict []]).
  set (pv := length h3).
  set (h4 := h3 ++ [Store.ODict params']).
  set (s4 := Store.mkState h4 (Store.stdout s)).
  assert (Hlen1 : length (Store.heap s) <= model).
  { unfold model, h1. rewrite length_app. lia. }
  assert (Hnv : nv = S model) by (unfold nv, h2; rewrite length_app; cbn; lia).
  assert (Hpv : pv = S nv) by (unfold pv, h3; rewrite length_app; cbn; lia).
  assert (Hlen4 : length h4 = S pv) by (unfold h4; rewrite length_app; cbn; lia).
  assert (Hkeep1 : forall l o, h1 !! l = Some o -> h4 !! l = Some o).
  { intros l o Hl. pose proof (lookup_lt_Some _ _ _ Hl) as Hlt.
    unfold h4, h3, h2. rewrite !lookup_app_l; try done; rewrite ?length_app; lia. }
  assert (Hkeep0 : forall l o, Store.heap s !! l = Some o -> h4 !! l = Some o).
  { intros l o Hl. apply Hkeep1. unfold h1. rewrite lookup_app_l; [done|].
    by apply lookup_lt_Some in Hl. }
  assert (Hmodel4 : h4 !! model = Some (Store.OModule params')).
  { unfold h4, h3. rewrite !lookup_app_l by (rewrite ?length_app; lia).
    unfold h2. by rewrite lookup_app_r, Nat.sub_diag. }
  assert (Hnv4 : h4 !! nv = Some (Store.ODict [])).
  { unfold h4. rewrite lookup_app_l by lia.
    unfold h3. by rewrite lookup_app_r, Nat.sub_diag. }
  assert (Hpv4 : h4 !! pv = Some (Store.ODict params')).
  { unfold h4. by rewrite lookup_app_r, Nat.sub_diag. }
  assert (Hparams4 : dict_at h4 params' m).
  { eapply dict_at_mono; [|exact Hat1]. intros l t. apply Hkeep1. }
  assert (Hlocs_lt : forall l, l ∈ params'.*2 -> l < model).
  { intros l Hl. pose proof (dict_at_refs_lt _ _ _ Hat1) as Hlt.
    rewrite list.Forall_forall in Hlt. by apply Hlt. }
  assert (Hlocs_ge : forall l, l ∈ params'.*2 -> length (Store.heap s) <= l).
  { intros l Hl. rewrite Hlocs in Hl. apply elem_of_seq in Hl. lia. }
  assert (Hprefix : Store.apply_to self base c s =
            (Store.apply_loop (dict_keys m) sv pv (default one c) nv;;
             Store.load_state_dict model nv;; mret model) s4).
  { unfold Store.apply_to, Store.deepcopy, Store.state_dict. cbn zeta.
    assert (Hdeep : Store.deepcopy base s =
                      (inr model, Store.mkState h2 (Store.stdout s))).
    { unfold Store.deepcopy.
      rewrite (run_bind _ _ _ _ _ (run_get_params _ _ _ Hbase)).
      by rewrite (run_bind _ _ _ _ _ Hcopy). }
    unfold Store.deepcopy in Hdeep.
    rewrite (run_bind _ _ _ _ _ Hdeep). rewrite run_alloc_bind.
    cbn [Store.heap Store.stdout]. fold nv h3.
    assert (Hsdict : Store.state_dict model (Store.mkState h3 (Store.stdout s)) =
                       (inr pv, s4)).
    { assert (Hmodel3 : h3 !! model = Some (Store.OModule params')).
      { unfold h3. rewrite lookup_app_l by lia.
        unfold h2. by rewrite lookup_app_r, Nat.sub_diag. }
      unfold Store.state_dict.
      by rewrite (run_bind _ _ _ _ _
                    (run_get_params (Store.mkState h3 (Store.stdout s)) _ _ Hmodel3)). }
    unfold Store.state_dict in Hsdict.
    rewrite (run_bind _ _ _ _ _ Hsdict).
    rewrite (run_bind _ _ _ _ _ (run_get_vector s4 _ _ (Hkeep0 _ _ Hself))).
    rewrite (run_bind _ _ _ _ _ (run_get_dict s4 _ _ Hpv4)).
    by rewrite (dict_at_keys _ _ _ Hparams4). }
  rewrite Hprefix. clear Hprefix.
  unfold TaskVector.apply_to, TaskVector.deepcopy, TaskVector.state_dict. cbn zeta.
  pose proof (lookup_lt_Some _ _ _ Hsv) as Hsv_lt.
  assert (Hsd4 : dict_at h4 srefs (TaskVector.vector v)).
  { eapply dict_at_mono; [|exact Hsd]. intros l t. apply Hkeep0. }
  pose proof (apply_loop_refines (dict_keys m) sv pv nv (length h4) srefs params'
                (TaskVector.vector v) m (default one c)
                ltac:(lia) ltac:(lia) s4 [] [] (Hkeep0 _ _ Hsv) Hsd4 Hpv4 Hparams4
                Hnv4 ltac:(constructor) ltac:(constructor) ltac:(constructor))
    as Hloop.
  cbn [Store.heap Store.stdout s4] in Hloop.
  destruct (TaskVector.apply_loop (dict_keys m) (TaskVector.vector v) m
              (default one c) [] []) as [e|[new' out]].
  { destruct Hloop as (s' & Hrun).
    exists s'. by rewrite (run_bind_raise _ _ _ _ _ Hrun). }
  destruct Hloop as (s5 & nrefs' & Hrun & Hnv5 & Hnew5 & Hfresh & Hout & Hkeep5).
  cbn [mbind result_bind]. rewrite (run_bind _ _ _ _ _ Hrun).
  assert (Htens5 : forall l t, tensor_at h4 l t -> tensor_at (Store.heap s5) l t).
  { intros l t Hl. apply Hkeep5; [|done]. intros ->.
    unfold tensor_at in Hl. by rewrite Hnv4 in Hl. }
  assert (Hmodel5 : Store.heap s5 !! model = Some (Store.OModule params')).
  { apply Hkeep5; [lia | done]. }
  assert (Hparams5 : dict_at (Store.heap s5) params' m) by (by eapply dict_at_mono).
  assert (Hnodup : NoDup params'.*2) by (rewrite Hlocs; apply NoDup_seq).
  assert (Hnv_params : nv ∉ params'.*2).
  { intros Hin. apply Hlocs_lt in Hin. lia. }
  assert (Hsep : forall l, l ∈ params'.*2 -> l ∉ nrefs'.*2).
  { intros l Hl Hin. apply Hlocs_lt in Hl.
    rewrite list.Forall_forall in Hfresh. apply Hfresh in Hin. lia. }
  pose proof (load_loop_refines nv nrefs' new' m params' [] s5 Hnv5 Hnew5
                Hparams5 Hnodup Hnv_params Hsep) as Hload.
  unfold TaskVector.load_state_dict.
  destruct (TaskVector.load_loop m new' []) as [e|[m' msgs]].
  { destruct Hload as (s' & Hrun').
    exists s'. unfold Store.load_state_dict.
    rewrite (run_bind_raise _ _ _ _ _
               (eq_trans (run_bind _ _ _ _ _ (run_get_params _ _ _ Hmodel5))
                         (run_bind_raise _ _ _ _ _ Hrun'))).
    done. }
  destruct Hload as (s6 & Hrun' & Hat6 & Hout6 & Hkeep6).
  assert (Hstate : Store.load_state_dict model nv s5 =
            (match msgs with
             | [] => inr ()
             | msg :: _ => raise (RuntimeError msg)
             end, s6)).
  { unfold Store.load_state_dict.
    rewrite (run_bind _ _ _ _ _ (run_get_params _ _ _ Hmodel5)).
    rewrite (run_bind _ _ _ _ _ Hrun'). by destruct msgs. }
  cbn [mbind result_bind]. destruct msgs as [|msg msgs].
  - cbn [mbind result_bind]. rewrite (run_bind _ _ _ _ _ Hstate).
    exists model, s6. split; [done|]. split; [|split].
    + exists params'. split; [|done]. apply Hkeep6; [|done].
      intros Hin. apply Hlocs_lt in Hin. lia.
    + exists params. split.
      * apply Hkeep6.
        { intros Hin. apply Hlocs_ge in Hin. apply lookup_lt_Some in Hbase. lia. }
        apply Hkeep5; [apply lookup_lt_Some in Hbase; lia|]. by apply Hkeep0.
      * eapply dict_at_mono; [|exact Hparams]. intros l t Hl. apply Hkeep6.
        { intros Hin. apply Hlocs_ge in Hin. apply lookup_lt_Some in Hl. lia. }
        apply Htens5. by apply Hkeep0.
    + by rewrite Hout6.
  - cbn. exists s6. by rewrite (run_bind_raise _ _ _ _ _ Hstate).
Qed.

End StoreRefinement.

(** * Further properties of the code *)

(** ** Elementwise operators on tensors of one shape *)

Lemma ravel_unravel (r : list nat) (i : nat) :
  i < numel r -> ravel_rev r (unravel_rev r i) = i.
Proof.
  revert i. induction r as [|d r IH]; intros i Hi.
  - unfold numel in Hi. simpl in Hi. simpl. lia.
  - change (numel (d :: r)) with (d * numel r) in Hi.
    cbn [unravel_rev ravel_rev].
    assert (Hd : d <> 0) by (intros ->; simpl in Hi; lia).
    rewrite IH.
    + destruct (Nat.eqb_spec d 1) as [->|Hd1].
      * rewrite Nat.div_1_r. lia.
      * pose proof (Nat.div_mod i d Hd). lia.
    + apply Nat.Div0.div_lt_upper_bound. lia.
Qed.

Lemma fmap_nth_seq {A : Type} (z : A) (l : list A) :
  (fun i => nth i l z) <$> seq 0 (length l) = l.
Proof.
  induction l as [|x l IH]; [done|].
  cbn [length seq fmap list_fmap nth]. f_equal.
  rewrite <- fmap_S_seq, <- list_fmap_compose. exact IH.
Qed.

Section Elementwise.
Context {E : Type} `{Scalar E}.
Implicit Types (a b t : Tensor E).

Lemma broadcast_at_same t (i : nat) :
  i < numel (shape t) -> broadcast_at t (shape t) i = nth i (data t) zero.
Proof.
  intros Hi. unfold broadcast_at. rewrite ravel_unravel; [done|].
  by rewrite numel_reverse.
Qed.

(** On operands of one shape a binary operator works position by
    position. *)
Lemma binary_op_same_shape (f : E -> E -> E) a b :
  shape b = shape a ->
  binary_op f a b =
    inr (mkTensor (result_type a b) (shape a)
           ((fun i => f (nth i (data a) zero) (nth i (data b) zero))
              <$> seq 0 (numel (shape a)))).
Proof.
  intros Hs. unfold binary_op. rewrite Hs, broadcast_shapes_refl.
  do 2 f_equal. apply list_fmap_ext. intros j i Hj.
  apply lookup_seq in Hj as [-> Hlt]. cbn [Nat.add] in *.
  rewrite (broadcast_at_same a) by done.
  rewrite <- Hs at 1. rewrite (broadcast_at_same b) by (by rewrite Hs). done.
Qed.

Lemma promote_types_same (d : DType) : promote_types d d = d.
Proof. unfold promote_types. by rewrite decide_True. Qed.

Lemma result_type_same a b :
  shape b = shape a -> dtype b = dtype a -> result_type a b = dtype a.
Proof.
  intros Hs Hd. unfold result_type. rewrite Hs, Hd, promote_types_same.
  by destruct (shape a).
Qed.

End Elementwise.


(** ** Task vectors: negation, and how the operations compose *)

Lemma filter_none {A : Type} (P : A -> Prop) `{!forall x, Decision (P x)} (l : list A) :
  (forall x, x ∈ l -> ~ P x) -> filter P l = [].
Proof.
  induction l as [|x l IH]; intros Hl; [done|].
  rewrite filter_cons_False by apply Hl, list_elem_of_here.
  apply IH. intros y Hy. apply Hl. by apply list_elem_of_further.
Qed.

Lemma dict_keys_setitem_new {V : Type} (d : dict V) (k : string) (v : V) :
  k ∉ dict_keys d -> dict_keys (dict_setitem d k v) = dict_keys d ++ [k].
Proof.
  unfold dict_keys. induction d as [|[k0 w] d IH]; intros Hk; [done|].
  rewrite fmap_cons in Hk. cbn [fst] in Hk.
  apply not_elem_of_cons in Hk as [Hne Hk].
  cbn [dict_setitem]. destruct (String.eqb_spec k k0) as [|_]; [done|].
  rewrite !fmap_cons. cbn [fst app]. f_equal. by apply IH.
Qed.

Section AlgebraFacts.
Context {E : Type} `{Scalar E}.
Implicit Types (self new : dict (Tensor E)) (a b v : TaskVector.t (E := E))
  (k : string).

Lemma neg_loop_lookup self (keys : list string) new :
  (forall k, k ∈ keys -> is_Some (dict_get self k)) ->
  exists d, TaskVector.neg_loop keys self new = inr d /\
    forall k, dict_get d k =
              if decide (k ∈ keys) then tensor_neg <$> dict_get self k
              else dict_get new k.
Proof.
  revert new. induction keys as [|key rest IH]; intros new Hself.
  - exists new. split; [done|]. intros k. rewrite decide_False; [done|].
    apply not_elem_of_nil.
  - cbn [TaskVector.neg_loop].
    destruct (Hself key) as [x Hx]; [apply list_elem_of_here|].
    rewrite (dict_getitem_Some _ _ _ Hx). cbn [mbind result_bind].
    destruct (IH (dict_setitem new key (tensor_neg x))) as (d & Hd & Hget).
    { intros k Hk. apply Hself. by apply list_elem_of_further. }
    exists d. split; [done|]. intros k. rewrite Hget.
    destruct (decide (k = key)) as [->|Hne].
    + rewrite (decide_True (P := key ∈ key :: rest)) by apply list_elem_of_here.
      rewrite dict_get_setitem_eq, Hx. by destruct (decide (key ∈ rest)).
    + rewrite dict_get_setitem_ne by done.
      destruct (decide (k ∈ rest)) as [Hin|Hnin].
      * rewrite decide_True; [done|]. by apply list_elem_of_further.
      * rewrite decide_False; [done|].
        intros Hin. apply elem_of_cons in Hin as [?|?]; done.
Qed.

Lemma neg_loop_keys self (keys : list string) new d :
  NoDup keys -> (forall k, k ∈ keys -> k ∉ dict_keys new) ->
  TaskVector.neg_loop keys self new = inr d ->
  dict_keys d = dict_keys new ++ keys.
Proof.
  revert new. induction keys as [|key rest IH]; intros new Hnd Hnew Hrun.
  - cbn in Hrun. injection Hrun as <-. by rewrite app_nil_r.
  - apply list.NoDup_cons in Hnd as [Hkey Hnd].
    cbn [TaskVector.neg_loop] in Hrun.
    destruct (dict_getitem self key) as [e|x]; [done|].
    cbn [mbind result_bind] in Hrun.
    rewrite (IH _ Hnd) with (2 := Hrun).
    + rewrite dict_keys_setitem_new by apply Hnew, list_elem_of_here.
      by rewrite <- app_assoc.
    + intros k Hk. rewrite dict_keys_setitem_new by apply Hnew, list_elem_of_here.
      intros Hin. apply elem_of_app in Hin as [Hin|Hin].
      * by apply (Hnew k); [apply list_elem_of_further|].
      * apply list_elem_of_singleton in Hin as ->. done.
Qed.

Lemma neg_lookup v :
  exists n, TaskVector.__neg__ v = inr n /\
    forall k, dict_get (TaskVector.vector n) k =
              tensor_neg <$> dict_get (TaskVector.vector v) k.
Proof.
  destruct v as [dv]. cbn [TaskVector.vector].
  destruct (neg_loop_lookup dv (dict_keys dv) []) as (d & Hd & Hget).
  { intros k Hk. by apply dict_get_is_Some. }
  exists (TaskVector.mk d). split.
  - unfold TaskVector.__neg__. cbn [TaskVector.vector]. by rewrite Hd.
  - intros k. cbn [TaskVector.vector]. rewrite Hget.
    destruct (decide (k ∈ dict_keys dv)) as [|Hnin]; [done|].
    apply dict_get_None in Hnin. by rewrite Hnin.
Qed.

(** X3.  [-v] is defined for every task vector: it has the keys of [v], in the
    same order, and under each key the negated tensor, of the same shape
    and dtype. *)
Theorem neg_spec v :
  exists n, TaskVector.__neg__ v = inr n /\
    (forall k, dict_get (TaskVector.vector n) k =
               tensor_neg <$> dict_get (TaskVector.vector v) k) /\
    (NoDup (dict_keys (TaskVector.vector v)) ->
     dict_keys (TaskVector.vector n) = dict_keys (TaskVector.vector v)).
Proof.
  destruct (neg_lookup v) as (n & Hn & Hget).
  exists n. split; [done|]. split; [done|]. intros Hnd.
  unfold TaskVector.__neg__ in Hn.
  destruct (TaskVector.neg_loop _ _ _) as [e|d] eqn:Hd; [done|].
  cbn in Hn. injection Hn as <-. cbn [TaskVector.vector].
  rewrite (neg_loop_keys (TaskVector.vector v) _ [] d Hnd); [done| |exact Hd].
  intros k _. apply not_elem_of_nil.
Qed.

Lemma add_lookup a b :
  (forall k x y, dict_get (TaskVector.vector a) k = Some x ->
     dict_get (TaskVector.vector b) k = Some y ->
     is_Some (broadcast_shapes (shape x) (shape y))) ->
  exists s,
    TaskVector.__add__ a b =
      inr (s, TaskVector.add_warning <$>
                filter (fun k => dict_contains (TaskVector.vector b) k = false)
                  (dict_keys (TaskVector.vector a))) /\
    forall k, dict_get (TaskVector.vector s) k =
              sum_at (TaskVector.vector a) (TaskVector.vector b) k.
Proof.
  intros Hbc. destruct a as [da], b as [db]. cbn [TaskVector.vector] in *.
  destruct (add_loop_lookup da db (dict_keys da) [] []) as (d & Hd & Hget).
  { intros k Hk. by apply dict_get_is_Some. }
  { intros k x y _. apply Hbc. }
  exists (TaskVector.mk d). split.
  - unfold TaskVector.__add__. cbn [TaskVector.vector]. by rewrite Hd.
  - intros k. cbn [TaskVector.vector]. rewrite Hget.
    destruct (decide (k ∈ dict_keys da)) as [|Hnin].
    + by destruct (sum_at da db k).
    + apply dict_get_None in Hnin. unfold sum_at. by rewrite Hnin.
Qed.

End AlgebraFacts.


(** ** Addition does not depend on the order of its operands *)

Lemma broadcast_rev_comm (s1 s2 : list nat) :
  broadcast_rev s1 s2 = broadcast_rev s2 s1.
Proof.
  revert s2. induction s1 as [|d1 r1 IH]; intros [|d2 r2]; [done..|].
  cbn [broadcast_rev]. rewrite (IH r2).
  destruct (broadcast_rev r2 r1) as [r|]; [|done].
  destruct (Nat.eqb_spec d1 d2) as [->|Hne].
  - by rewrite Nat.eqb_refl.
  - destruct (Nat.eqb_spec d2 d1) as [|_]; [congruence|].
    destruct (Nat.eqb_spec d1 1) as [->|H1], (Nat.eqb_spec d2 1) as [->|H2];
      done.
Qed.

Lemma broadcast_shapes_comm (s1 s2 : list nat) :
  broadcast_shapes s1 s2 = broadcast_shapes s2 s1.
Proof. unfold broadcast_shapes. by rewrite broadcast_rev_comm. Qed.

Lemma promote_types_comm (a b : DType) : promote_types a b = promote_types b a.
Proof. by destruct a, b. Qed.

Section AddCommutes.
Context {E : Type} `{Scalar E}.
Hypothesis add_comm : forall x y : E, add x y = add y x.

Lemma result_type_comm (x y : Tensor E) : result_type x y = result_type y x.
Proof.
  unfold result_type.
  destruct (shape x), (shape y); try done; apply promote_types_comm.
Qed.

Lemma tensor_add_comm (x y : Tensor E) : tensor_add x y = tensor_add y x.
Proof.
  unfold tensor_add, binary_op. rewrite (broadcast_shapes_comm (shape y)).
  destruct (broadcast_shapes (shape x) (shape y)) as [s|]; [|done].
  rewrite (result_type_comm y x). do 2 f_equal.
  apply list_fmap_ext. intros _ i _. apply add_comm.
Qed.

(** X5.  Where addition of scalars is commutative, [a + b] and [b + a] hold
    the same tensor under every key; only the warnings differ, since each
    reports the keys of its left operand. *)
Theorem add_commutes (a b : TaskVector.t (E := E)) :
  (forall k x y, dict_get (TaskVector.vector a) k = Some x ->
     dict_get (TaskVector.vector b) k = Some y ->
     is_Some (broadcast_shapes (shape x) (shape y))) ->
  exists s1 s2,
    TaskVector.__add__ a b =
      inr (s1, TaskVector.add_warning <$>
                 filter (fun k => dict_contains (TaskVector.vector b) k = false)
                   (dict_keys (TaskVector.vector a))) /\
    TaskVector.__add__ b a =
      inr (s2, TaskVector.add_warning <$>
                 filter (fun k => dict_contains (TaskVector.vector a) k = false)
                   (dict_keys (TaskVector.vector b))) /\
    forall k, dict_get (TaskVector.vector s1) k = dict_get (TaskVector.vector s2) k.
Proof.
  intros Hbc.
  destruct (add_lookup a b Hbc) as (s1 & Hs1 & Hget1).
  destruct (add_lookup b a) as (s2 & Hs2 & Hget2).
  { intros k y x Hy Hx. rewrite broadcast_shapes_comm. by apply (Hbc k). }
  exists s1, s2. split; [done|]. split; [done|].
  intros k. rewrite Hget1, Hget2. unfold sum_at.
  destruct (dict_get (TaskVector.vector a) k) as [x|],
           (dict_get (TaskVector.vector b) k) as [y|]; try done.
  by rewrite tensor_add_comm.
Qed.

End AddCommutes.


Lemma nth_fmap_lt {A B : Type} (f : A -> B) (l : list A) (i : nat) (a : A) (b : B) :
  i < length l -> nth i (f <$> l) b = f (nth i l a).
Proof.
  revert i. induction l as [|x l IH]; intros [|i] Hi; cbn in *; try lia; [done|].
  apply IH. lia.
Qed.

Lemma nth_fmap_seq {B : Type} (g : nat -> B) (n i : nat) (b : B) :
  i < n -> nth i (g <$> seq 0 n) b = g i.
Proof.
  intros Hi. rewrite (nth_fmap_lt g _ i 0) by (by rewrite length_seq).
  by rewrite seq_nth.
Qed.

(** ** A vector and its negation cancel *)

Section Cancellation.
Context {E : Type} `{Scalar E}.
Hypothesis add_neg : forall x : E, add x (neg x) = zero.

Lemma tensor_add_neg (x : Tensor E) :
  length (data x) = numel (shape x) ->
  tensor_add x (tensor_neg x) = inr (zeros_ x).
Proof.
  intros Hlen. unfold tensor_add.
  rewrite binary_op_same_shape by done.
  rewrite result_type_same by done. unfold zeros_. do 2 f_equal.
  cbn [tensor_neg data]. rewrite (const_fmap _ _ zero).
  - by rewrite length_seq.
  - intros j i Hj. apply lookup_seq in Hj as [-> Hlt]. cbn [Nat.add].
    rewrite (nth_fmap_lt neg _ j zero) by lia. apply add_neg.
Qed.

(** X7.  In exact arithmetic [v + (-v)] is the zero vector: nothing is
    reported, and every key of [v] holds zeros of the shape and dtype it
    has in [v]. *)
Theorem add_neg_cancels (v : TaskVector.t (E := E)) :
  (forall k x, dict_get (TaskVector.vector v) k = Some x ->
     length (data x) = numel (shape x)) ->
  exists n s, TaskVector.__neg__ v = inr n /\
              TaskVector.__add__ v n = inr (s, []) /\
              forall k, dict_get (TaskVector.vector s) k =
                        zeros_ <$> dict_get (TaskVector.vector v) k.
Proof.
  intros Hwf. destruct (neg_lookup v) as (n & Hn & Hneg).
  destruct (add_lookup v n) as (s & Hs & Hget).
  { intros k x y Hx Hy. rewrite Hneg, Hx in Hy. injection Hy as <-.
    cbn [tensor_neg shape]. by rewrite broadcast_shapes_refl. }
  exists n, s. split; [done|]. split.
  - rewrite Hs. rewrite filter_none; [done|].
    intros k Hk. apply dict_get_is_Some in Hk as [x Hx].
    unfold dict_contains. by rewrite Hneg, Hx.
  - intros k. rewrite Hget. unfold sum_at. rewrite Hneg.
    destruct (dict_get (TaskVector.vector v) k) as [x|] eqn:Hx; [|done].
    cbn [fmap option_fmap option_map]. by rewrite (tensor_add_neg x (Hwf k x Hx)).
Qed.

End Cancellation.


(** ** Applying a vector: what the new encoder holds *)

Section ApplyLoaded.
Context {E : Type} `{Scalar E}.

(** When every update has the shape of the parameter it replaces,
    [apply_to] returns the base with the updates loaded into it. *)
Lemma apply_to_loaded (v : TaskVector.t (E := E)) (base : dict (Tensor E))
    (scaling_coef : option E) :
  NoDup (dict_keys base) ->
  (forall k p t, dict_get base k = Some p ->
     dict_get (TaskVector.vector v) k = Some t ->
     exists s, tensor_add p (scalar_mul (default one scaling_coef) t) = inr s /\
               shape s = shape p) ->
  exists d,
    TaskVector.apply_to v base scaling_coef =
      inr (loaded d <$> base,
           TaskVector.apply_warning <$>
             filter (fun k => dict_contains (TaskVector.vector v) k = false)
               (dict_keys base)) /\
    forall k, k ∈ dict_keys base ->
      dict_get d k = update_at (TaskVector.vector v) base (default one scaling_coef) k.
Proof.
  intros Hnd Hfit. destruct v as [dv]. cbn [TaskVector.vector] in *.
  set (c := default one scaling_coef) in *.
  destruct (apply_loop_lookup dv base c (dict_keys base) [] []) as (d & Hd & Hget).
  { intros k Hk. by apply dict_get_is_Some. }
  { intros k p t _ Hp Ht. destruct (Hfit k p t Hp Ht) as (s & Hs & _).
    apply binary_op_shape in Hs.
    change (shape (scalar_mul c t)) with (shape t) in Hs. by rewrite Hs. }
  assert (Hin : forall k, k ∈ dict_keys base -> dict_get d k = update_at dv base c k).
  { intros k Hk. rewrite Hget, decide_True by done.
    by destruct (update_at dv base c k). }
  exists d. split; [|done].
  unfold TaskVector.apply_to, TaskVector.deepcopy, TaskVector.state_dict.
  cbn [TaskVector.vector]. fold c. rewrite Hd. cbn [mbind result_bind app].
  rewrite load_state_dict_fits; [done|].
  intros name param x Hmem Hx.
  apply (dict_get_elem_NoDup _ _ _ Hnd) in Hmem.
  rewrite Hin in Hx by (apply dict_get_is_Some; by rewrite Hmem).
  unfold update_at in Hx. rewrite Hmem in Hx.
  destruct (dict_get dv name) as [t|] eqn:Ht; [|done].
  destruct (Hfit name param t Hmem Ht) as (s & Hs & Hshape).
  rewrite Hs in Hx. by injection Hx as <-.
Qed.

End ApplyLoaded.

(** ** The vector of a fine-tuning, applied to the pretrained model *)

Section RoundTrip.
Context {E : Type} `{Scalar E}.
Hypothesis add_sub_cancel : forall p f : E, add p (mul one (sub f p)) = f.

Lemma tensor_round_trip (p f : Tensor E) :
  shape f = shape p -> dtype f = dtype p -> is_floating_point (dtype p) = true ->
  length (data f) = numel (shape f) ->
  exists d, tensor_sub f p = inr d /\ tensor_add p (scalar_mul one d) = inr f.
Proof.
  intros Hs Hd Hfl Hlen. unfold tensor_sub, tensor_add.
  rewrite (binary_op_same_shape sub f p) by done.
  rewrite (result_type_same f p) by done.
  eexists. split; [done|].
  rewrite binary_op_same_shape by (by cbn [scalar_mul shape]).
  rewrite result_type_same.
  - destruct f as [df sf xf]. cbn [dtype shape data] in *. subst df sf.
    do 2 f_equal. cbn [scalar_mul data].
    transitivity ((fun i => nth i xf zero) <$> seq 0 (length xf));
      [|apply fmap_nth_seq]. rewrite Hlen.
    apply list_fmap_ext. intros j i Hj. apply lookup_seq in Hj as [-> Hlt].
    cbn [Nat.add].
    rewrite (nth_fmap_lt (mul one) _ j zero)
      by (by rewrite length_fmap, length_seq).
    rewrite nth_fmap_seq by done. apply add_sub_cancel.
  - by cbn [scalar_mul shape].
  - cbn [scalar_mul dtype]. by rewrite Hd, Hfl.
Qed.

(** X9.  In exact arithmetic, and for floating-point parameters of matching
    shapes, applying [TaskVector(pre, fin)] to [pre] with the default
    coefficient gives [fin] back under every key that the vector holds.
    The keys of dtype [torch.int64] or [torch.uint8] keep the value they
    have in [pre], each with a warning. *)
Theorem apply_construct_round_trip (pre fin : dict (Tensor E)) :
  NoDup (dict_keys pre) ->
  (forall k p, dict_get pre k = Some p -> dtype p ∉ [int64; uint8] ->
     is_floating_point (dtype p) = true /\
     exists f, dict_get fin k = Some f /\ shape f = shape p /\ dtype f = dtype p /\
               length (data f) = numel (shape f)) ->
  exists v m out,
    TaskVector.construct pre fin = inr v /\
    TaskVector.apply_to v pre None = inr (m, out) /\
    dict_keys m = dict_keys pre /\
    (forall k p, dict_get pre k = Some p -> dtype p ∉ [int64; uint8] ->
       dict_get m k = dict_get fin k) /\
    (forall k p, dict_get pre k = Some p -> dtype p ∈ [int64; uint8] ->
       dict_get m k = Some p /\ TaskVector.apply_warning k ∈ out).
Proof.
  intros Hnd Hfin.
  destruct (init_loop_lookup pre fin (dict_keys pre) []) as (dv & Hdv & Hget).
  { intros k Hk. by apply dict_get_is_Some. }
  { intros k p _ Hp Hd. destruct (Hfin k p Hp Hd) as (_ & f & Hf & Hs & _).
    exists f. split; [done|]. by rewrite Hs, broadcast_shapes_refl. }
  assert (Hlook : forall k, dict_get dv k = delta_at pre fin k).
  { intros k. rewrite Hget. destruct (decide (k ∈ dict_keys pre)) as [Hin|Hnin].
    - by destruct (delta_at pre fin k).
    - apply dict_get_None in Hnin. unfold delta_at. by rewrite Hnin. }
  assert (Hkept : forall k p, dict_get pre k = Some p -> dtype p ∉ [int64; uint8] ->
            exists f d, dict_get fin k = Some f /\ dict_get dv k = Some d /\
                        tensor_add p (scalar_mul one d) = inr f /\
                        shape f = shape p /\ dtype f = dtype p).
  { intros k p Hp Hd. destruct (Hfin k p Hp Hd) as (Hfl & f & Hf & Hs & Hdt & Hlen).
    destruct (tensor_round_trip p f Hs Hdt Hfl Hlen) as (d & Hsub & Hadd).
    exists f, d. split; [done|]. split; [|done].
    rewrite Hlook. unfold delta_at.
    by rewrite Hp, bool_decide_eq_false_2, Hf, Hsub by done. }
  assert (Hskipped : forall k p, dict_get pre k = Some p -> dtype p ∈ [int64; uint8] ->
            dict_get dv k = None).
  { intros k p Hp Hd. rewrite Hlook. unfold delta_at.
    by rewrite Hp, bool_decide_eq_true_2. }
  destruct (apply_to_loaded (TaskVector.mk dv) pre None Hnd) as (d & Hrun & Hd).
  { intros k p t Hp Ht. cbn [TaskVector.vector default] in *.
    destruct (decide (dtype p ∈ [int64; uint8])) as [Hex|Hex].
    - by rewrite (Hskipped k p Hp Hex) in Ht.
    - destruct (Hkept k p Hp Hex) as (f & d0 & _ & Hd0 & Hadd & Hs & _).
      rewrite Hd0 in Ht. injection Ht as <-. by exists f. }
  cbn [TaskVector.vector default] in *.
  exists (TaskVector.mk dv). eexists _, _. split.
  { unfold TaskVector.construct, TaskVector.__init__, TaskVector.state_dict.
    by rewrite Hdv. }
  split; [exact Hrun|]. split; [apply dict_keys_loaded|]. split.
  - intros k p Hp Hex.
    destruct (Hkept k p Hp Hex) as (f & d0 & Hf & Hd0 & Hadd & Hs & Hdt).
    rewrite dict_get_loaded, Hp, Hd by (apply dict_get_is_Some; by rewrite Hp).
    unfold update_at. rewrite Hd0, Hp, Hadd, Hf. cbn.
    by rewrite copy__same.
  - intros k p Hp Hex. split.
    + rewrite dict_get_loaded, Hp, Hd by (apply dict_get_is_Some; by rewrite Hp).
      unfold update_at. by rewrite (Hskipped k p Hp Hex).
    + apply list_elem_of_fmap. exists k. split; [done|].
      apply list_elem_of_filter. split.
      * apply dict_contains_false. by apply (Hskipped k p).
      * apply dict_get_is_Some. by rewrite Hp.
Qed.

End RoundTrip.

(** ** The coefficient zero *)

Section ZeroCoefficient.
Context {E : Type} `{Scalar E}.
Hypothesis mul_zero : forall x : E, mul zero x = zero.
Hypothesis add_zero : forall x : E, add x zero = x.

Lemma tensor_add_zero_scaled (p t : Tensor E) :
  shape t = shape p -> dtype t = dtype p -> is_floating_point (dtype p) = true ->
  length (data p) = numel (shape p) -> length (data t) = numel (shape t) ->
  tensor_add p (scalar_mul zero t) = inr p.
Proof.
  intros Hs Hd Hfl Hlenp Hlent. unfold tensor_add.
  rewrite binary_op_same_shape by (by cbn [scalar_mul shape]).
  rewrite result_type_same.
  - destruct p as [dp sp xp]. cbn [dtype shape data] in *.
    do 2 f_equal. cbn [scalar_mul data].
    transitivity ((fun i => nth i xp zero) <$> seq 0 (length xp));
      [|apply fmap_nth_seq]. rewrite Hlenp.
    apply list_fmap_ext. intros j i Hj. apply lookup_seq in Hj as [-> Hlt].
    cbn [Nat.add].
    rewrite (nth_fmap_lt (mul zero) _ j zero) by (rewrite Hlent, Hs; lia).
    by rewrite mul_zero, add_zero.
  - by cbn [scalar_mul shape].
  - cbn [scalar_mul dtype]. by rewrite Hd, Hfl.
Qed.

(** X10.  In exact arithmetic, with the coefficient [0.0] the new encoder is
    equal to the base, whatever the vector holds under the keys of the
    base, as long as it has their shapes and their floating-point dtype. *)
Theorem apply_to_zero_coefficient (v : TaskVector.t (E := E))
    (base : dict (Tensor E)) :
  NoDup (dict_keys base) ->
  (forall k p, dict_get base k = Some p -> length (data p) = numel (shape p)) ->
  (forall k p t, dict_get base k = Some p ->
     dict_get (TaskVector.vector v) k = Some t ->
     shape t = shape p /\ dtype t = dtype p /\
     is_floating_point (dtype p) = true /\ length (data t) = numel (shape t)) ->
  TaskVector.apply_to v base (Some zero) =
    inr (base,
         TaskVector.apply_warning <$>
           filter (fun k => dict_contains (TaskVector.vector v) k = false)
             (dict_keys base)).
Proof.
  intros Hnd Hwf Hfit.
  assert (Hsame : forall k p t, dict_get base k = Some p ->
            dict_get (TaskVector.vector v) k = Some t ->
            tensor_add p (scalar_mul zero t) = inr p).
  { intros k p t Hp Ht. destruct (Hfit k p t Hp Ht) as (Hs & Hd & Hfl & Hlen).
    apply tensor_add_zero_scaled; try done. by apply (Hwf k). }
  destruct (apply_to_loaded v base (Some zero) Hnd) as (d & Hrun & Hd).
  { intros k p t Hp Ht. exists p. split; [|done]. by apply (Hsame k). }
  rewrite Hrun. do 2 f_equal.
  rewrite <- (list_fmap_id base) at 2. apply list_fmap_ext.
  intros i [k p] Hi. unfold loaded. cbn [fst snd id]. f_equal.
  apply list_elem_of_lookup_2 in Hi.
  pose proof (dict_get_elem_NoDup _ _ _ Hnd Hi) as Hp.
  rewrite Hd by (apply dict_get_is_Some; by rewrite Hp).
  unfold update_at. rewrite Hp.
  destruct (dict_get (TaskVector.vector v) k) as [t|] eqn:Ht; [|done].
  change (default one (Some zero)) with (zero : E).
  rewrite (Hsame k p t Hp Ht). by apply copy__same.
Qed.

End ZeroCoefficient.


(** ** The sum of a list of task vectors *)

Section SumFacts.
Context {E : Type} `{Scalar E}.
Implicit Types (u v s : TaskVector.t (E := E)) (k : string).

Lemma total_at_None (rest : list (TaskVector.t (E := E))) k :
  total_at None rest k = None.
Proof. induction rest as [|u rest IH]; [done|]. exact IH. Qed.

Lemma add_at_same_shape (x y : Tensor E) :
  shape y = shape x ->
  exists c, add_at (Some x) (Some y) = Some c /\ shape c = shape x.
Proof.
  intros Hs. unfold add_at, tensor_add.
  rewrite binary_op_same_shape by done. by eexists.
Qed.

Lemma total_at_shape (sh : string -> list nat) k (rest : list (TaskVector.t (E := E)))
    (acc : option (Tensor E)) :
  (forall x, acc = Some x -> shape x = sh k) ->
  (forall u x, u ∈ rest -> dict_get (TaskVector.vector u) k = Some x ->
     shape x = sh k) ->
  (is_Some (total_at acc rest k) <->
     is_Some acc /\ forall u, u ∈ rest -> is_Some (dict_get (TaskVector.vector u) k)) /\
  (forall x, total_at acc rest k = Some x -> shape x = sh k).
Proof.
  revert acc. induction rest as [|u rest IH]; intros acc Hacc Hrest.
  - split; [|exact Hacc]. cbn. split; [|by intros [? _]].
    intros Hs. split; [done|]. intros u Hu. by apply elem_of_nil in Hu.
  - assert (Hrest' : forall u' x, u' ∈ rest ->
              dict_get (TaskVector.vector u') k = Some x -> shape x = sh k).
    { intros u' x Hu'. apply Hrest. by apply list_elem_of_further. }
    change (total_at acc (u :: rest) k)
      with (total_at (add_at acc (dict_get (TaskVector.vector u) k)) rest k).
    destruct acc as [x|]; [|].
    + destruct (dict_get (TaskVector.vector u) k) as [y|] eqn:Hy.
      * assert (Hsy : shape y = shape x).
        { rewrite (Hacc x eq_refl). apply (Hrest u); [apply list_elem_of_here|done]. }
        destruct (add_at_same_shape x y Hsy) as (c & -> & Hc).
        destruct (IH (Some c)) as [Hiff Hshape]; [|done|].
        { intros ? [= <-]. rewrite Hc. by apply Hacc. }
        split; [|done]. rewrite Hiff. split.
        -- intros [_ Hall]. split; [done|]. intros u' Hu'.
           apply elem_of_cons in Hu' as [->|Hu']; [by rewrite Hy | by apply Hall].
        -- intros [_ Hall]. split; [done|]. intros u' Hu'.
           apply Hall. by apply list_elem_of_further.
      * cbn [add_at]. rewrite total_at_None. split; [|done]. split.
        -- by intros [? ?].
        -- intros [_ Hall]. specialize (Hall u (list_elem_of_here _ _)).
           rewrite Hy in Hall. by destruct Hall.
    + cbn [add_at]. rewrite total_at_None. split; [|done]. split.
      * by intros [? ?].
      * intros [[? ?] _]. done.
Qed.

Lemma sum_loop_total (sh : string -> list nat) (rest : list (TaskVector.t (E := E))) :
  (forall u k x, u ∈ rest -> dict_get (TaskVector.vector u) k = Some x ->
     shape x = sh k) ->
  forall s (out : list string),
  (forall k x, dict_get (TaskVector.vector s) k = Some x -> shape x = sh k) ->
  exists s' out',
    Arithmetic.sum_loop rest (TaskVector.PyTaskVector s) out =
      inr (TaskVector.PyTaskVector s', out') /\
    forall k, dict_get (TaskVector.vector s') k =
              total_at (dict_get (TaskVector.vector s) k) rest k.
Proof.
  induction rest as [|u rest IH]; intros Hrest s out Hs.
  { exists s, out. by split. }
  cbn [Arithmetic.sum_loop Arithmetic.py_add].
  destruct (add_lookup s u) as (s1 & Hs1 & Hget1).
  { intros k x y Hx Hy. rewrite (Hs k x Hx).
    rewrite (Hrest u k y (list_elem_of_here _ _) Hy).
    by rewrite broadcast_shapes_refl. }
  rewrite Hs1. cbn [mbind result_bind].
  destruct (IH ltac:(intros u' k x Hu'; apply Hrest; by apply list_elem_of_further)
              s1 (out ++ (TaskVector.add_warning <$>
                            filter (fun k => dict_contains (TaskVector.vector u) k = false)
                              (dict_keys (TaskVector.vector s)))))
    as (s' & out' & Hrun & Hget).
  { intros k c Hc. rewrite Hget1 in Hc. unfold sum_at in Hc.
    destruct (dict_get (TaskVector.vector s) k) as [x|] eqn:Hx; [|done].
    destruct (dict_get (TaskVector.vector u) k) as [y|] eqn:Hy; [|done].
    assert (Hsy : shape y = shape x).
    { rewrite (Hs k x Hx). by apply (Hrest u k y (list_elem_of_here _ _)). }
    destruct (add_at_same_shape x y Hsy) as (c' & Hc' & Hshape).
    unfold add_at in Hc'. rewrite Hc' in Hc. injection Hc as <-.
    rewrite Hshape. by apply (Hs k). }
  exists s', out'. split; [done|]. intros k. rewrite Hget, Hget1. done.
Qed.

(** X8.  [sum(items)] as arithmetic.py builds the multi-task vector: of no
    vector it is the int [0]; of one vector it is that vector itself,
    not a copy; of more, with tensors of one shape per key, it is the
    vector that holds, under every key that all of them have, the tensors
    added from the left, and nothing under the other keys. *)
Theorem sum_spec (sh : string -> list nat) (items : list (TaskVector.t (E := E))) :
  (forall u k x, u ∈ items -> dict_get (TaskVector.vector u) k = Some x ->
     shape x = sh k) ->
  match items with
  | [] => Arithmetic.sum items = inr (TaskVector.PyInt 0, [])
  | v :: rest =>
      exists s out,
        Arithmetic.sum items = inr (TaskVector.PyTaskVector s, out) /\
        (rest = [] -> s = v /\ out = []) /\
        (forall k, dict_get (TaskVector.vector s) k =
                   total_at (dict_get (TaskVector.vector v) k) rest k) /\
        (forall k, is_Some (dict_get (TaskVector.vector s) k) <->
                   forall u, u ∈ items -> is_Some (dict_get (TaskVector.vector u) k))
  end.
Proof.
  intros Hsh. destruct items as [|v rest]; [done|].
  destruct (sum_loop_total sh rest) with (s := v) (out := @nil string)
    as (s & out & Hrun & Hget).
  { intros u k x Hu. apply Hsh. by apply list_elem_of_further. }
  { intros k x. apply Hsh, list_elem_of_here. }
  exists s, out. split; [|split; [|split]].
  - unfold Arithmetic.sum. cbn [Arithmetic.sum_loop Arithmetic.py_add].
    unfold TaskVector.__radd__. cbn [mbind result_bind app]. exact Hrun.
  - intros ->. cbn in Hrun. by injection Hrun as <- <-.
  - exact Hget.
  - intros k. rewrite Hget.
    destruct (total_at_shape sh k rest (dict_get (TaskVector.vector v) k))
      as [Hiff _].
    { intros x. apply Hsh, list_elem_of_here. }
    { intros u x Hu. apply Hsh. by apply list_elem_of_further. }
    rewrite Hiff. split.
    + intros [Hv Hall] u Hu.
      apply elem_of_cons in Hu as [->|Hu]; [done | by apply Hall].
    + intros Hall. split; [apply Hall, list_elem_of_here|].
      intros u Hu. apply Hall. by apply list_elem_of_further.
Qed.

End SumFacts.


(** ** Saving a vector: what it leaves of the file system *)

Section SaveFacts.
Context {E : Type} `{Scalar E}.
Implicit Types (fs : Persistence.FileSystem (E := E)) (name path : string).







End SaveFacts.



(** ** The delta layer after training: back to a zero correction *)

Section DeltaReset.
Context {E : Type} `{ZeroLaws E}.

Lemma zeros__reads_zero (t : Tensor E) : reads_zero (data (zeros_ t)).
Proof. apply reads_zero_replicate. Qed.

(** The low-rank mode with a zero [B]: the correction is zero whatever
    [A] and [U] hold. *)
Lemma forward_zero_low_rank (n k : nat) (r alpha : Z) (bias : bool)
    (a b u : Tensor E) (D bb : option (Tensor E)) (x : Tensor E) (lead : list nat) :
  (0 < r)%Z ->
  shape u = [n; n] -> dtype u = float32 ->
  shape a = [k; n] -> dtype a = float32 ->
  shape b = [n; k] -> dtype b = float32 -> reads_zero (data b) ->
  shape x = lead ++ [n] -> dtype x = float32 ->
  exists y,
    Delta.forward (Delta.mkLoRALayer n n r alpha bias (Some a) (Some b) D bb (Some u)) x
      = inr y /\
    shape y = lead ++ [n] /\ dtype y = float32 /\
    data y = replicate (numel (lead ++ [n])) zero.
Proof.
  intros Hr Hus Hud Has Had Hbs Hbd Hbz Hx Hdx.
  assert (Hxu : dtype x = dtype u) by (by rewrite Hdx, Hud).
  pose proof (linear_defined x u lead n n Hus Hx Hxu) as HxU.
  set (xU := mkTensor _ _ _) in HxU.
  assert (HxUs : shape xU = lead ++ [n]) by done.
  assert (HxUd : dtype xU = float32) by done.
  unfold Delta.forward. cbn [Delta.r Delta.U Delta.A Delta.B Delta.alpha].
  apply Z.ltb_lt in Hr. rewrite Hr. cbn [Delta.getattr mbind result_bind].
  rewrite HxU. cbn [mbind result_bind].
  destruct (matmul_zero_l b a n k n) as (ba & -> & Hbas & Hbad & Hbaz);
    [done|done|by rewrite Hbd, Had|done|].
  cbn [mbind result_bind].
  destruct (linear_zero_weight xU ba lead n n Hbas HxUs)
    as (xUW & -> & HxUWs & HxUWt & HxUWd); [by rewrite Hbad, Hbd|done|].
  cbn [mbind result_bind].
  destruct (linear_zero_input xUW (transpose u) lead n n)
    as (y & -> & Hys & Hyt & Hyd);
    [by apply transpose_shape|done|by rewrite HxUWt, transpose_dtype, Hud| |].
  { rewrite HxUWd. apply reads_zero_replicate. }
  cbn [mbind result_bind]. eexists. split; [done|]. split; [exact Hys|]. split.
  - cbn [div_int mul_int dtype]. by rewrite Hyt, HxUWt, HxUd.
  - cbn [div_int mul_int data]. rewrite Hyd, !fmap_replicate.
    by rewrite mul_zero_l, div_zero_l.
Qed.

(** The dense mode with a zero [D] and, with [bias], a zero [b] *)
Lemma forward_zero_dense (n : nat) (r alpha : Z) (bias : bool)
    (d u : Tensor E) (A B bb : option (Tensor E)) (x : Tensor E) (lead : list nat) :
  (r <= 0)%Z ->
  shape u = [n; n] -> dtype u = float32 ->
  shape d = [n; n] -> dtype d = float32 -> reads_zero (data d) ->
  (bias = true -> exists v, bb = Some v /\ shape v = [n] /\ dtype v = float32 /\
                            reads_zero (data v)) ->
  shape x = lead ++ [n] -> dtype x = float32 ->
  exists y,
    Delta.forward (Delta.mkLoRALayer n n r alpha bias A B (Some d) bb (Some u)) x
      = inr y /\
    shape y = lead ++ [n] /\ dtype y = float32 /\
    data y = replicate (numel (lead ++ [n])) zero.
Proof.
  intros Hr Hus Hud Hds Hdd Hdz Hbias Hx Hdx.
  assert (Hxu : dtype x = dtype u) by (by rewrite Hdx, Hud).
  pose proof (linear_defined x u lead n n Hus Hx Hxu) as HxU.
  set (xU := mkTensor _ _ _) in HxU.
  assert (HxUs : shape xU = lead ++ [n]) by done.
  assert (HxUd : dtype xU = float32) by done.
  destruct (linear_zero_weight xU d lead n n)
    as (xUW & HxUW & HxUWs & HxUWt & HxUWd); [done|done|by rewrite Hdd|done|].
  destruct (linear_zero_input xUW (transpose u) lead n n)
    as (y & Hy & Hys & Hyt & Hyd);
    [by apply transpose_shape|done|by rewrite HxUWt, transpose_dtype, Hud| |].
  { rewrite HxUWd. apply reads_zero_replicate. }
  assert (Hydt : dtype y = float32) by (by rewrite Hyt, HxUWt).
  unfold Delta.forward. cbn [Delta.r Delta.U Delta.D Delta.b Delta.bias].
  apply Z.ltb_ge in Hr. rewrite Hr.
  destruct bias; cbn [Delta.getattr mbind result_bind];
    rewrite HxU; cbn [mbind result_bind];
    rewrite HxUW; cbn [mbind result_bind];
    rewrite Hy; cbn [mbind result_bind].
  - destruct (Hbias eq_refl) as (v & -> & Hvs & Hvd & Hvz).
    cbn [Delta.getattr mbind result_bind].
    unfold tensor_add, binary_op. rewrite Hys, Hvs, broadcast_shapes_trailing.
    eexists. split; [done|]. cbn [shape dtype data]. split; [done|]. split.
    + unfold result_type. rewrite Hys, Hvs, Hydt, Hvd.
      by destruct (lead ++ [n]).
    + rewrite (const_fmap _ _ zero).
      * by rewrite length_seq.
      * intros i j _. unfold broadcast_at.
        rewrite Hyd, Hvz, (reads_zero_replicate _ _). apply add_zero_zero.
  - by exists y.
Qed.

(** [zero_parameters] and [reset_parameters] leave a square layer with a
    zero [B], or a zero [D] and [b]. *)
Lemma zero_parameters_forward (n : nat) (l : Delta.LoRALayer (E := E))
    (x : Tensor E) (lead : list nat) :
  square_layer n l -> shape x = lead ++ [n] -> dtype x = float32 ->
  exists l' y, Delta.zero_parameters l = inr l' /\ Delta.forward l' x = inr y /\
               shape y = lead ++ [n] /\ dtype y = float32 /\
               data y = replicate (numel (lead ++ [n])) zero.
Proof.
  intros (Hin & Hout & (u & HU & Hus & Hud) & Hmode) Hx Hdx.
  destruct l as [i o r alpha bias A B D bb U]. cbn in Hin, Hout, HU, Hmode.
  subst i o U. unfold Delta.zero_parameters. cbn [Delta.r Delta.A Delta.B Delta.D
    Delta.b Delta.bias].
  destruct (Z.ltb_spec 0 r) as [Hr|Hr].
  - destruct Hmode as (a & b & k & -> & -> & Has & Hbs & Had & Hbd).
    cbn [Delta.getattr mbind result_bind Delta.set_A Delta.set_B Delta.B
         Delta.in_features Delta.out_features Delta.r Delta.alpha Delta.bias
         Delta.A Delta.D Delta.b Delta.U].
    eexists. 
    destruct (forward_zero_low_rank n k r alpha bias (zeros_ a) (zeros_ b) u D bb
                x lead) as (y & Hy); try done.
    { apply zeros__reads_zero. }
    exists y. by split.
  - destruct Hmode as [(d & -> & Hds & Hdd) Hb].
    cbn [Delta.getattr mbind result_bind Delta.set_D Delta.bias
         Delta.in_features Delta.out_features Delta.r Delta.alpha
         Delta.A Delta.B Delta.D Delta.b Delta.U].
    destruct bias.
    + destruct (Hb eq_refl) as (v & -> & Hvs & Hvd).
      cbn [Delta.getattr mbind result_bind Delta.set_b Delta.bias
           Delta.in_features Delta.out_features Delta.r Delta.alpha
           Delta.A Delta.B Delta.D Delta.b Delta.U].
      eexists.
      destruct (forward_zero_dense n r alpha true (zeros_ d) u A B (Some (zeros_ v))
                  x lead) as (y & Hy); try done.
      { apply zeros__reads_zero. }
      { intros _. exists (zeros_ v). repeat split; try done.
        apply zeros__reads_zero. }
      exists y. by split.
    + eexists.
      destruct (forward_zero_dense n r alpha false (zeros_ d) u A B bb
                  x lead) as (y & Hy); try done.
      { apply zeros__reads_zero. }
      exists y. by split.
Qed.

Lemma reset_parameters_forward (n : nat) (l : Delta.LoRALayer (E := E))
    (drawn : list E) (x : Tensor E) (lead : list nat) :
  square_layer n l -> shape x = lead ++ [n] -> dtype x = float32 ->
  exists l' y, Delta.reset_parameters l drawn = inr l' /\ Delta.forward l' x = inr y /\
               shape y = lead ++ [n] /\ dtype y = float32 /\
               data y = replicate (numel (lead ++ [n])) zero.
Proof.
  intros (Hin & Hout & (u & HU & Hus & Hud) & Hmode) Hx Hdx.
  destruct l as [i o r alpha bias A B D bb U]. cbn in Hin, Hout, HU, Hmode.
  subst i o U. unfold Delta.reset_parameters. cbn [Delta.r Delta.A Delta.B Delta.D
    Delta.b Delta.bias].
  destruct (Z.ltb_spec 0 r) as [Hr|Hr].
  - destruct Hmode as (a & b & k & -> & -> & Has & Hbs & Had & Hbd).
    cbn [Delta.getattr mbind result_bind Delta.set_A Delta.set_B Delta.B
         Delta.in_features Delta.out_features Delta.r Delta.alpha Delta.bias
         Delta.A Delta.D Delta.b Delta.U].
    eexists.
    destruct (forward_zero_low_rank n k r alpha bias (kaiming_uniform_ a drawn)
                (zeros_ b) u D bb x lead) as (y & Hy); try done.
    { apply zeros__reads_zero. }
    exists y. by split.
  - destruct Hmode as [(d & -> & Hds & Hdd) Hb].
    cbn [Delta.getattr mbind result_bind Delta.set_D Delta.bias
         Delta.in_features Delta.out_features Delta.r Delta.alpha
         Delta.A Delta.B Delta.D Delta.b Delta.U].
    destruct bias.
    + destruct (Hb eq_refl) as (v & -> & Hvs & Hvd).
      cbn [Delta.getattr mbind result_bind Delta.set_b Delta.bias
           Delta.in_features Delta.out_features Delta.r Delta.alpha
           Delta.A Delta.B Delta.D Delta.b Delta.U].
      eexists.
      destruct (forward_zero_dense n r alpha true (zeros_ d) u A B (Some (zeros_ v))
                  x lead) as (y & Hy); try done.
      { apply zeros__reads_zero. }
      { intros _. exists (zeros_ v). repeat split; try done.
        apply zeros__reads_zero. }
      exists y. by split.
    + eexists.
      destruct (forward_zero_dense n r alpha false (zeros_ d) u A B bb
                  x lead) as (y & Hy); try done.
      { apply zeros__reads_zero. }
      exists y. by split.
Qed.

(** X13.  In exact arithmetic, a square layer whose parameters hold any values
    gives a zero correction again once [zero_parameters] or
    [reset_parameters] has run, whatever [U] has become and whatever
    [reset_parameters] draws for [A]. *)
Theorem parameters_reset_to_zero (n : nat) (l : Delta.LoRALayer (E := E))
    (drawn : list E) (x : Tensor E) (lead : list nat) :
  square_layer n l -> shape x = lead ++ [n] -> dtype x = float32 ->
  (exists l' y, Delta.zero_parameters l = inr l' /\ Delta.forward l' x = inr y /\
                shape y = lead ++ [n] /\
                data y = replicate (numel (lead ++ [n])) zero) /\
  (exists l' y, Delta.reset_parameters l drawn = inr l' /\ Delta.forward l' x = inr y /\
                shape y = lead ++ [n] /\
                data y = replicate (numel (lead ++ [n])) zero).
Proof.
  intros Hl Hx Hdx. split.
  - destruct (zero_parameters_forward n l x lead Hl Hx Hdx)
      as (l' & y & Hrun & Hy & Hs & _ & Hd).
    by exists l', y.
  - destruct (reset_parameters_forward n l drawn x lead Hl Hx Hdx)
      as (l' & y & Hrun & Hy & Hs & _ & Hd).
    by exists l', y.
Qed.

End DeltaReset.


(** ** The wrapper [Linear] *)

Section LinearFacts.
Context {E : Type} `{Scalar E}.

(** X16.  Without a bias the wrapper cannot be built: [nn.Linear] is created
    without one, and [self.Pre.bias.copy_] is then looked up on [None].
    A weight that does not fit fails before that. *)
Theorem Linear_needs_bias (in_features out_features : nat) (r alpha : Z)
    (weight : Tensor E) (drawn_weight drawn_bias drawn drawn' : list E) :
  Linear.__init__ in_features out_features r alpha weight None
    drawn_weight drawn_bias drawn drawn' =
  if decide (broadcast_shapes [out_features; in_features] (shape weight)
             = Some [out_features; in_features])
  then inl (AttributeError "copy_")
  else inl (RuntimeError "The size of tensor a must match the size of tensor b").
Proof.
  unfold Linear.__init__, Linear.nn_Linear, Linear.copy_expand.
  cbn [fst snd kaiming_uniform_ empty shape dtype].
  by destruct (decide _).
Qed.

Lemma init_square_layer (n : nat) (r alpha : Z) (bias : bool) (drawn : list E) :
  exists l, Delta.__init__ n n r alpha bias drawn = inr l /\ square_layer n l.
Proof.
  destruct (Z.ltb_spec 0 r) as [Hr|Hr].
  - rewrite init_low_rank by done. eexists. split; [done|].
    unfold square_layer. cbn [Delta.in_features Delta.out_features Delta.U Delta.r
      Delta.A Delta.B].
    apply Z.ltb_lt in Hr. rewrite Hr.
    split; [done|]. split; [done|]. split; [by eexists|].
    eexists _, _, (Z.to_nat r). by repeat split.
  - rewrite init_dense by done. eexists. split; [done|].
    unfold square_layer. cbn [Delta.in_features Delta.out_features Delta.U Delta.r
      Delta.D Delta.b Delta.bias].
    apply Z.ltb_ge in Hr. rewrite Hr.
    split; [done|]. split; [done|]. split; [by eexists|]. split; [by eexists|].
    intros ->. by eexists.
Qed.

End LinearFacts.

Section LinearTransparent.
Context {E : Type} `{ZeroLaws E}.
Hypothesis add_zero : forall x : E, add x zero = x.

Lemma tensor_add_zeros (p z : Tensor E) :
  shape z = shape p -> dtype z = dtype p -> reads_zero (data z) ->
  length (data p) = numel (shape p) ->
  tensor_add p z = inr p.
Proof.
  intros Hs Hd Hz Hlen. unfold tensor_add.
  rewrite binary_op_same_shape by done. rewrite result_type_same by done.
  destruct p as [dp sp xp]. cbn [dtype shape data] in *. do 2 f_equal.
  transitivity ((fun i => nth i xp zero) <$> seq 0 (length xp));
    [|apply fmap_nth_seq]. rewrite Hlen.
  apply list_fmap_ext. intros j i _. by rewrite Hz, add_zero.
Qed.

(** X15.  In exact arithmetic a freshly built wrapper of [n] features in and
    out computes what its frozen [Pre] computes: the delta adds zero. *)
Theorem Linear_transparent_at_init (n : nat) (r alpha : Z) (weight b : Tensor E)
    (drawn_weight drawn_bias drawn drawn' : list E) (x : Tensor E) (lead : list nat) :
  broadcast_shapes [n; n] (shape weight) = Some [n; n] ->
  broadcast_shapes [n] (shape b) = Some [n] ->
  shape x = lead ++ [n] -> dtype x = float32 ->
  exists L y,
    Linear.__init__ n n r alpha weight (Some b) drawn_weight drawn_bias drawn drawn'
      = inr L /\
    Linear.Pre L x = inr y /\
    Linear.forward L x = inr y.
Proof.
  intros Hw Hb Hx Hdx.
  destruct (init_square_layer n r alpha true drawn) as (l0 & Hl0 & Hsq).
  destruct (reset_parameters_forward n l0 drawn' x lead Hsq Hx Hdx)
    as (l' & yd & Hreset & Hfw & Hyds & Hydt & Hydd).
  unfold Linear.__init__, Linear.nn_Linear, Linear.copy_expand.
  cbn [fst snd kaiming_uniform_ empty shape dtype].
  rewrite !decide_True by done. cbn [mbind result_bind].
  rewrite Hl0. cbn [mbind result_bind]. rewrite Hreset. cbn [mbind result_bind].
  eexists _, _. split; [done|].
  unfold Linear.forward, Linear.Pre.
  cbn [Delta.Pre_weight Delta.Pre_bias Delta.Delta].
  erewrite (linear_defined x _ lead n n); [|done|done|done].
  cbn [mbind result_bind].
  unfold tensor_add at 1 3, binary_op. cbn [shape].
  rewrite broadcast_shapes_trailing. cbn [mbind result_bind].
  split; [done|]. rewrite Hfw. cbn [mbind result_bind].
  apply tensor_add_zeros.
  - by rewrite Hyds.
  - rewrite Hydt. cbn [dtype]. unfold result_type. cbn [shape dtype].
    rewrite Hdx. by destruct (lead ++ [n]).
  - rewrite Hydd. apply reads_zero_replicate.
  - cbn [data shape]. by rewrite length_fmap, length_seq.
Qed.

End LinearTransparent.


(** ** [calculate_det] *)

Section DetFacts.
Context {E : Type} `{Scalar E} `{Determinant E}.

Lemma det_loop_fold (items : list (string * Tensor E)) (total : E) (count : nat)
    (ds : list E) :
  Forall2 (fun e d => linalg_det e.2 = inr d)
    (filter (fun e => str_contains "Delta.U" e.1 = true) items) ds ->
  OrthogonalFinetune.det_loop items total count =
    inr (foldl add total ds, count + length ds).
Proof.
  revert total count ds.
  induction items as [|[name param] items IH]; intros total count ds Hds.
  - apply Forall2_nil_inv_l in Hds as ->. cbn. by rewrite Nat.add_0_r.
  - cbn [OrthogonalFinetune.det_loop].
    destruct (str_contains "Delta.U" name) eqn:Hname.
    + rewrite filter_cons_True in Hds by done.
      apply Forall2_cons_inv_l in Hds as (d & ds' & Hd & Hds' & ->).
      cbn [snd] in Hd. rewrite Hd. cbn [mbind result_bind].
      rewrite (IH _ _ ds' Hds'). cbn [foldl length]. do 2 f_equal. lia.
    + rewrite filter_cons_False in Hds by (cbn; congruence).
      by apply IH.
Qed.

(** X17.  [calculate_det] returns the mean of the determinants of the entries
    whose name contains "Delta.U", added in the order of the state dict;
    when no name contains it, the division by the count [0] raises
    [ZeroDivisionError]. *)
Theorem calculate_det_spec (state_dict : dict (Tensor E)) (ds : list E) :
  Forall2 (fun e d => linalg_det e.2 = inr d)
    (filter (fun e => str_contains "Delta.U" e.1 = true) state_dict) ds ->
  OrthogonalFinetune.calculate_det state_dict =
    match ds with
    | [] => inl ZeroDivisionError
    | _ :: _ => inr (div (foldl add zero ds) (of_int (Z.of_nat (length ds))))
    end.
Proof.
  intros Hds. unfold OrthogonalFinetune.calculate_det.
  rewrite (det_loop_fold state_dict zero 0 ds Hds). cbn [mbind result_bind Nat.add].
  by destruct ds.
Qed.

End DetFacts.

(** Two rotations of determinant 1 and 3 among other parameters, and a
    state dict without any *)
Lemma calculate_det_spec_witness :
  OrthogonalFinetune.calculate_det
    [("q_proj.Pre.weight", ztensor [2; 2] [5; 6; 7; 8]%Z);
     ("q_proj.Delta.U", ztensor [2; 2] [1; 0; 0; 1]%Z);
     ("k_proj.Delta.U", ztensor [2; 2] [1; 2; 0; 3]%Z)]
    = inr (div (foldl add zero [1; 3]%Z) (of_int (Z.of_nat 2))) /\
  OrthogonalFinetune.calculate_det
    [("q_proj.Pre.weight", ztensor [2; 2] [5; 6; 7; 8]%Z)]
    = inl ZeroDivisionError.
Proof.
  split.
  - apply (calculate_det_spec
             [("q_proj.Pre.weight", ztensor [2; 2] [5; 6; 7; 8]%Z);
              ("q_proj.Delta.U", ztensor [2; 2] [1; 0; 0; 1]%Z);
              ("k_proj.Delta.U", ztensor [2; 2] [1; 2; 0; 3]%Z)] [1; 3]%Z).
    vm_compute. repeat constructor.
  - apply (calculate_det_spec
             [("q_proj.Pre.weight", ztensor [2; 2] [5; 6; 7; 8]%Z)] []).
    vm_compute. constructor.
Defined.

(** ** [OrthLoss.forward] with more layers than blocks *)

Section OrthLossBounds.
Context {E : Type} `{Scalar E} `{MatrixNorm E}.
Implicit Types (self : OrthLoss.t) (tr : OrthLoss.Transformer (E := E)).

Lemma outer_loop_app self tr (r1 r2 : list nat) (acc : list E) :
  OrthLoss.outer_loop self tr (r1 ++ r2) acc =
  acc' ← OrthLoss.outer_loop self tr r1 acc; OrthLoss.outer_loop self tr r2 acc'.
Proof.
  revert acc. induction r1 as [|i r1 IH]; intros acc; [done|].
  cbn [app OrthLoss.outer_loop].
  destruct (OrthLoss.inner_loop self tr i _ acc) as [e|acc1]; [done|].
  cbn [mbind result_bind]. apply IH.
Qed.

Lemma term_out_of_range self tr (i : nat) (embed : string) :
  length (OrthLoss.resblocks tr) <= i ->
  OrthLoss.term self tr i embed = inl IndexError.
Proof.
  intros Hi. unfold OrthLoss.term, OrthLoss.getitem.
  by rewrite (lookup_ge_None_2 (OrthLoss.resblocks tr) i Hi).
Qed.

Lemma outer_loop_out_of_range self tr (i : nat) (rest : list nat) (acc : list E) :
  length (OrthLoss.resblocks tr) <= i ->
  OrthLoss.outer_loop self tr (i :: rest) acc = inl IndexError.
Proof.
  intros Hi. cbn [OrthLoss.outer_loop OrthLoss.inner_loop].
  by rewrite (term_out_of_range self tr i "q" Hi).
Qed.

(** X18.  When the layer count of the encoder exceeds the number of its blocks,
    [forward] never returns: it raises; and with a valid selector and
    rotation matrices in all the blocks there are, it raises [IndexError]
    at the first missing block. *)
Theorem orth_loss_missing_block self tr :
  length (OrthLoss.resblocks tr) < OrthLoss.layers tr ->
  (exists e, OrthLoss.forward self tr = inl e) /\
  (valid_adjust_type self ->
   forall us, OrthLoss.resblocks tr ≫= block_rotations = Some <$> us ->
              Forall is_matrix us ->
              OrthLoss.forward self tr = inl IndexError).
Proof.
  intros Hlen. unfold OrthLoss.forward. cbn zeta.
  set (n := length (OrthLoss.resblocks tr)) in *.
  assert (Hseq : seq 0 (OrthLoss.layers tr) =
                 seq 0 n ++ n :: seq (S n) (OrthLoss.layers tr - S n)).
  { replace (OrthLoss.layers tr) with (n + S (OrthLoss.layers tr - S n)) at 1 by lia.
    by rewrite seq_app. }
  rewrite Hseq, outer_loop_app. split.
  - destruct (OrthLoss.outer_loop self tr (seq 0 n) []) as [e|acc]; [by eexists|].
    cbn [mbind result_bind]. rewrite outer_loop_out_of_range by (unfold n; lia).
    by eexists.
  - intros Hsel us Hus Hmat.
    rewrite (outer_loop_collect self tr n 0 []) by (unfold n; lia).
    rewrite drop_0. unfold n. rewrite firstn_all, Hus.
    destruct (deviations_exist us Hmat) as [devs Hdevs].
    rewrite (collect_valid self us devs [] Hsel Hdevs).
    cbn [mbind result_bind]. rewrite outer_loop_out_of_range by lia. done.
Qed.

End OrthLossBounds.

(** The one-block encoder [zencoder] read with two layers *)
Lemma orth_loss_missing_block_witness :
  (exists e, OrthLoss.forward (OrthLoss.mk "fro")
               (OrthLoss.mkTransformer 2 (OrthLoss.resblocks zencoder)) = inl e) /\
  (valid_adjust_type (OrthLoss.mk "fro") ->
   forall us,
     OrthLoss.resblocks (OrthLoss.mkTransformer 2 (OrthLoss.resblocks zencoder))
       ≫= block_rotations = Some <$> us ->
     Forall is_matrix us ->
     OrthLoss.forward (OrthLoss.mk "fro")
       (OrthLoss.mkTransformer 2 (OrthLoss.resblocks zencoder)) = inl IndexError).
Proof.
  apply (orth_loss_missing_block (OrthLoss.mk "fro")
           (OrthLoss.mkTransformer 2 (OrthLoss.resblocks zencoder))).
  simpl. lia.
Defined.


(** ** On which inputs a square delta layer is defined *)

Section DeltaDomain.
Context {E : Type} `{Scalar E}.

Lemma matmul_defined (a b : Tensor E) (n k m : nat) :
  shape a = [n; k] -> shape b = [k; m] -> dtype a = dtype b ->
  exists c, matmul a b = inr c /\ shape c = [n; m] /\ dtype c = dtype a.
Proof.
  intros Ha Hb Hd. unfold matmul. rewrite Ha, Hb, Nat.eqb_refl.
  rewrite decide_True by done. by eexists.
Qed.

Lemma forward_defined (n : nat) (l : Delta.LoRALayer (E := E)) (x : Tensor E)
    (lead : list nat) :
  square_layer n l -> shape x = lead ++ [n] -> dtype x = float32 ->
  exists y, Delta.forward l x = inr y /\ shape y = lead ++ [n] /\ dtype y = float32.
Proof.
  intros (Hin & Hout & (u & HU & Hus & Hud) & Hmode) Hx Hdx.
  destruct l as [i o r alpha bias A B D bb U]. cbn in Hin, Hout, HU, Hmode.
  subst i o U.
  assert (Hxu : dtype x = dtype u) by (by rewrite Hdx, Hud).
  pose proof (linear_defined x u lead n n Hus Hx Hxu) as HxU.
  set (xU := mkTensor _ _ _) in HxU.
  assert (HxUs : shape xU = lead ++ [n]) by done.
  assert (HxUd : dtype xU = float32) by done.
  assert (Hlast : forall w z, shape w = [n; n] -> dtype w = float32 ->
            shape z = lead ++ [n] -> dtype z = float32 ->
            exists y, linear z w = inr y /\ shape y = lead ++ [n] /\
                      dtype y = float32).
  { intros w z Hws Hwd Hzs Hzd.
    rewrite (linear_defined z w lead n n Hws Hzs) by (by rewrite Hzd, Hwd).
    by eexists. }
  unfold Delta.forward. cbn [Delta.r Delta.U Delta.A Delta.B Delta.D Delta.b
    Delta.bias Delta.alpha].
  destruct (0 <? r)%Z.
  - destruct Hmode as (a & b & k & -> & -> & Has & Hbs & Had & Hbd).
    cbn [Delta.getattr mbind result_bind]. rewrite HxU. cbn [mbind result_bind].
    destruct (matmul_defined b a n k n Hbs Has) as (ba & -> & Hbas & Hbad);
      [by rewrite Hbd, Had|].
    cbn [mbind result_bind].
    destruct (Hlast ba xU) as (xUW & -> & HxUWs & HxUWd);
      [done|by rewrite Hbad, Hbd|done|done|].
    cbn [mbind result_bind].
    destruct (Hlast (transpose u) xUW) as (y & -> & Hys & Hyd);
      [by apply transpose_shape|by rewrite transpose_dtype|done|done|].
    cbn [mbind result_bind]. eexists. split; [done|]. split; [exact Hys|].
    cbn [div_int mul_int dtype]. by rewrite Hyd.
  - destruct Hmode as [(d & -> & Hds & Hdd) Hb].
    destruct (Hlast d xU) as (xUW & HxUW & HxUWs & HxUWd); [done..|].
    destruct (Hlast (transpose u) xUW) as (y & Hy & Hys & Hyd);
      [by apply transpose_shape|by rewrite transpose_dtype|done|done|].
    destruct bias; cbn [Delta.getattr mbind result_bind];
      rewrite HxU; cbn [mbind result_bind];
      rewrite HxUW; cbn [mbind result_bind];
      rewrite Hy; cbn [mbind result_bind].
    + destruct (Hb eq_refl) as (v & -> & Hvs & Hvd).
      cbn [Delta.getattr mbind result_bind].
      unfold tensor_add, binary_op. rewrite Hys, Hvs, broadcast_shapes_trailing.
      eexists. split; [done|]. cbn [shape dtype]. split; [done|].
      unfold result_type. rewrite Hys, Hvs, Hyd, Hvd. by destruct (lead ++ [n]).
    + by exists y.
Qed.

(** X14.  A square layer, whatever its parameters hold, is defined exactly on
    the inputs of shape [(.., n)] and of the layer's dtype, and its
    correction has the shape and the dtype of the input. *)
Theorem forward_defined_iff (n : nat) (l : Delta.LoRALayer (E := E)) (x : Tensor E) :
  square_layer n l ->
  ((exists y, Delta.forward l x = inr y) <->
     (exists lead, shape x = lead ++ [n]) /\ dtype x = float32) /\
  (forall y, Delta.forward l x = inr y -> shape y = shape x /\ dtype y = float32).
Proof.
  intros Hl.
  assert (Hdom : forall y, Delta.forward l x = inr y ->
            exists lead, shape x = lead ++ [n] /\ dtype x = float32).
  { intros y Hy. destruct Hl as (_ & _ & (u & HU & Hus & Hud) & _).
    destruct (linear x u) as [e|xU] eqn:HxU.
    { unfold Delta.forward in Hy. rewrite HU in Hy.
      cbn [Delta.getattr mbind result_bind] in Hy. rewrite HxU in Hy.
      destruct (0 <? Delta.r l)%Z; [done|]. by destruct (Delta.bias l). }
    destruct (linear_inv x u xU n n Hus HxU) as (lead & Hx & _ & Hdx & _).
    exists lead. split; [done|]. by rewrite Hdx. }
  split; [split|].
  - intros [y Hy]. destruct (Hdom y Hy) as (lead & Hx & Hdx).
    split; [by exists lead | done].
  - intros [[lead Hx] Hdx].
    destruct (forward_defined n l x lead Hl Hx Hdx) as (y & Hy & _). by exists y.
  - intros y Hy. destruct (Hdom y Hy) as (lead & Hx & Hdx).
    destruct (forward_defined n l x lead Hl Hx Hdx) as (y' & Hy' & Hs & Hd).
    rewrite Hy in Hy'. injection Hy' as <-. by rewrite Hx.
Qed.

End DeltaDomain.

(** The trained layer [ztrained] *)
Lemma forward_defined_iff_witness :
  ((exists y, Delta.forward ztrained (ztensor [1; 2] [3; 4]%Z) = inr y) <->
     (exists lead, shape (ztensor [1; 2] [3; 4]%Z) = lead ++ [2]) /\
     dtype (ztensor [1; 2] [3; 4]%Z) = float32) /\
  (forall y, Delta.forward ztrained (ztensor [1; 2] [3; 4]%Z) = inr y ->
             shape y = shape (ztensor [1; 2] [3; 4]%Z) /\ dtype y = float32).
Proof.
  apply (forward_defined_iff 2 ztrained (ztensor [1; 2] [3; 4]%Z)).
  unfold square_layer, ztrained. cbn.
  split; [reflexivity|]. split; [reflexivity|]. split.
  - eexists. repeat split; reflexivity.
  - eexists _, _, 1. repeat split; reflexivity.
Defined.

(** ** datasets/common.py *)

Section BatchFacts.
Context {V : Type}.

(** X19.  [maybe_dictionarize] returns a dict batch as it is, without looking
    at its keys, and turns a sequence of two or three items into a dict
    with the keys "images", "labels" and "metadata", in this order, that
    holds the items in their order; on its own result it changes nothing.
    It raises [ValueError], naming the length, exactly on a sequence of
    another length. *)
Theorem maybe_dictionarize_spec (b : Common.batch (V := V)) :
  match Common.maybe_dictionarize b with
  | inr d =>
      Common.maybe_dictionarize (Common.BatchDict d) = inr d /\
      match b with
      | Common.BatchDict d0 => d = d0
      | Common.BatchSeq items =>
          (length items = 2 \/ length items = 3) /\ d.*2 = items /\
          dict_keys d = take (length items) ["images"; "labels"; "metadata"]
      end
  | inl e =>
      exists items, b = Common.BatchSeq items /\
                    length items <> 2 /\ length items <> 3 /\
                    e = ValueError ("Unexpected number of elements: "
                                    +:+ pretty.pretty (length items))
  end.
Proof.
  destruct b as [d|items]; [done|].
  destruct items as [|x [|y [|z [|w rest]]]]; cbn [Common.maybe_dictionarize].
  - exists []. by repeat split.
  - exists [x]. by repeat split.
  - split; [done|]. split; [by left|]. by split.
  - split; [done|]. split; [by right|]. by split.
  - exists (x :: y :: z :: w :: rest). cbn [length]. repeat split; try done; lia.
Qed.

End BatchFacts.

Section FeatureFacts.
Context {Encoder Dataset Features World : Type}
  `{Common.FeatureOps Encoder Dataset Features World}.

(** X20.  For an encoder without a cache directory [get_features] raises
    [UnboundLocalError]: the message that announces the extraction reads
    the local [cache_dir], which only the branch for a cache directory
    assigns.  Nothing is printed, extracted or written. *)
Theorem get_features_without_cache_dir (is_train : bool) (image_encoder : Encoder)
    (dataset : Dataset) (w : World) :
  Common.cache_dir image_encoder = None ->
  Common.get_features is_train image_encoder dataset w =
    ([], w, inl (Common.UnboundLocalError "cache_dir")).
Proof. intros Hnone. unfold Common.get_features. by rewrite Hnone. Qed.

End FeatureFacts.

(** ** The recursion of [os.makedirs] ends *)

Lemma length_string_of_list_ascii (l : list Ascii.ascii) :
  String.length (string_of_list_ascii l) = length l.
Proof. induction l as [|c l IH]; [done|]. cbn. by rewrite IH. Qed.

Lemma length_list_ascii_of_string (s : string) :
  length (list_ascii_of_string s) = String.length s.
Proof. induction s as [|c s IH]; [done|]. cbn. by rewrite IH. Qed.

Lemma span_tail_length (rev_path tail rev_head tail' : list Ascii.ascii) :
  Persistence.span_tail rev_path tail = (rev_head, tail') ->
  length rev_head + length tail' = length rev_path + length tail.
Proof.
  revert tail. induction rev_path as [|c rest IH]; intros tail.
  - cbn. by intros [= <- <-].
  - cbn [Persistence.span_tail]. destruct (Persistence.is_slash c).
    + by intros [= <- <-].
    + intros Hrun. apply IH in Hrun. cbn [length] in *. lia.
Qed.

Lemma drop_slashes_length (l : list Ascii.ascii) :
  length (Persistence.drop_slashes l) <= length l.
Proof.
  induction l as [|c l IH]; [done|]. cbn [Persistence.drop_slashes].
  destruct (Persistence.is_slash c); cbn [length]; lia.
Qed.

(** The head of a path is not longer than the path, and shorter when
    there is a tail. *)
Lemma split_head_length (p : string) :
  String.length (Persistence.split p).1 <= String.length p /\
  ((Persistence.split p).2 <> "" ->
   String.length (Persistence.split p).1 < String.length p).
Proof.
  unfold Persistence.split.
  destruct (Persistence.span_tail (reverse (list_ascii_of_string p)) [])
    as [rev_head tail] eqn:Hspan.
  apply span_tail_length in Hspan.
  rewrite length_reverse, length_list_ascii_of_string in Hspan. cbn [length] in Hspan.
  assert (Hhead : length (match Persistence.drop_slashes rev_head with
                          | [] => rev_head
                          | stripped => stripped
                          end) <= length rev_head).
  { pose proof (drop_slashes_length rev_head).
    by destruct (Persistence.drop_slashes rev_head). }
  cbn [fst snd]. rewrite length_string_of_list_ascii, length_reverse. split; [lia|].
  intros Htail. destruct tail as [|c tail]; [done|]. cbn [length] in Hspan. lia.
Qed.

Section MakedirsFuel.
Context {E : Type} `{Scalar E}.
Implicit Types (fs : Persistence.FileSystem (E := E)).

Lemma leaf_no_RuntimeError (name : string) fs (msg : string) :
  match Persistence.mkdir name fs with
  | inr fs' => inr fs'
  | inl e => if Persistence.isdir fs name then inr fs else inl e
  end <> inl (RuntimeError msg).
Proof.
  unfold Persistence.mkdir.
  destruct (String.eqb name ""); [cbn; by destruct (Persistence.isdir fs name)|].
  destruct (Persistence.exists_ fs name);
    [cbn; by destruct (Persistence.isdir fs name)|].
  destruct (_ || _); [done|].
  destruct (Persistence.exists_ fs (Persistence.dirname name)); cbn;
    by destruct (Persistence.isdir fs name).
Qed.

(** The bound on the recursion that [makedirs] starts with is never
    reached. *)
Lemma makedirs_fuel_enough (fuel : nat) (name : string) fs (msg : string) :
  String.length name <= fuel ->
  Persistence.makedirs_fuel fuel name fs <> inl (RuntimeError msg).
Proof.
  revert name fs. induction fuel as [|fuel IH]; intros name fs Hlen.
  - destruct name; [|cbn in Hlen; lia].
    apply (leaf_no_RuntimeError "" fs msg).
  - cbn [Persistence.makedirs_fuel].
    pose proof (split_head_length name) as [Hle Hlt].
    destruct (Persistence.split name) as [head tail].
    cbn [fst snd] in Hle, Hlt.
    pose proof (split_head_length head) as [Hle' Hlt'].
    destruct (if String.eqb tail "" then Persistence.split head else (head, tail))
      as [head' tail'] eqn:Hsplit.
    destruct (negb (String.eqb head' "") && negb (String.eqb tail' "")
              && negb (Persistence.exists_ fs head')) eqn:Hcond;
      [|apply leaf_no_RuntimeError].
    apply andb_prop in Hcond as [[_ Htail']%andb_prop _].
    apply negb_true_iff, String.eqb_neq in Htail'.
    assert (Hshort : String.length head' <= fuel).
    { destruct (String.eqb_spec tail "") as [_|Htail].
      - rewrite Hsplit in Hle', Hlt'. cbn [fst snd] in Hle', Hlt'.
        specialize (Hlt' Htail'). lia.
      - injection Hsplit as <- <-. specialize (Hlt Htail). lia. }
    specialize (IH head' fs Hshort).
    destruct (Persistence.makedirs_fuel fuel head' fs) as [e|fs1].
    + destruct e; try done; destruct (String.eqb tail' ".");
        try done; apply leaf_no_RuntimeError.
    + destruct (String.eqb tail' "."); [done|apply leaf_no_RuntimeError].
Qed.

End MakedirsFuel.

(** ** Saving into a directory that exists *)




Section SaveExisting.
Context {E : Type} `{Scalar E}.
Implicit Types (fs : Persistence.FileSystem (E := E)).






End SaveExisting.

(** ** Construction when the fine-tuned checkpoint lacks a key *)

Section ConstructMissing.
Context {E : Type} `{Scalar E}.

Lemma tensor_sub_error (f p : Tensor E) (e : exn) :
  tensor_sub f p = inl e -> exists msg, e = RuntimeError msg.
Proof.
  unfold tensor_sub, binary_op. destruct (broadcast_shapes _ _); [done|].
  intros [= <-]. by eexists.
Qed.

Lemma init_loop_missing (pre fin : dict (Tensor E)) (keys : list string)
    (vec : dict (Tensor E)) (k : string) (p : Tensor E) :
  (forall k', k' ∈ keys -> is_Some (dict_get pre k')) ->
  k ∈ keys -> dict_get pre k = Some p -> dtype p ∉ [int64; uint8] ->
  dict_get fin k = None ->
  exists e, TaskVector.init_loop keys pre fin vec = inl e /\
            ((exists k', e = KeyError k' /\ dict_get fin k' = None) \/
             exists msg, e = RuntimeError msg).
Proof.
  intros Hpre Hin Hp Hex Hf. revert vec.
  induction keys as [|key rest IH]; intros vec; [by apply elem_of_nil in Hin|].
  assert (Hpre' : forall k', k' ∈ rest -> is_Some (dict_get pre k')).
  { intros k' Hk'. apply Hpre. by apply list_elem_of_further. }
  cbn [TaskVector.init_loop].
  destruct (Hpre key) as [p0 Hp0]; [apply list_elem_of_here|].
  rewrite (dict_getitem_Some _ _ _ Hp0). cbn [mbind result_bind].
  destruct (decide (key = k)) as [->|Hne].
  - rewrite Hp in Hp0. injection Hp0 as <-.
    rewrite bool_decide_eq_false_2 by done.
    rewrite (dict_getitem_None _ _ Hf). cbn [mbind result_bind].
    eexists. split; [done|]. left. by exists k.
  - assert (Hrest : k ∈ rest).
    { apply elem_of_cons in Hin as [?|?]; [congruence | done]. }
    case_bool_decide; [by apply IH|].
    destruct (dict_get fin key) as [f0|] eqn:Hf0.
    + rewrite (dict_getitem_Some _ _ _ Hf0). cbn [mbind result_bind].
      destruct (tensor_sub f0 p0) as [e|d] eqn:Hsub.
      * eexists. split; [done|]. right. by apply (tensor_sub_error f0 p0).
      * cbn [mbind result_bind]. by apply IH.
    + rewrite (dict_getitem_None _ _ Hf0). cbn [mbind result_bind].
      eexists. split; [done|]. left. by exists key.
Qed.

(** X2.  When the fine-tuned map lacks a key that the pretrained map has with
    a dtype other than [torch.int64] and [torch.uint8], no vector is
    built: the construction raises [KeyError] for a key that the
    fine-tuned map lacks, unless a subtraction before it has raised. *)
Theorem construct_missing_key (pre fin : dict (Tensor E)) (k : string) (p : Tensor E) :
  dict_get pre k = Some p -> dtype p ∉ [int64; uint8] -> dict_get fin k = None ->
  exists e, TaskVector.construct pre fin = inl e /\
            ((exists k', e = KeyError k' /\ dict_get fin k' = None) \/
             exists msg, e = RuntimeError msg).
Proof.
  intros Hp Hex Hf.
  destruct (init_loop_missing pre fin (dict_keys pre) [] k p)
    as (e & He & Hkind); try done.
  { intros k' Hk'. by apply dict_get_is_Some. }
  { apply dict_get_is_Some. by rewrite Hp. }
  exists e. split; [|done].
  unfold TaskVector.construct, TaskVector.__init__, TaskVector.state_dict.
  by rewrite He.
Qed.

End ConstructMissing.

(** ** Negating twice, and the bracketing of a sum *)

Lemma promote_types_assoc (a b c : DType) :
  promote_types (promote_types a b) c = promote_types a (promote_types b c).
Proof. by destruct a, b, c. Qed.

Section Involution.
Context {E : Type} `{Scalar E}.
Hypothesis neg_neg : forall x : E, neg (neg x) = x.

Lemma tensor_neg_involutive (x : Tensor E) : tensor_neg (tensor_neg x) = x.
Proof.
  destruct x as [d s xs]. unfold tensor_neg. cbn [dtype shape data]. f_equal.
  rewrite <- list_fmap_compose. rewrite <- (list_fmap_id xs) at 2.
  apply list_fmap_ext. intros i x _. apply neg_neg.
Qed.

(** X4.  Where negation of scalars is an involution, [-(-v)] holds what [v]
    holds under every key. *)
Theorem neg_involutive (v : TaskVector.t (E := E)) :
  exists n m, TaskVector.__neg__ v = inr n /\ TaskVector.__neg__ n = inr m /\
              forall k, dict_get (TaskVector.vector m) k =
                        dict_get (TaskVector.vector v) k.
Proof.
  destruct (neg_lookup v) as (n & Hn & Hgetn).
  destruct (neg_lookup n) as (m & Hm & Hgetm).
  exists n, m. split; [done|]. split; [done|]. intros k.
  rewrite Hgetm, Hgetn. destruct (dict_get (TaskVector.vector v) k) as [x|]; [|done].
  cbn. by rewrite tensor_neg_involutive.
Qed.

End Involution.

Section Associativity.
Context {E : Type} `{Scalar E}.
Hypothesis add_assoc : forall x y z : E, add (add x y) z = add x (add y z).

Lemma result_type_same_shape (a b : Tensor E) :
  shape b = shape a -> result_type a b = promote_types (dtype a) (dtype b).
Proof. intros Hs. unfold result_type. rewrite Hs. by destruct (shape a). Qed.

Lemma add_at_assoc (x y z : option (Tensor E)) (s : list nat) :
  (forall t, x = Some t -> shape t = s) ->
  (forall t, y = Some t -> shape t = s) ->
  (forall t, z = Some t -> shape t = s) ->
  add_at (add_at x y) z = add_at x (add_at y z).
Proof.
  intros Hx Hy Hz.
  destruct x as [x|]; [|done].
  destruct y as [y|]; [|done].
  destruct z as [z|]; [|by destruct (add_at (Some x) (Some y))].
  specialize (Hx x eq_refl). specialize (Hy y eq_refl). specialize (Hz z eq_refl).
  assert (Hyx : shape y = shape x) by (by rewrite Hx, Hy).
  assert (Hzy : shape z = shape y) by (by rewrite Hy, Hz).
  assert (Hzx : shape z = shape x) by (by rewrite Hx, Hz).
  unfold add_at, tensor_add.
  rewrite (binary_op_same_shape add x y Hyx), (binary_op_same_shape add y z Hzy).
  rewrite (binary_op_same_shape add _ z) by done.
  rewrite (binary_op_same_shape add x) by (by cbn [shape]).
  cbn [shape dtype data].
  rewrite !result_type_same_shape by (by cbn [shape]).
  cbn [dtype]. rewrite promote_types_assoc, Hyx. do 2 f_equal.
  apply list_fmap_ext. intros j i Hj.
  apply lookup_seq in Hj as [-> Hlt]. cbn [Nat.add].
  rewrite !nth_fmap_seq by done. apply add_assoc.
Qed.

(** X6.  Where addition of scalars is associative and the three vectors hold
    tensors of one shape per key, [(a + b) + c] and [a + (b + c)] hold
    the same tensor under every key. *)
Theorem add_associates (sh : string -> list nat) (a b c : TaskVector.t (E := E)) :
  (forall u k x, u ∈ [a; b; c] -> dict_get (TaskVector.vector u) k = Some x ->
     shape x = sh k) ->
  exists ab bc l r o1 o2 o3 o4,
    TaskVector.__add__ a b = inr (ab, o1) /\ TaskVector.__add__ ab c = inr (l, o2) /\
    TaskVector.__add__ b c = inr (bc, o3) /\ TaskVector.__add__ a bc = inr (r, o4) /\
    forall k, dict_get (TaskVector.vector l) k = dict_get (TaskVector.vector r) k.
Proof.
  intros Hsh.
  assert (Ha : forall k x, dict_get (TaskVector.vector a) k = Some x -> shape x = sh k).
  { intros k x. apply Hsh, list_elem_of_here. }
  assert (Hb : forall k x, dict_get (TaskVector.vector b) k = Some x -> shape x = sh k).
  { intros k x. apply Hsh, list_elem_of_further, list_elem_of_here. }
  assert (Hc : forall k x, dict_get (TaskVector.vector c) k = Some x -> shape x = sh k).
  { intros k x.
    apply Hsh, list_elem_of_further, list_elem_of_further, list_elem_of_here. }
  assert (Hsum : forall u v,
            (forall k x, dict_get (TaskVector.vector u) k = Some x -> shape x = sh k) ->
            (forall k x, dict_get (TaskVector.vector v) k = Some x -> shape x = sh k) ->
            exists s out, TaskVector.__add__ u v = inr (s, out) /\
              (forall k, dict_get (TaskVector.vector s) k =
                         add_at (dict_get (TaskVector.vector u) k)
                                (dict_get (TaskVector.vector v) k)) /\
              (forall k x, dict_get (TaskVector.vector s) k = Some x -> shape x = sh k)).
  { intros u v Hu Hv. destruct (add_lookup u v) as (s & Hs & Hget).
    { intros k x y Hx Hy. rewrite (Hu k x Hx), (Hv k y Hy).
      by rewrite broadcast_shapes_refl. }
    exists s. eexists. split; [exact Hs|]. split; [exact Hget|].
    intros k t Ht. rewrite Hget in Ht. unfold sum_at in Ht.
    destruct (dict_get (TaskVector.vector u) k) as [x|] eqn:Hx; [|done].
    destruct (dict_get (TaskVector.vector v) k) as [y|] eqn:Hy; [|done].
    destruct (add_at_same_shape x y) as (t' & Ht' & Hshape).
    { by rewrite (Hu k x Hx), (Hv k y Hy). }
    unfold add_at in Ht'. rewrite Ht' in Ht. injection Ht as <-.
    rewrite Hshape. by apply (Hu k). }
  destruct (Hsum a b Ha Hb) as (ab & o1 & Hab & Hgab & Hsab).
  destruct (Hsum ab c Hsab Hc) as (l & o2 & Hl & Hgl & _).
  destruct (Hsum b c Hb Hc) as (bc & o3 & Hbc & Hgbc & Hsbc).
  destruct (Hsum a bc Ha Hsbc) as (r & o4 & Hr & Hgr & _).
  exists ab, bc, l, r, o1, o2, o3, o4. repeat (split; [done|]).
  intros k. rewrite Hgl, Hgab, Hgr, Hgbc.
  apply (add_at_assoc _ _ _ (sh k)).
  - intros t. apply Ha.
  - intros t. apply Hb.
  - intros t. apply Hc.
Qed.

End Associativity.

(** ** Closed examples of the further properties *)

Lemma NoDup_two (a b : string) : a <> b -> NoDup [a; b].
Proof.
  intros Hab. apply list.NoDup_cons. split.
  - by intros ?%list_elem_of_singleton.
  - apply NoDup_singleton.
Qed.

(** The vector of [zfinetuned] over [zpretrained]: the weight is kept,
    the counter of dtype [torch.int64] is not. *)
Lemma construct_spec_witness :
  exists v, TaskVector.construct zpretrained zfinetuned = inr v /\
    (forall k p, dict_get zpretrained k = Some p -> dtype p ∉ [int64; uint8] ->
       exists f d, dict_get zfinetuned k = Some f /\ tensor_sub f p = inr d /\
                   dict_get (TaskVector.vector v) k = Some d) /\
    (forall k p, dict_get zpretrained k = Some p -> dtype p ∈ [int64; uint8] ->
       dict_get (TaskVector.vector v) k = None) /\
    (forall k, dict_get zpretrained k = None -> dict_get (TaskVector.vector v) k = None).
Proof.
  apply (construct_spec zpretrained zfinetuned).
  intros k p. unfold zpretrained, zfinetuned. cbn [dict_get].
  destruct (String.eqb_spec k "weight") as [->|_].
  { intros [= <-] _. eexists. split; [reflexivity|]. vm_compute. by eexists. }
  destruct (String.eqb_spec k "num_batches_tracked") as [->|_]; [|done].
  intros [= <-] Hd. exfalso. apply Hd. apply list_elem_of_here.
Defined.

(** [zvector_a + zvector_b] and [zvector_b + zvector_a] *)
Lemma add_commutes_witness :
  exists s1 s2,
    TaskVector.__add__ zvector_a zvector_b =
      inr (s1, TaskVector.add_warning <$>
                 filter (fun k => dict_contains (TaskVector.vector zvector_b) k = false)
                   (dict_keys (TaskVector.vector zvector_a))) /\
    TaskVector.__add__ zvector_b zvector_a =
      inr (s2, TaskVector.add_warning <$>
                 filter (fun k => dict_contains (TaskVector.vector zvector_a) k = false)
                   (dict_keys (TaskVector.vector zvector_b))) /\
    forall k, dict_get (TaskVector.vector s1) k = dict_get (TaskVector.vector s2) k.
Proof.
  apply (add_commutes (E := Z)).
  { intros x y. simpl. lia. }
  intros k x y. unfold zvector_a, zvector_b. cbn [TaskVector.vector dict_get].
  destruct (String.eqb k "w"); [intros [= <-] [= <-]; vm_compute; by eexists|].
  destruct (String.eqb k "only_a"); [|done].
  destruct (String.eqb k "only_b"); [|done].
  intros [= <-] [= <-]. vm_compute. by eexists.
Defined.

(** [zvector_a + (-zvector_a)] *)
Lemma add_neg_cancels_witness :
  exists n s, TaskVector.__neg__ zvector_a = inr n /\
              TaskVector.__add__ zvector_a n = inr (s, []) /\
              forall k, dict_get (TaskVector.vector s) k =
                        zeros_ <$> dict_get (TaskVector.vector zvector_a) k.
Proof.
  apply (add_neg_cancels (E := Z)).
  { intros x. simpl. lia. }
  intros k x. unfold zvector_a. cbn [TaskVector.vector dict_get].
  destruct (String.eqb k "w"); [by intros [= <-]|].
  destruct (String.eqb k "only_a"); [by intros [= <-]|done].
Defined.

(** The vector of [zfinetuned] over [zpretrained], applied to
    [zpretrained] *)
Lemma apply_construct_round_trip_witness :
  exists v m out,
    TaskVector.construct zpretrained zfinetuned = inr v /\
    TaskVector.apply_to v zpretrained None = inr (m, out) /\
    dict_keys m = dict_keys zpretrained /\
    (forall k p, dict_get zpretrained k = Some p -> dtype p ∉ [int64; uint8] ->
       dict_get m k = dict_get zfinetuned k) /\
    (forall k p, dict_get zpretrained k = Some p -> dtype p ∈ [int64; uint8] ->
       dict_get m k = Some p /\ TaskVector.apply_warning k ∈ out).
Proof.
  apply (apply_construct_round_trip (E := Z)).
  - intros p f. simpl. lia.
  - by apply NoDup_two.
  - intros k p. unfold zpretrained, zfinetuned. cbn [dict_get].
    destruct (String.eqb_spec k "weight") as [->|_].
    { intros [= <-] _. split; [reflexivity|]. eexists. by repeat split. }
    destruct (String.eqb_spec k "num_batches_tracked") as [->|_]; [|done].
    intros [= <-] Hd. exfalso. apply Hd. apply list_elem_of_here.
Defined.

(** [zvector_a] applied to [zbase] with the coefficient zero *)
Lemma apply_to_zero_coefficient_witness :
  TaskVector.apply_to zvector_a zbase (Some zero) =
    inr (zbase,
         TaskVector.apply_warning <$>
           filter (fun k => dict_contains (TaskVector.vector zvector_a) k = false)
             (dict_keys zbase)).
Proof.
  apply (apply_to_zero_coefficient (E := Z)).
  - intros x. reflexivity.
  - intros x. simpl. lia.
  - by apply NoDup_two.
  - intros k p. unfold zbase. cbn [dict_get].
    destruct (String.eqb k "w"); [by intros [= <-]|].
    destruct (String.eqb k "steps"); [by intros [= <-]|done].
  - intros k p t. unfold zbase, zvector_a. cbn [TaskVector.vector dict_get].
    destruct (String.eqb_spec k "w") as [->|_]; [by intros [= <-] [= <-]|].
    destruct (String.eqb_spec k "steps") as [->|_]; [|done].
    intros _. vm_compute. discriminate.
Defined.

(** [sum([zvector_a, zvector_b])] *)
Lemma sum_spec_witness :
  exists s out,
    Arithmetic.sum [zvector_a; zvector_b] = inr (TaskVector.PyTaskVector s, out) /\
    ([zvector_b] = [] -> s = zvector_a /\ out = []) /\
    (forall k, dict_get (TaskVector.vector s) k =
               total_at (dict_get (TaskVector.vector zvector_a) k) [zvector_b] k) /\
    (forall k, is_Some (dict_get (TaskVector.vector s) k) <->
               forall u, u ∈ [zvector_a; zvector_b] ->
                         is_Some (dict_get (TaskVector.vector u) k)).
Proof.
  apply (sum_spec (fun k => if String.eqb k "w" then [2] else [1])
           [zvector_a; zvector_b]).
  intros u k x Hu.
  apply elem_of_cons in Hu as [->|Hu];
    [|apply list_elem_of_singleton in Hu as ->];
    cbn [zvector_a zvector_b TaskVector.vector dict_get];
    destruct (String.eqb k "w"); try (by intros [= <-]).
  - destruct (String.eqb k "only_a"); [by intros [= <-]|done].
  - destruct (String.eqb k "only_b"); [by intros [= <-]|done].
Defined.

(** The trained layer [ztrained] on a batch of one row *)
Lemma parameters_reset_to_zero_witness :
  (exists l' y, Delta.zero_parameters ztrained = inr l' /\
                Delta.forward l' (ztensor [1; 2] [3; 4]%Z) = inr y /\
                shape y = [1] ++ [2] /\
                data y = replicate (numel ([1] ++ [2])) zero) /\
  (exists l' y, Delta.reset_parameters ztrained [9; 9]%Z = inr l' /\
                Delta.forward l' (ztensor [1; 2] [3; 4]%Z) = inr y /\
                shape y = [1] ++ [2] /\
                data y = replicate (numel ([1] ++ [2])) zero).
Proof.
  apply (parameters_reset_to_zero 2 ztrained [9; 9]%Z (ztensor [1; 2] [3; 4]%Z) [1]).
  - unfold square_layer, ztrained. cbn.
    split; [reflexivity|]. split; [reflexivity|]. split.
    + eexists. repeat split; reflexivity.
    + eexists _, _, 1. repeat split; reflexivity.
  - reflexivity.
  - reflexivity.
Defined.

(** A wrapper of two features around the weight [[1 2] [3 4]] and the
    bias [[5 6]] *)
Lemma Linear_transparent_at_init_witness :
  exists L y,
    Linear.__init__ 2 2 1 4 (ztensor [2; 2] [1; 2; 3; 4]%Z) (Some (ztensor [2] [5; 6]%Z))
      [0; 0; 0; 0]%Z [0; 0]%Z [9; 9]%Z [8; 8]%Z = inr L /\
    Linear.Pre L (ztensor [1; 2] [1; 1]%Z) = inr y /\
    Linear.forward L (ztensor [1; 2] [1; 1]%Z) = inr y.
Proof.
  apply (Linear_transparent_at_init (E := Z)) with (lead := [1]).
  - intros x. simpl. lia.
  - reflexivity.
  - reflexivity.
  - reflexivity.
  - reflexivity.
Defined.


(** The features of a training set through an encoder without a cache
    directory *)
Lemma get_features_without_cache_dir_witness :
  Common.get_features (Features := Z) true tt tt tt =
    ([], tt, inl (Common.UnboundLocalError "cache_dir")).
Proof.
  apply (get_features_without_cache_dir (Features := Z) true tt tt tt).
  reflexivity.
Defined.




(** A fine-tuned checkpoint without the weight of [zpretrained] *)
Lemma construct_missing_key_witness :
  exists e,
    TaskVector.construct zpretrained
      [("num_batches_tracked", mkTensor int64 [] [8]%Z)] = inl e /\
    ((exists k', e = KeyError k' /\
                 dict_get [("num_batches_tracked", mkTensor int64 [] [8]%Z)] k' = None) \/
     exists msg, e = RuntimeError msg).
Proof.
  apply (construct_missing_key zpretrained
           [("num_batches_tracked", mkTensor int64 [] [8]%Z)]
           "weight" (ztensor [2] [1; 2]%Z)).
  - reflexivity.
  - vm_compute. intros Hin. inversion Hin as [|? ? ? Hin']; subst.
    inversion Hin' as [|? ? ? Hin'']; subst. inversion Hin''.
  - reflexivity.
Defined.


(** [-(-zvector_a)] *)
Lemma neg_involutive_witness :
  exists n m, TaskVector.__neg__ zvector_a = inr n /\ TaskVector.__neg__ n = inr m /\
              forall k, dict_get (TaskVector.vector m) k =
                        dict_get (TaskVector.vector zvector_a) k.
Proof.
  apply (neg_involutive (E := Z)).
  intros x. simpl. lia.
Defined.

(** [zvector_a], [zvector_b] and [zvector_a] again, bracketed both ways *)
Lemma add_associates_witness :
  exists ab bc l r o1 o2 o3 o4,
    TaskVector.__add__ zvector_a zvector_b = inr (ab, o1) /\
    TaskVector.__add__ ab zvector_a = inr (l, o2) /\
    TaskVector.__add__ zvector_b zvector_a = inr (bc, o3) /\
    TaskVector.__add__ zvector_a bc = inr (r, o4) /\
    forall k, dict_get (TaskVector.vector l) k = dict_get (TaskVector.vector r) k.
Proof.
  apply (add_associates (E := Z))
    with (sh := fun k => if String.eqb k "w" then [2] else [1]).
  { intros x y z. simpl. lia. }
  intros u k x Hu.
  apply elem_of_cons in Hu as [->|Hu];
    [|apply elem_of_cons in Hu as [->|Hu];
      [|apply list_elem_of_singleton in Hu as ->]];
    cbn [zvector_a zvector_b TaskVector.vector dict_get];
    destruct (String.eqb k "w"); try (by intros [= <-]).
  - destruct (String.eqb k "only_a"); [by intros [= <-]|done].
  - destruct (String.eqb k "only_b"); [by intros [= <-]|done].
  - destruct (String.eqb k "only_a"); [by intros [= <-]|done].
Defined.
